(** * Kalshi / Polymarket arbitrage bot: a shallow embedding of
      [kalshi_poly_arb_live.py] and the properties of its core, with the
      team matcher of [team_mappings.py].

    Conventions of the embedding.
    - Python [float]s are exact rationals ([Q]); comparisons are the
      boolean tests on [Q], equalities are stated with [==].  Rounding
      error is not modelled; [round(x, n)] is the rational rounded to [n]
      decimals, a tie going to the even digit.
    - Python [str] is [string] over 8-bit characters; [lower] and [upper]
      act on the letters A-Z / a-z.
    - A Python dict that is iterated is an association list in insertion
      order; the process-wide set and counter are stdpp's [gset] and [gmap].
    - Calls that leave the process (order entry, balances) take their
      answers from an explicit environment record and are recorded in a
      trace of events; the journal file is an explicit file state. *)

From Stdlib Require Import QArith Qabs Lqa String Ascii List ZArith Bool.
From stdpp Require Import gmap strings list pretty.
From Stdlib Require Import Sorted.

Local Open Scope string_scope.
Local Open Scope list_scope.

(** ** Strings *)

Module Str.

Definition is_upper (c : ascii) : bool :=
  let n := N_of_ascii c in (65 <=? n)%N && (n <=? 90)%N.

Definition is_lower (c : ascii) : bool :=
  let n := N_of_ascii c in (97 <=? n)%N && (n <=? 122)%N.

Definition is_digit (c : ascii) : bool :=
  let n := N_of_ascii c in (48 <=? n)%N && (n <=? 57)%N.

Definition lower_char (c : ascii) : ascii :=
  if is_upper c then ascii_of_N (N_of_ascii c + 32) else c.

Definition upper_char (c : ascii) : ascii :=
  if is_lower c then ascii_of_N (N_of_ascii c - 32) else c.

(** [s.lower()] and [s.upper()] *)
Fixpoint lower (s : string) : string :=
  match s with
  | EmptyString => EmptyString
  | String c s' => String (lower_char c) (lower s')
  end.

Fixpoint upper (s : string) : string :=
  match s with
  | EmptyString => EmptyString
  | String c s' => String (upper_char c) (upper s')
  end.

(** [needle in hay] *)
Fixpoint contains (needle hay : string) : bool :=
  if String.prefix needle hay then true
  else match hay with
       | EmptyString => false
       | String _ hay' => contains needle hay'
       end.

(** [s[:n]] *)
Definition take (n : nat) (s : string) : string := substring 0 n s.

(** [s.split(sep)] for a one-character separator: never empty. *)
Fixpoint split (sep : ascii) (s : string) : list string :=
  match s with
  | EmptyString => [EmptyString]
  | String c s' =>
      if Ascii.eqb c sep then EmptyString :: split sep s'
      else match split sep s' with
           | [] => [String c EmptyString]
           | w :: ws => String c w :: ws
           end
  end.

End Str.

(** ** Market types: [extract_market_type] *)

Inductive market_type := Spread | Total | Winner.

#[global] Instance market_type_eq_dec : EqDecision market_type.
Proof. solve_decision. Defined.

Definition market_type_str (t : market_type) : string :=
  match t with Spread => "spread" | Total => "total" | Winner => "winner" end.

(** [extract_market_type(title)]; [None] is Python's [None]. *)
Definition extract_market_type (title : string) : option market_type :=
  let title_lower := Str.lower title in
  if Str.contains "spread" title_lower || Str.contains "wins by" title_lower
  then Some Spread
  else if Str.contains "o/u" title_lower
          || Str.contains "over/under" title_lower
          || (Str.contains "over" title_lower && Str.contains "under" title_lower)
  then Some Total
  else if Str.contains "team total" title_lower
  then Some Total
  else if Str.contains "winner" title_lower
          || (Str.contains " wins" title_lower && negb (Str.contains "by" title_lower))
  then Some Winner
  else if Str.contains " vs" title_lower
          && negb (Str.contains "spread" title_lower)
          && negb (Str.contains "o/u" title_lower)
          && negb (Str.contains "total" title_lower)
  then Some Winner
  else None.

(** ** Numbers in titles: [re.search] for an optional sign, one or more
       digits, an optional dot and further digits; then [float] *)

Module Num.

Definition digit_val (c : ascii) : Z := Z.of_N (N_of_ascii c) - 48.

(** the longest run of digits at the head of [s]: (value, count, rest) *)
Fixpoint take_digits (s : string) (acc : Z) (n : nat) : Z * nat * string :=
  match s with
  | String c s' =>
      if Str.is_digit c then take_digits s' (10 * acc + digit_val c) (S n)
      else (acc, n, s)
  | EmptyString => (acc, n, s)
  end.

(** [float] of the text matched by [\d+\.?\d*] at the head of [s] *)
Definition unsigned_at (s : string) : Q :=
  let '(ip, _, rest) := take_digits s 0 0 in
  match rest with
  | String "."%char rest' =>
      let '(fp, k, _) := take_digits rest' 0 0 in
      let den := Z.to_pos (10 ^ Z.of_nat k) in
      (ip * Zpos den + fp) # den
  | _ => ip # 1
  end.

Definition head_is_digit (s : string) : bool :=
  match s with String c _ => Str.is_digit c | EmptyString => false end.

(** does the pattern match at the head of [s], and with which value *)
Definition match_at (s : string) : option Q :=
  match s with
  | EmptyString => None
  | String c s' =>
      if Ascii.eqb c "-" then
        if head_is_digit s' then Some (- unsigned_at s')%Q else None
      else if Ascii.eqb c "+" then
        if head_is_digit s' then Some (unsigned_at s') else None
      else if Str.is_digit c then Some (unsigned_at s)
      else None
  end.

(** [re.search]: the leftmost match *)
Fixpoint search (s : string) : option Q :=
  match match_at s with
  | Some q => Some q
  | None => match s with
            | EmptyString => None
            | String _ s' => search s'
            end
  end.

End Num.

(** [extract_line_number(title)] *)
Definition extract_line_number (title : string) : option Q := Num.search title.

(** ** Teams *)

(** A dict literal with repeated keys keeps the last value of each key. *)
Definition literal_get {V} (k : string) (d : list (string * V)) : option V :=
  fold_left (fun acc kv => if String.eqb (fst kv) k then Some (snd kv) else acc) d None.

Definition TEAM_SEARCH_MAP : list (string * list string) :=
  [ ("buf", ["buffalo"; "bills"]); ("den", ["denver"; "broncos"]);
    ("mia", ["miami"; "dolphins"]); ("ne", ["new england"; "patriots"]);
    ("nyj", ["new york jets"; "jets"; "ny jets"]);
    ("nyg", ["new york giants"; "giants"; "ny giants"]);
    ("bal", ["baltimore"; "ravens"]); ("cin", ["cincinnati"; "bengals"]);
    ("cle", ["cleveland"; "browns"]); ("pit", ["pittsburgh"; "steelers"]);
    ("hou", ["houston"; "texans"]); ("ind", ["indianapolis"; "colts"]);
    ("jax", ["jacksonville"; "jaguars"]); ("ten", ["tennessee"; "titans"]);
    ("kc", ["kansas city"; "chiefs"]); ("lv", ["las vegas"; "raiders"]);
    ("lac", ["los angeles chargers"; "chargers"; "la chargers"]);
    ("lar", ["los angeles rams"; "rams"; "la rams"]);
    ("sea", ["seattle"; "seahawks"]);
    ("sfs", ["san francisco"; "49ers"; "niners"]);
    ("ari", ["arizona"; "cardinals"]); ("atl", ["atlanta"; "falcons"]);
    ("car", ["carolina"; "panthers"]); ("dal", ["dallas"; "cowboys"]);
    ("det", ["detroit"; "lions"]); ("gb", ["green bay"; "packers"]);
    ("min", ["minnesota"; "vikings"]); ("no", ["new orleans"; "saints"]);
    ("phi", ["philadelphia"; "eagles"]); ("tb", ["tampa bay"; "buccaneers"]);
    ("was", ["washington"; "commanders"]); ("chi", ["chicago"; "bears"]);
    (* NBA *)
    ("atl", ["atlanta"; "hawks"]); ("bos", ["boston"; "celtics"]);
    ("bkn", ["brooklyn"; "nets"]); ("cha", ["charlotte"; "hornets"]);
    ("chi", ["chicago"; "bulls"]);
    ("cle", ["cleveland"; "cavaliers"; "cavs"]);
    ("dal", ["dallas"; "mavericks"; "mavs"]); ("den", ["denver"; "nuggets"]);
    ("det", ["detroit"; "pistons"]); ("gsw", ["golden state"; "warriors"]);
    ("hou", ["houston"; "rockets"]); ("ind", ["indiana"; "pacers"]);
    ("lac", ["los angeles clippers"; "clippers"; "la clippers"]);
    ("lal", ["los angeles lakers"; "lakers"; "la lakers"]);
    ("mem", ["memphis"; "grizzlies"]); ("mia", ["miami"; "heat"]);
    ("mil", ["milwaukee"; "bucks"]);
    ("min", ["minnesota"; "timberwolves"; "wolves"]);
    ("nop", ["new orleans"; "pelicans"]);
    ("nyk", ["new york knicks"; "knicks"; "ny knicks"]);
    ("okc", ["oklahoma city"; "thunder"]); ("orl", ["orlando"; "magic"]);
    ("phi", ["philadelphia"; "76ers"; "sixers"]); ("phx", ["phoenix"; "suns"]);
    ("por", ["portland"; "trail blazers"]); ("sac", ["sacramento"; "kings"]);
    ("sas", ["san antonio"; "spurs"]); ("tor", ["toronto"; "raptors"]);
    ("uta", ["utah"; "jazz"]); ("was", ["washington"; "wizards"]);
    (* CBB *)
    ("gcu", ["grand canyon"; "antelopes"]); ("nm", ["new mexico"; "lobos"]);
    ("marq", ["marquette"; "golden eagles"]);
    ("sju", ["st johns"; "st. john's"; "red storm"]);
    ("duke", ["duke"; "blue devils"]); ("unc", ["north carolina"; "tar heels"]);
    ("ku", ["kansas"; "jayhawks"]); ("uk", ["kentucky"; "wildcats"]);
    ("nova", ["villanova"; "wildcats"]); ("prov", ["providence"; "friars"]);
    ("gonz", ["gonzaga"; "bulldogs"; "zags"]);
    ("uconn", ["uconn"; "connecticut"; "huskies"]); ("ucla", ["ucla"; "bruins"]);
    ("pur", ["purdue"; "boilermakers"]);
    ("tenn", ["tennessee"; "volunteers"; "vols"]);
    ("txam", ["texas a&m"; "aggies"; "texas am"]);
    ("pepp", ["pepperdine"; "waves"]); ("port", ["portland"; "pilots"]) ].

(** [get_team_search_terms(abbrev)] *)
Definition get_team_search_terms (abbrev : string) : list string :=
  let abbrev_lower := Str.lower abbrev in
  match literal_get abbrev_lower TEAM_SEARCH_MAP with
  | Some terms => terms
  | None => [abbrev_lower]
  end.

(** [any(term.lower() in text for term in get_team_search_terms(team))] *)
Definition mentions (team text : string) : bool :=
  existsb (fun term => Str.contains (Str.lower term) text) (get_team_search_terms team).

(** ** Exceptions *)

Inductive exn := IndexError | AttributeError.

Inductive result (A : Type) := Ok (a : A) | Raise (e : exn).
Arguments Ok {A} a.
Arguments Raise {A} e.

Definition bind {A B} (r : result A) (k : A -> result B) : result B :=
  match r with Ok a => k a | Raise e => Raise e end.

Notation "'do' x <- r ; k" := (bind r (fun x => k))
  (at level 10, x name, r at level 100, k at level 200).

(** [l[i]] *)
Definition index {A} (l : list A) (i : nat) : result A :=
  match nth_error l i with Some a => Ok a | None => Raise IndexError end.

(** running a loop body that extends one output list *)
Fixpoint collect {A B} (body : A -> result (list B)) (l : list A) : result (list B) :=
  match l with
  | [] => Ok []
  | x :: l' => do ys <- body x; do zs <- collect body l'; Ok (ys ++ zs)
  end.

(** [game_key.split(':')[1].split('-')] *)
Definition game_teams (game_key : string) : result (list string) :=
  do teams_str <- index (Str.split ":" game_key) 1; Ok (Str.split "-" teams_str).

(** [extract_spread_info(title, game_key)] *)
Definition extract_spread_info (title game_key : string) : option (string * Q) :=
  if Str.contains ":" game_key then
    match game_teams game_key with
    | Raise _ => None
    | Ok team_abbrevs =>
        if negb (Nat.eqb (length team_abbrevs) 2) then None
        else
          let title_lower := Str.lower title in
          match Num.search title_lower with
          | None => None
          | Some x =>
              let line := Qabs x in
              match List.find (fun team_abbrev => mentions team_abbrev title_lower) team_abbrevs with
              | Some team_abbrev => Some (team_abbrev, line)
              | None => None
              end
          end
    end
  else None.

(** ** Prices *)

Definition Qltb (x y : Q) : bool := negb (Qle_bool y x).

(** two-argument [min] and [max]: the first argument wins a tie *)
Definition min2 (a b : Q) : Q := if Qltb b a then b else a.
Definition max2 (a b : Q) : Q := if Qltb a b then b else a.

Definition MIN_PROFIT : Q := 0.005%Q.
Definition KALSHI_TAKER_FEE : Q := 0.02%Q.
Definition MAX_POSITION : Q := 8%Q.
Definition DRY_RUN : bool := false.
Definition TEST_TINY_ORDER : bool := true.
Definition TEST_ORDER_SIZE : Q := 2%Q.
Definition LOSS_KILL_THRESHOLD : Q := 0.40%Q.
Definition LIQUIDITY_PERCENT : Q := 0.30%Q.
Definition ARB_COOLDOWN_SECONDS : Q := 3600%Q.
Definition MAX_POSITIONS_PER_GAME : nat := 3.
Definition POLL_INTERVAL : Q := 15%Q.

(** ** Market records, as [get_kalshi_games] and [get_polymarket_games]
       build them *)

Record ks_market := {
  k_title : string;
  k_yes : Q;
  k_no : Q;
  k_id : string;
  k_event_ticker : string;
  k_open_interest : Q;
  k_volume_24h : Q;
  k_liquidity : Q }.

(** ['id'] is always the two-element list of CLOB token ids. *)
Record pm_market := {
  p_title : string;
  p_yes : Q;
  p_no : Q;
  p_bid : Q;
  p_ask : Q;
  p_id : string * string;
  p_outcomes : list string;
  p_volume : Q;
  p_volume_24h : Q }.

(** [dict[str, list]] in insertion order *)
Definition games (M : Type) : Type := list (string * list M).

Fixpoint dict_get {K V} `{EqDecision K} (d : list (K * V)) (k : K) : option V :=
  match d with
  | [] => None
  | (k', v) :: d' => if decide (k' = k) then Some v else dict_get d' k
  end.

(** ** Candidates *)

Inductive side := Yes | No.

Definition side_str (s : side) : string :=
  match s with Yes => "yes" | No => "no" end.

(** ['pm_side'] is ['yes'] / ['no'] for spreads and winners and the token
    index [0] / [1] for totals. *)
Inductive pm_side_val := PmSide (s : side) | PmToken (i : nat).

(** ['pm_id'] is the whole token list, or one token of it (winners). *)
Inductive pm_id_val := IdPair (ids : string * string) | IdToken (t : string).

Record arb := {
  a_game : string;
  a_type : string;
  a_market_type : market_type;
  a_ks : string;
  a_pm : string;
  a_ks_id : string;
  a_pm_id : pm_id_val;
  a_ks_side : side;
  a_pm_side : pm_side_val;
  a_pm_team : option string;
  a_ks_team : option string;
  a_cost : Q;
  a_profit : Q;
  a_roi : Q;
  a_fee : Q;
  a_ks_ask : Q;          (* 'ks_yes_ask' or 'ks_no_ask', after 'ks_side' *)
  a_pm_best_ask : Q;
  a_hedge_check : option string }.

(** One pricing block of [find_arbs]: fee, cost, profit, the profit test and
    the appended dict.  The six blocks of the source differ only in the
    arguments given here. *)
Definition price_block (game_key type_label : string) (market_type : market_type)
    (ks_market : ks_market) (pm_market : pm_market) (pm_id : pm_id_val)
    (ks_side : side) (pm_side : pm_side_val) (pm_team ks_team : option string)
    (ks_cost_before_fee pm_cost : Q) (hedge_check : option string) : list arb :=
  let ks_fee := (ks_cost_before_fee * KALSHI_TAKER_FEE)%Q in
  let cost := (ks_cost_before_fee + ks_fee + pm_cost)%Q in
  let profit := (1 - cost)%Q in
  if Qle_bool (MIN_PROFIT * cost) profit && Qltb 0 cost then
    [ {| a_game := game_key;
         a_type := type_label;
         a_market_type := market_type;
         a_ks := Str.take 60 (k_title ks_market);
         a_pm := Str.take 60 (p_title pm_market);
         a_ks_id := k_id ks_market;
         a_pm_id := pm_id;
         a_ks_side := ks_side;
         a_pm_side := pm_side;
         a_pm_team := pm_team;
         a_ks_team := ks_team;
         a_cost := cost;
         a_profit := profit;
         a_roi := if Qltb 0 cost then (profit / cost)%Q else 0%Q;
         a_fee := ks_fee;
         a_ks_ask := ks_cost_before_fee;
         a_pm_best_ask := pm_cost;
         a_hedge_check := hedge_check |} ]
  else [].

(** [a != b] on [(team, line)] tuples and on optional lines *)
Definition spread_eqb (a b : string * Q) : bool :=
  String.eqb (fst a) (fst b) && Qeq_bool (snd a) (snd b).

Definition line_eqb (a b : option Q) : bool :=
  match a, b with
  | None, None => true
  | Some x, Some y => Qeq_bool x y
  | _, _ => false
  end.

(** [teams[1] if teams[0] == ks_team else teams[0]] *)
Definition opponent_of (teams : list string) (ks_team : string) : result string :=
  do t0 <- index teams 0;
  if String.eqb t0 ks_team then index teams 1 else Ok t0.

(** the last index of [outcomes] whose lowercase text mentions [team] *)
Definition outcome_idx (team : string) (outcomes : list string) : option nat :=
  fold_left
    (fun acc io => if mentions team (Str.lower (snd io)) then Some (fst io) else acc)
    (combine (seq 0 (length outcomes)) outcomes) None.

Definition token (ids : string * string) (i : nat) : string :=
  match i with O => fst ids | _ => snd ids end.

(** ** [find_arbs] *)

(** The body of the innermost loop of [find_arbs] for a spread pair.  The
    source calls [extract_spread_info] on both titles a second time and
    repeats the [None] test before pricing; the calls are pure, so the values
    of the first pair of calls are used throughout. *)
Definition spread_pair (game_key : string) (ks_market : ks_market)
    (pm_market : pm_market) : result (list arb) :=
  match extract_spread_info (k_title ks_market) game_key,
        extract_spread_info (p_title pm_market) game_key with
  | Some ks_spread, Some pm_spread =>
      if negb (spread_eqb ks_spread pm_spread) then Ok []
      else
        let '(ks_team, ks_line) := ks_spread in
        let '(pm_team, pm_line) := pm_spread in
        do teams <- game_teams game_key;
        do opponent <- opponent_of teams ks_team;
        (* Arb 1: KS YES + PM opponent covers *)
        let '(pm_cost1, pm_side1) :=
          if String.eqb pm_team ks_team then (p_no pm_market, No)
          else (p_yes pm_market, Yes) in
        let arb1 :=
          price_block game_key
            ("Kalshi " +:+ Str.upper ks_team +:+ " YES + Poly "
               +:+ Str.upper opponent +:+ " YES")
            Spread ks_market pm_market (IdPair (p_id pm_market))
            Yes (PmSide pm_side1) (Some opponent) (Some ks_team)
            (k_yes ks_market) pm_cost1 None in
        (* Arb 2: KS NO + PM ks_team covers *)
        let '(pm_cost2, pm_side2) :=
          if String.eqb pm_team ks_team then (p_yes pm_market, Yes)
          else (p_no pm_market, No) in
        let arb2 :=
          price_block game_key
            ("Kalshi " +:+ Str.upper opponent +:+ " YES + Poly "
               +:+ Str.upper ks_team +:+ " YES")
            Spread ks_market pm_market (IdPair (p_id pm_market))
            No (PmSide pm_side2) (Some ks_team) (Some ks_team)
            (k_no ks_market) pm_cost2 None in
        Ok (arb1 ++ arb2)
  | _, _ => Ok []
  end.

(** ... for a winner pair.  [if ks_team:] is false for the empty string,
    so the team loop settles on the first non-empty team that the title
    mentions. *)
Definition winner_pair (game_key : string) (ks_market : ks_market)
    (pm_market : pm_market) : result (list arb) :=
  if negb (line_eqb (extract_line_number (k_title ks_market))
                    (extract_line_number (p_title pm_market))) then Ok []
  else
    do teams <- game_teams game_key;
    if negb (Nat.eqb (length teams) 2) then Ok []
    else
      let ks_title_lower := Str.lower (k_title ks_market) in
      match List.find (fun team_abbrev =>
                    mentions team_abbrev ks_title_lower
                    && negb (String.eqb team_abbrev "")) teams with
      | None => Ok []
      | Some ks_team =>
          do opponent <- opponent_of teams ks_team;
          let pm_outcomes := p_outcomes pm_market in
          if Nat.ltb (length pm_outcomes) 2 then Ok []
          else
            match outcome_idx ks_team pm_outcomes,
                  outcome_idx opponent pm_outcomes with
            | Some ks_team_outcome_idx, Some opponent_outcome_idx =>
                (* Arb 1: KS YES + PM opponent token *)
                let '(pm_cost1, pm_token_idx1) :=
                  if Nat.eqb opponent_outcome_idx 0 then (p_yes pm_market, 0%nat)
                  else (p_no pm_market, 1%nat) in
                let arb1 :=
                  price_block game_key
                    ("KS:YES(" +:+ Str.upper ks_team +:+ ") + PM:"
                       +:+ Str.upper opponent)
                    Winner ks_market pm_market
                    (IdToken (token (p_id pm_market) pm_token_idx1))
                    Yes (PmSide (if Nat.eqb pm_token_idx1 0 then Yes else No))
                    (Some opponent) (Some ks_team)
                    (k_yes ks_market) pm_cost1
                    (Some ("Kalshi bets " +:+ ks_team +:+ " wins, PM bets "
                             +:+ opponent +:+ " wins")) in
                (* Arb 2: KS NO + PM ks_team token *)
                let '(pm_cost2, pm_token_idx2) :=
                  if Nat.eqb ks_team_outcome_idx 0 then (p_yes pm_market, 0%nat)
                  else (p_no pm_market, 1%nat) in
                let arb2 :=
                  price_block game_key
                    ("KS:NO(" +:+ Str.upper ks_team +:+ ") + PM:"
                       +:+ Str.upper ks_team)
                    Winner ks_market pm_market
                    (IdToken (token (p_id pm_market) pm_token_idx2))
                    No (PmSide (if Nat.eqb pm_token_idx2 0 then Yes else No))
                    (Some ks_team) (Some ks_team)
                    (k_no ks_market) pm_cost2
                    (Some ("Kalshi bets " +:+ opponent +:+ " wins (NO on "
                             +:+ ks_team +:+ "), PM bets " +:+ ks_team +:+ " wins")) in
                Ok (arb1 ++ arb2)
            | _, _ => Ok []
            end
      end.

(** ... for a total pair. *)
Definition total_pair (game_key : string) (market_type : market_type)
    (ks_market : ks_market) (pm_market : pm_market) : result (list arb) :=
  if negb (line_eqb (extract_line_number (k_title ks_market))
                    (extract_line_number (p_title pm_market))) then Ok []
  else
    let arb1 :=
      price_block game_key "Kalshi YES + Poly NO" market_type ks_market pm_market
        (IdPair (p_id pm_market)) Yes (PmToken 1) None None
        (k_yes ks_market) (p_no pm_market) None in
    let arb2 :=
      price_block game_key "Kalshi NO + Poly YES" market_type ks_market pm_market
        (IdPair (p_id pm_market)) No (PmToken 0) None None
        (k_no ks_market) (p_yes pm_market) None in
    Ok (arb1 ++ arb2).

Definition pair_arbs (game_key : string) (market_type : market_type)
    (ks_market : ks_market) (pm_market : pm_market) : result (list arb) :=
  match market_type with
  | Spread => spread_pair game_key ks_market pm_market
  | Winner => winner_pair game_key ks_market pm_market
  | Total => total_pair game_key Total ks_market pm_market
  end.

(** [by_type[mtype].append(m)], creating the list on first use *)
Fixpoint group_add {M} (mtype : market_type) (m : M)
    (d : list (market_type * list M)) : list (market_type * list M) :=
  match d with
  | [] => [(mtype, [m])]
  | (k, ms) :: d' =>
      if decide (k = mtype) then (k, ms ++ [m]) :: d'
      else (k, ms) :: group_add mtype m d'
  end.

Definition by_type {M} (title : M -> string) (markets : list M)
    : list (market_type * list M) :=
  fold_left
    (fun d m => match extract_market_type (title m) with
                | Some mtype => group_add mtype m d
                | None => d
                end)
    markets [].

Definition game_arbs (game_key : string) (ks_markets : list ks_market)
    (pm_markets : list pm_market) : result (list arb) :=
  let ks_by_type := by_type k_title ks_markets in
  let pm_by_type := by_type p_title pm_markets in
  collect
    (fun '(market_type, ks_type_markets) =>
       match dict_get pm_by_type market_type with
       | None => Ok []
       | Some pm_type_markets =>
           collect
             (fun ks_market =>
                collect (pair_arbs game_key market_type ks_market) pm_type_markets)
             ks_type_markets
       end)
    ks_by_type.

Definition find_arbs (ks_games : games ks_market) (pm_games : games pm_market)
    : result (list arb) :=
  collect
    (fun '(game_key, ks_markets) =>
       match dict_get pm_games game_key with
       | None => Ok []
       | Some pm_markets => game_arbs game_key ks_markets pm_markets
       end)
    ks_games.

(** ** [calculate_position_size] *)

(** The keys of a market dict that the sizer reads; [None] is an absent key. *)
Record quotes := { q_yes : option Q; q_no : option Q; q_ask : option Q }.

Definition ks_quotes (m : ks_market) : quotes :=
  {| q_yes := Some (k_yes m); q_no := Some (k_no m); q_ask := None |}.

Definition pm_quotes (m : pm_market) : quotes :=
  {| q_yes := Some (p_yes m); q_no := Some (p_no m); q_ask := Some (p_ask m) |}.

(** the loop that stops at the first market holding both keys *)
Fixpoint first_spread (pick : quotes -> option Q) (default : Q)
    (markets : list quotes) : Q :=
  match markets with
  | [] => default
  | m :: rest => match pick m with
                 | Some d => d
                 | None => first_spread pick default rest
                 end
  end.

Definition ks_spread_of (m : quotes) : option Q :=
  match q_yes m, q_no m with
  | Some y, Some n => Some (Qabs (y - n))
  | _, _ => None
  end.

Definition pm_spread_of (m : quotes) : option Q :=
  match q_yes m, q_ask m with
  | Some y, Some a => Some (Qabs (a - y))
  | _, _ => None
  end.

Definition ks_liquidity_ceiling (ks_spread : Q) : Q :=
  if Qltb ks_spread 0.01 then 20
  else if Qltb ks_spread 0.03 then 10
  else if Qltb ks_spread 0.05 then 5
  else 2.

Definition pm_liquidity_ceiling (pm_spread : Q) : Q :=
  if Qltb pm_spread 0.02 then 50
  else if Qltb pm_spread 0.05 then 25
  else if Qltb pm_spread 0.10 then 10
  else 5.

(** [min_position]: the profitability floor *)
Definition profit_floor (arb_profit : Q) : Q :=
  let min_profit_per_share := (arb_profit * 0.95)%Q in
  if Qltb 0 min_profit_per_share
  then max2 0.01 (0.01 / (min_profit_per_share + 0.001))
  else 0.01%Q.

Definition capital_ceiling (balance arb_cost : Q) : Q :=
  if Qltb 0 arb_cost then ((balance * 0.5) / arb_cost)%Q else 0%Q.

(** the returned dict, without its ['reason'] text *)
Record sizing := {
  sz_size : Q;
  sz_min : Q;
  sz_max : Q;
  sz_ks_balance : Q;
  sz_pm_balance : Q;
  sz_ks_liquidity : Q;
  sz_pm_liquidity : Q;
  sz_ks_spread : Q;
  sz_pm_spread : Q }.

(** [ks_balance] and [pm_balance] are what [get_kalshi_balance()] and
    [get_polymarket_balance()] answer. *)
Definition calculate_position_size (ks_balance pm_balance : Q) (arb : arb)
    (ks_markets pm_markets : list quotes) : sizing :=
  let arb_cost := a_cost arb in
  let arb_profit := a_profit arb in
  let ks_spread := first_spread ks_spread_of 0.01 ks_markets in
  let ks_max_liq := ks_liquidity_ceiling ks_spread in
  let pm_spread := first_spread pm_spread_of 0.05 pm_markets in
  let pm_max_liq := pm_liquidity_ceiling pm_spread in
  let ks_capital_max := capital_ceiling ks_balance arb_cost in
  let pm_capital_max := capital_ceiling pm_balance arb_cost in
  let min_position := profit_floor arb_profit in
  let max_position :=
    min2 (min2 (min2 (min2 ks_max_liq pm_max_liq) ks_capital_max) pm_capital_max)
         MAX_POSITION in
  let position_size :=
    if Qle_bool min_position max_position then (max_position * 0.70)%Q
    else min_position in
  let position_size := max2 0.01 (min2 position_size 1.0) in
  {| sz_size := position_size;
     sz_min := min_position;
     sz_max := max_position;
     sz_ks_balance := ks_balance;
     sz_pm_balance := pm_balance;
     sz_ks_liquidity := ks_max_liq;
     sz_pm_liquidity := pm_max_liq;
     sz_ks_spread := ks_spread;
     sz_pm_spread := pm_spread |}.


(** ** The trade journal *)

Record trade := {
  t_timestamp : Q;
  t_type : string;
  t_game : string;
  t_cost : Q;
  t_profit : Q;
  t_roi : Q;
  t_position_size : Q;
  t_trade_cost : Q;
  t_locked_profit : Q;
  t_success : bool;
  t_both_legs_filled : bool }.

(** The state of [TRADE_LOG] on disk.  [Stored] holds a JSON list of trade
    records, the only shape [log_trade] writes.  [Damaged] is a file that
    exists but for which [open] or [json.load] raises (no read permission, a
    write cut short, stray text after the list); [held] are the records its
    text still carries. *)
Inductive journal_file :=
  | Absent
  | Damaged (held : list trade)
  | Stored (trades : list trade).

Definition records (j : journal_file) : list trade :=
  match j with
  | Absent => []
  | Damaged held => held
  | Stored trades => trades
  end.

(** [os.path.exists(TRADE_LOG)] *)
Definition exists_file (j : journal_file) : bool :=
  match j with Absent => false | _ => true end.

(** [json.load(f)]: [None] when it raises *)
Definition load (j : journal_file) : option (list trade) :=
  match j with Stored trades => Some trades | _ => None end.

(** the dict [log_trade] builds *)
Definition new_trade (now : Q) (arb : arb) (position_size : Q)
    (success both_legs_filled : bool) : trade :=
  {| t_timestamp := now;
     t_type := a_type arb;
     t_game := a_game arb;
     t_cost := a_cost arb;
     t_profit := a_profit arb;
     t_roi := a_roi arb;
     t_position_size := position_size;
     t_trade_cost := (a_cost arb * position_size)%Q;
     t_locked_profit := (a_profit arb * position_size)%Q;
     t_success := success;
     t_both_legs_filled := both_legs_filled |}.

(** [log_trade(arb, position_size, success, both_legs_filled)] at clock
    [now]; the write itself is taken to succeed. *)
Definition log_trade (now : Q) (arb : arb) (position_size : Q)
    (success both_legs_filled : bool) (j : journal_file) : journal_file :=
  let trades :=
    if exists_file j then
      match load j with
      | Some trades => trades
      | None => []            (* except: trades = [] *)
      end
    else [] in
  let trade := new_trade now arb position_size success both_legs_filled in
  Stored (trades ++ [trade]).

(** [sum(f(t) for t in trades)] *)
Definition qsum (f : trade -> Q) (trades : list trade) : Q :=
  fold_left (fun acc t => (acc + f t)%Q) trades 0%Q.

(** [check_loss_threshold()] *)
Definition check_loss_threshold (j : journal_file) : bool :=
  if negb (exists_file j) then true
  else match load j with
       | None => true                       (* except Exception: return True *)
       | Some trades =>
           match trades with
           | [] => true
           | _ =>
               let total_cost := qsum t_trade_cost trades in
               let total_profit :=
                 qsum (fun t => if t_success t then t_locked_profit t
                                else (- t_trade_cost t)%Q) trades in
               let net_pnl := total_profit in
               if Qeq_bool total_cost 0 then true
               else
                 let loss_percent := (Qabs (min2 0 net_pnl) / total_cost)%Q in
                 if Qle_bool LOSS_KILL_THRESHOLD loss_percent then false else true
           end
       end.

(** [trades[-n:]] *)
Definition last_n {A} (n : nat) (l : list A) : list A :=
  skipn (length l - n) l.

(** [check_naked_positions()] *)
Definition check_naked_positions (j : journal_file) : bool :=
  if negb (exists_file j) then true
  else match load j with
       | None => true
       | Some trades =>
           match trades with
           | [] => true
           | _ =>
               let recent_trades := last_n 10 trades in
               let naked_positions :=
                 List.filter (fun t => negb (t_both_legs_filled t)) recent_trades in
               match naked_positions with
               | [] => true
               | _ => false
               end
           end
       end.

(** ** Order entry and [execute_arb] *)

(** the dict an order call returns: [{'success': True, 'order_id': ..}] or
    [{'success': False, 'error': ..}] *)
Inductive order_result := Filled (order_id : string) | Rejected (error : string).

Definition success (r : order_result) : bool :=
  match r with Filled _ => true | Rejected _ => false end.

(** What the two venues answer during one execution. *)
Record venue := {
  v_ks_balance : Q;               (* get_kalshi_balance() *)
  v_pm_balance : Q;               (* get_polymarket_balance() *)
  v_pm_buy : order_result;        (* place_polymarket_order(.., is_sell=False) *)
  v_ks_buy : order_result;        (* place_kalshi_order(..) *)
  v_pm_close : order_result;      (* place_polymarket_order(.., is_sell=True) *)
  v_verification_ok : bool }.     (* verify_positions_match(..) *)

(** The calls [execute_arb] makes, in order. *)
Inductive event :=
  | PmOrder (market_id : pm_id_val) (side_index : nat) (quantity price : Q)
            (is_sell : bool) (answer : order_result)
  | KsOrder (market_ticker : string) (s : side) (quantity price : Z)
            (answer : order_result)
  | Verify (kalshi_ticker : string) (poly_token_id : pm_id_val) (expected_size : Q)
           (verification_ok : bool)
  | LogTrade (a : arb) (position_size : Q) (success both_legs_filled : bool).

(** [int(x)]: truncation towards zero *)
Definition int_of (x : Q) : Z := Z.quot (Qnum x) (Zpos (Qden x)).

(** [min(m, cap)] where [cap] may be [float('inf')] ([None]) *)
Definition min_cap (m : Q) (cap : option Q) : Q :=
  match cap with None => m | Some c => min2 m c end.

Definition pm_id_eqb (a b : pm_id_val) : bool :=
  match a, b with
  | IdPair x, IdPair y => String.eqb (fst x) (fst y) && String.eqb (snd x) (snd y)
  | IdToken x, IdToken y => String.eqb x y
  | _, _ => false
  end.

(** [m.get('id') == arb['pm_id'] or (isinstance(m.get('id'), list) and
    arb['pm_id'] in m['id'])] *)
Definition pm_id_matches (m : pm_market) (pm_id : pm_id_val) : bool :=
  pm_id_eqb (IdPair (p_id m)) pm_id
  || match pm_id with
     | IdToken t => String.eqb (fst (p_id m)) t || String.eqb (snd (p_id m)) t
     | IdPair _ => false
     end.

Definition games_get {M} (g : games M) (game_key : string) : list M :=
  match dict_get g game_key with Some ms => ms | None => [] end.

(** the hard size bound of [execute_arb], before the test-mode override *)
Definition live_position_size (cost ks_balance pm_balance : Q)
    (ks_market : option ks_market) (pm_market : option pm_market) : Q :=
  let max_liq_ks := if Qltb 0 ks_balance then (ks_balance * LIQUIDITY_PERCENT)%Q else 0%Q in
  let max_liq_pm := if Qltb 0 pm_balance then (pm_balance * LIQUIDITY_PERCENT)%Q else 0%Q in
  let max_ks_liquidity_shares :=
    match ks_market with
    | Some m =>
        let ks_liquidity_metric := max2 (k_open_interest m) (k_volume_24h m) in
        if Qltb 0 ks_liquidity_metric then Some (ks_liquidity_metric * 0.10)%Q else None
    | None => None
    end in
  let max_pm_liquidity_shares :=
    match pm_market with
    | Some m =>
        let pm_liquidity_metric :=
          if Qltb 0 (p_volume_24h m) then p_volume_24h m else (p_volume m * 0.1)%Q in
        if Qltb 0 pm_liquidity_metric && Qltb 0 cost
        then Some ((pm_liquidity_metric * 0.01) / cost)%Q else None
    | None => None
    end in
  let per_cost x := if Qltb 0 cost then (x / cost)%Q else 0%Q in
  min_cap
    (min_cap (min2 (min2 (per_cost max_liq_ks) (per_cost max_liq_pm))
                   (per_cost MAX_POSITION))
             max_ks_liquidity_shares)
    max_pm_liquidity_shares.

(** [execute_arb(arb, ks_games, pm_games)] against the answers of [v], at
    clock [now], with the journal in state [j].  Returns the boolean result,
    the calls made and the journal afterwards.  Every call inside the [try]
    returns normally in this model, so its [except] handler is not entered. *)
Definition execute_arb (v : venue) (now : Q) (arb : arb)
    (ks_games : games ks_market) (pm_games : games pm_market)
    (j : journal_file) : bool * list event * journal_file :=
  let cost := a_cost arb in
  if Qle_bool cost 0 then (false, [], j)
  else if Qle_bool (a_profit arb) 0 then (false, [], j)
  else if Qltb 1 cost then (false, [], j)
  else
    let ks_balance := v_ks_balance v in
    let pm_balance := v_pm_balance v in
    let game_key := a_game arb in
    let ks_markets := games_get ks_games game_key in
    let pm_markets := games_get pm_games game_key in
    let ks_market := List.find (fun m => String.eqb (k_id m) (a_ks_id arb)) ks_markets in
    let pm_market := List.find (fun m => pm_id_matches m (a_pm_id arb)) pm_markets in
    let position_size := live_position_size cost ks_balance pm_balance ks_market pm_market in
    let position_size := if TEST_TINY_ORDER then TEST_ORDER_SIZE else position_size in
    if Qltb position_size 1 then (false, [], j)
    else
      let position_size := inject_Z (int_of position_size) in
      let trade_cost := (cost * position_size)%Q in
      if Qltb ks_balance trade_cost then (false, [], j)
      else if Qltb pm_balance trade_cost then (false, [], j)
      else if DRY_RUN then (true, [], j)
      else
        let position_size := if TEST_TINY_ORDER then TEST_ORDER_SIZE else position_size in
        match List.find (fun m => String.eqb (k_id m) (a_ks_id arb)) ks_markets with
        | None => (false, [], j)              (* Kalshi market disappeared *)
        | Some ks_fresh_market =>
            match List.find (fun m => pm_id_eqb (IdPair (p_id m)) (a_pm_id arb))
                            (games_get pm_games game_key) with
            | None => (false, [], j)          (* PM market disappeared *)
            | Some pm_market_data =>
                let pm_side_index :=
                  match a_pm_side arb with
                  | PmSide Yes => 0%nat
                  | PmSide No => 1%nat
                  | PmToken i => if Nat.eqb i 0 then 0%nat else 1%nat
                  end in
                let taker_price := a_pm_best_ask arb in
                (* STEP 1: Polymarket first *)
                let pm_result := v_pm_buy v in
                let ev1 := PmOrder (a_pm_id arb) pm_side_index position_size
                                   taker_price false pm_result in
                if negb (success pm_result) then (false, [ev1], j)
                else
                  (* STEP 2: Kalshi second *)
                  let taker_price_ks :=
                    match a_ks_side arb with
                    | Yes => int_of (k_yes ks_fresh_market * 100)
                    | No => int_of (k_no ks_fresh_market * 100)
                    end in
                  let ks_result := v_ks_buy v in
                  let ev2 := KsOrder (a_ks_id arb) (a_ks_side arb)
                                     (int_of position_size) taker_price_ks ks_result in
                  if negb (success ks_result) then
                    (* emergency close of the Polymarket position *)
                    let close_result := v_pm_close v in
                    let ev3 := PmOrder (a_pm_id arb) pm_side_index position_size
                                       0 true close_result in
                    if success close_result then
                      (false, [ev1; ev2; ev3; LogTrade arb position_size false true],
                       log_trade now arb position_size false true j)
                    else
                      (false, [ev1; ev2; ev3; LogTrade arb position_size false false],
                       log_trade now arb position_size false false j)
                  else
                    let ev4 := Verify (a_ks_id arb) (a_pm_id arb) position_size
                                      (v_verification_ok v) in
                    (true, [ev1; ev2; ev4; LogTrade arb position_size true true],
                     log_trade now arb position_size true true j)
            end
        end.

(** ** Process-wide risk state and the execution loop of [scan] *)

Definition pm_side_str (s : pm_side_val) : string :=
  match s with
  | PmSide s => side_str s
  | PmToken i => pretty i
  end.

(** [get_arb_key(arb)] *)
Definition get_arb_key (arb : arb) : string :=
  a_game arb +:+ ":" +:+ market_type_str (a_market_type arb) +:+ ":"
    +:+ side_str (a_ks_side arb) +:+ ":" +:+ pm_side_str (a_pm_side arb).

(** the two module-level globals *)
Record risk_state := {
  EXECUTED_ARBS : gset string;
  GAME_POSITION_COUNT : gmap string nat }.

Definition initial_risk_state : risk_state :=
  {| EXECUTED_ARBS := ∅; GAME_POSITION_COUNT := ∅ |}.

(** [is_duplicate_arb(arb)] *)
Definition is_duplicate_arb (st : risk_state) (arb : arb) : bool :=
  bool_decide (get_arb_key arb ∈ EXECUTED_ARBS st).

(** [mark_arb_executed(arb)] *)
Definition mark_arb_executed (st : risk_state) (arb : arb) : risk_state :=
  {| EXECUTED_ARBS := {[ get_arb_key arb ]} ∪ EXECUTED_ARBS st;
     GAME_POSITION_COUNT := GAME_POSITION_COUNT st |}.

(** [arbs.sort(key=lambda x: x['roi'], reverse=True)]: descending and
    stable *)
Fixpoint insert_by_roi (x : arb) (l : list arb) : list arb :=
  match l with
  | [] => [x]
  | y :: l' => if Qltb (a_roi x) (a_roi y) then y :: insert_by_roi x l' else x :: l
  end.

Definition sort_by_roi (arbs : list arb) : list arb :=
  fold_right insert_by_roi [] arbs.

Section Scan.

(** [W] is everything outside the risk state that an execution reads or
    changes (venues, clock, journal); [execute] is [execute_arb] seen as a
    step on it. *)
Context {W : Type} (execute : arb -> W -> bool * W).

(** One iteration of [for arb in arbs[:max_execute]].  The third component
    lists the candidates handed to [execute_arb]. *)
Definition scan_step (acc : risk_state * W * list arb) (a : arb)
    : risk_state * W * list arb :=
  let '(st, w, attempts) := acc in
  if Qle_bool MIN_PROFIT (a_roi a) then
    let game_key := a_game a in
    if is_duplicate_arb st a then acc
    else
      let current_position_count := default 0%nat (GAME_POSITION_COUNT st !! game_key) in
      if (MAX_POSITIONS_PER_GAME <=? current_position_count)%nat then acc
      else
        let '(ok, w') := execute a w in
        if ok then
          let st1 := mark_arb_executed st a in
          ({| EXECUTED_ARBS := EXECUTED_ARBS st1;
              GAME_POSITION_COUNT :=
                <[game_key := S current_position_count]> (GAME_POSITION_COUNT st1) |},
           w', attempts ++ [a])
        else (st, w', attempts ++ [a])
  else acc.

(** the loop of step [4/4], [max_execute = 2] *)
Definition scan_execute (arbs : list arb) (st : risk_state) (w : W)
    : risk_state * W * list arb :=
  fold_left scan_step (firstn 2 arbs) (st, w, []).

(** [scan()] on the market snapshots the two fetches returned *)
Definition scan (ks_games : games ks_market) (pm_games : games pm_market)
    (st : risk_state) (w : W) : result (risk_state * W * list arb) :=
  match ks_games, pm_games with
  | [], _ | _, [] => Ok (st, w, [])
  | _, _ =>
      do arbs <- find_arbs ks_games pm_games;
      match arbs with
      | [] => Ok (st, w, [])
      | _ => Ok (scan_execute (sort_by_roi arbs) st w)
      end
  end.

End Scan.

(** The world of one process: clock, journal, and the venues' answers to
    the successive executions. *)
Record world := {
  w_now : Q;
  w_journal : journal_file;
  w_calls : nat }.

Definition execute_in (answers : nat -> venue) (ks_games : games ks_market)
    (pm_games : games pm_market) (arb : arb) (w : world) : bool * world :=
  let '(ok, _, j') :=
    execute_arb (answers (w_calls w)) (w_now w) arb ks_games pm_games (w_journal w) in
  (ok, {| w_now := w_now w; w_journal := j'; w_calls := S (w_calls w) |}).

(** [time.sleep(seconds)] *)
Definition sleep (seconds : Q) (w : world) : world :=
  {| w_now := (w_now w + seconds)%Q; w_journal := w_journal w; w_calls := w_calls w |}.

(** ** The polling loop of [__main__] *)

Inductive process :=
  | Running (st : risk_state) (w : world) (attempts : list arb)
  | Exited (code : Z)                    (* sys.exit(code) *)
  | Crashed (e : exn).                   (* an exception left [scan] *)

(** One pass of [while True]: the two safety checks, [scan()] on the
    snapshots fetched in this pass, then [time.sleep(POLL_INTERVAL)].
    [attempts] accumulates the candidates handed to [execute_arb]. *)
Definition poll (answers : nat -> venue)
    (snapshot : games ks_market * games pm_market) (s : process) : process :=
  match s with
  | Running st w attempts =>
      if negb (check_loss_threshold (w_journal w)) then Exited 1
      else if negb (check_naked_positions (w_journal w)) then Exited 1
      else
        let '(ks_games, pm_games) := snapshot in
        match scan (execute_in answers ks_games pm_games) ks_games pm_games st w with
        | Ok (st', w', attempted) =>
            Running st' (sleep POLL_INTERVAL w') (attempts ++ attempted)
        | Raise e => Crashed e
        end
  | _ => s
  end.

(** [n] passes, the [i]-th of them on [snapshots i] *)
Fixpoint main_loop (answers : nat -> venue)
    (snapshots : nat -> games ks_market * games pm_market)
    (n i : nat) (s : process) : process :=
  match n with
  | O => s
  | S n' => main_loop answers snapshots n' (S i) (poll answers (snapshots i) s)
  end.

(** ** Reading a trace *)

(** a Kalshi order *)
Definition is_ks_order (e : event) : bool :=
  match e with KsOrder _ _ _ _ _ => true | _ => false end.

(** a compensating close: a Polymarket sell *)
Definition is_close (e : event) : bool :=
  match e with PmOrder _ _ _ _ true _ => true | _ => false end.

(** a journal write *)
Definition is_log (e : event) : bool :=
  match e with LogTrade _ _ _ _ => true | _ => false end.

(** the first leg filled: a Polymarket buy answered with an order id *)
Definition leg1_filled (trace : list event) : Prop :=
  exists market_id side_index quantity price order_id,
    In (PmOrder market_id side_index quantity price false (Filled order_id)) trace.

(** the second leg failed: a Kalshi order answered with an error *)
Definition leg2_failed (trace : list event) : Prop :=
  exists ticker s quantity price error,
    In (KsOrder ticker s quantity price (Rejected error)) trace.

(** ** Where a candidate comes from *)

(** [c] is one of the dicts the innermost loop body appends for the pair
    [(ks_market, pm_market)] of game [game_key]. *)
Record priced_from (game_key : string) (ks_market : ks_market)
    (pm_market : pm_market) (c : arb) : Prop := {
  pf_game : a_game c = game_key;
  pf_ks_id : a_ks_id c = k_id ks_market;
  pf_pm_id : a_pm_id c = IdPair (p_id pm_market)
             \/ a_pm_id c = IdToken (fst (p_id pm_market))
             \/ a_pm_id c = IdToken (snd (p_id pm_market));
  pf_ks_leg : a_ks_ask c = match a_ks_side c with
                           | Yes => k_yes ks_market
                           | No => k_no ks_market
                           end;
  pf_pm_leg : a_pm_best_ask c = p_yes pm_market \/ a_pm_best_ask c = p_no pm_market;
  pf_fee : a_fee c = (a_ks_ask c * KALSHI_TAKER_FEE)%Q;
  pf_cost : a_cost c = (a_ks_ask c + a_fee c + a_pm_best_ask c)%Q;
  pf_profit : a_profit c = (1 - a_cost c)%Q;
  pf_gate : (MIN_PROFIT * a_cost c <= a_profit c)%Q /\ (0 < a_cost c)%Q;
  pf_spread :
    a_market_type c = Spread ->
    exists team ks_line pm_line,
      extract_spread_info (k_title ks_market) game_key = Some (team, ks_line) /\
      extract_spread_info (p_title pm_market) game_key = Some (team, pm_line) /\
      (ks_line == pm_line)%Q }.

(** ... and the pair is filed under [game_key] on both venues, with both
    titles of the candidate's market type. *)
Record emitted_from (ks_games : games ks_market) (pm_games : games pm_market)
    (game_key : string) (ks_market : ks_market) (pm_market : pm_market)
    (c : arb) : Prop := {
  ef_ks_filed : exists ks_markets, In (game_key, ks_markets) ks_games /\ In ks_market ks_markets;
  ef_pm_filed : exists pm_markets, dict_get pm_games game_key = Some pm_markets
                                   /\ In pm_market pm_markets;
  ef_ks_type : extract_market_type (k_title ks_market) = Some (a_market_type c);
  ef_pm_type : extract_market_type (p_title pm_market) = Some (a_market_type c);
  ef_priced : priced_from game_key ks_market pm_market c }.

(** [max(lo, min(x, hi))] *)
Definition clamp (lo hi x : Q) : Q := max2 lo (min2 x hi).

(** ** Sample data *)

Module Sample.

(** A Kalshi total and the Polymarket total on the same line. *)
Definition ks_total : ks_market :=
  {| k_title := "bills at broncos: total points over/under 45.5";
     k_yes := 0.5; k_no := 0.5;
     k_id := "KXNFLTOTAL-26JAN17BUFDEN-45";
     k_event_ticker := "KXNFLTOTAL-26JAN17BUFDEN";
     k_open_interest := 1000; k_volume_24h := 400; k_liquidity := 0 |}.

Definition pm_total : pm_market :=
  {| p_title := "bills vs. broncos: o/u 45.5";
     p_yes := 0.55; p_no := 0.4775; p_bid := 0.5225; p_ask := 0.55;
     p_id := ("tok-over", "tok-under");
     p_outcomes := ["Over"; "Under"];
     p_volume := 20000; p_volume_24h := 3000 |}.

Definition ks_games : games ks_market := [("nfl:buf-den", [ks_total])].
Definition pm_games : games pm_market := [("nfl:buf-den", [pm_total])].

(** the one candidate [find_arbs] emits for them *)
Definition total_arb : arb :=
  {| a_game := "nfl:buf-den";
     a_type := "Kalshi YES + Poly NO";
     a_market_type := Total;
     a_ks := "bills at broncos: total points over/under 45.5";
     a_pm := "bills vs. broncos: o/u 45.5";
     a_ks_id := "KXNFLTOTAL-26JAN17BUFDEN-45";
     a_pm_id := IdPair ("tok-over", "tok-under");
     a_ks_side := Yes;
     a_pm_side := PmToken 1;
     a_pm_team := None;
     a_ks_team := None;
     a_cost := (0.5 + 0.5 * KALSHI_TAKER_FEE + 0.4775)%Q;
     a_profit := (1 - (0.5 + 0.5 * KALSHI_TAKER_FEE + 0.4775))%Q;
     a_roi := ((1 - (0.5 + 0.5 * KALSHI_TAKER_FEE + 0.4775))
               / (0.5 + 0.5 * KALSHI_TAKER_FEE + 0.4775))%Q;
     a_fee := (0.5 * KALSHI_TAKER_FEE)%Q;
     a_ks_ask := 0.5;
     a_pm_best_ask := 0.4775;
     a_hedge_check := None |}.

(** spreads of the game hou-pit, all on the line 6.5 *)
Definition ks_spread_pit : ks_market :=
  {| k_title := "pittsburgh wins by over 6.5 points";
     k_yes := 0.40; k_no := 0.60;
     k_id := "KXNFLSPREAD-26JAN12HOUPIT-PIT6";
     k_event_ticker := "KXNFLSPREAD-26JAN12HOUPIT";
     k_open_interest := 800; k_volume_24h := 300; k_liquidity := 0 |}.

Definition pm_spread (title : string) : pm_market :=
  {| p_title := title;
     p_yes := 0.45; p_no := 0.50; p_bid := 0.50; p_ask := 0.45;
     p_id := ("tok-a", "tok-b");
     p_outcomes := ["Steelers"; "Texans"];
     p_volume := 9000; p_volume_24h := 1200 |}.

Definition pm_spread_pit := pm_spread "spread: steelers (-6.5)".
Definition pm_spread_hou := pm_spread "spread: houston (-6.5)".
Definition pm_spread_texans := pm_spread "spread: texans (-6.5)".

(** venues with 100 dollars on each side *)
Definition venue_with (pm_buy ks_buy pm_close : order_result) : venue :=
  {| v_ks_balance := 100; v_pm_balance := 100;
     v_pm_buy := pm_buy; v_ks_buy := ks_buy; v_pm_close := pm_close;
     v_verification_ok := true |}.

Definition all_fill : venue :=
  venue_with (Filled "pm-1") (Filled "ks-1") (Filled "pm-2").

(** Polymarket fills, Kalshi rejects; the close fills or is rejected *)
Definition kalshi_rejects (pm_close : order_result) : venue :=
  venue_with (Filled "pm-1") (Rejected "insufficient balance") pm_close.

Definition polymarket_rejects : venue :=
  venue_with (Rejected "No asks available - cannot buy") (Filled "ks-1") (Filled "pm-2").

(** a fresh process at clock 0, where every order fills *)
Definition start : world := {| w_now := 0; w_journal := Absent; w_calls := 0 |}.

Definition exec (a : arb) (w : world) : bool * world :=
  execute_in (fun _ => all_fill) ks_games pm_games a w.

(** an earlier journal entry *)
Definition old_trade : trade :=
  {| t_timestamp := 1000; t_type := "Kalshi YES + Poly NO";
     t_game := "nba:bos-lal"; t_cost := 0.9; t_profit := 0.1; t_roi := 1 # 9;
     t_position_size := 2; t_trade_cost := 1.8; t_locked_profit := 0.2;
     t_success := true; t_both_legs_filled := true |}.

End Sample.

(** [kw in title.lower()] *)
Definition has_kw (kw title : string) : bool := Str.contains kw (Str.lower title).

(** ** More string operations *)

Module Text.

(** [s[k:]] *)
Fixpoint drop (k : nat) (s : string) : string :=
  match k, s with
  | O, _ => s
  | S k', String _ s' => drop k' s'
  | S _, EmptyString => EmptyString
  end.

(** [sep.join(parts)] *)
Fixpoint join (sep : string) (parts : list string) : string :=
  match parts with
  | [] => EmptyString
  | [p] => p
  | p :: rest => p +:+ sep +:+ join sep rest
  end.

(** [sorted([a, b])]: ascending by code point, stable *)
Definition sorted2 (a b : string) : list string :=
  if String.ltb b a then [b; a] else [a; b].

(** [l[lo:hi]] for indices within range *)
Definition slice {A} (lo hi : nat) (l : list A) : list A :=
  firstn (hi - lo) (skipn lo l).

(** every character satisfies [p] *)
Fixpoint all_chars (p : ascii -> bool) (s : string) : bool :=
  match s with
  | EmptyString => true
  | String c s' => p c && all_chars p s'
  end.

(** the character [c] does not occur *)
Definition lacks (c : ascii) (s : string) : bool :=
  all_chars (fun x => negb (Ascii.eqb x c)) s.

Definition is_letter (c : ascii) : bool := Str.is_upper c || Str.is_lower c.

(** two digits, three letters, two digits: [26JAN17] *)
Definition is_date (s : string) : bool :=
  match s with
  | String c1 (String c2 (String c3 (String c4 (String c5 (String c6
      (String c7 EmptyString)))))) =>
      Str.is_digit c1 && Str.is_digit c2 && is_letter c3 && is_letter c4
      && is_letter c5 && Str.is_digit c6 && Str.is_digit c7
  | _ => false
  end.

End Text.

(** ** Game keys *)

Definition ABBREV_MAP : list (string * string) :=
  [ ("gcan", "gcu"); ("nmx", "nm"); ("marq", "marq"); ("sju", "sju");
    ("gcu", "gcu"); ("nm", "nm") ].

(** [normalize_team_abbrev(abbrev)] *)
Definition normalize_team_abbrev (abbrev : string) : string :=
  let abbrev_lower := Str.lower abbrev in
  match literal_get abbrev_lower ABBREV_MAP with
  | Some canonical => canonical
  | None => abbrev_lower
  end.

(** ['-'.join(sorted([team1, team2]))] *)
Definition team_pair_key (team1 team2 : string) : string :=
  Text.join "-" (Text.sorted2 team1 team2).

(** [extract_polymarket_game_key(event_slug)] *)
Definition extract_polymarket_game_key (event_slug : string) : option string :=
  if String.eqb event_slug "" then None
  else
    let parts := Str.split "-" (Str.lower event_slug) in
    if (length parts <? 4)%nat then None
    else
      let team_parts := Text.slice 1 (length parts - 3) parts in
      if (length team_parts <? 2)%nat then None
      else
        match team_parts with
        | t1 :: t2 :: _ =>
            let team1 := normalize_team_abbrev t1 in
            let team2 := normalize_team_abbrev t2 in
            Some (team_pair_key team1 team2)
        | _ => None
        end.

(** [re.sub(r'^<2 digits><3 capitals><2 digits>', '', date_teams)] *)
Definition strip_date (date_teams : string) : string :=
  match date_teams with
  | String c1 (String c2 (String c3 (String c4 (String c5 (String c6
      (String c7 rest)))))) =>
      if Str.is_digit c1 && Str.is_digit c2 && Str.is_upper c3 && Str.is_upper c4
         && Str.is_upper c5 && Str.is_digit c6 && Str.is_digit c7
      then rest else date_teams
  | _ => date_teams
  end.

(** the five split strategies of [extract_kalshi_game_key], applied to the
    ticker's last part once the date is removed *)
Definition split_teams (teams_only : string) : option string :=
  let n := String.length teams_only in
  if (4 <=? n)%nat then
    let split_at k :=
      (normalize_team_abbrev (Str.take k teams_only),
       normalize_team_abbrev (Text.drop k teams_only)) in
    if (n =? 6)%nat then
      let '(team1, team2) := split_at 3%nat in Some (team_pair_key team1 team2)
    else if (n =? 5)%nat then
      let '(team1, team2) := split_at 3%nat in Some (team_pair_key team1 team2)
    else if (n =? 7)%nat then
      let '(team1, team2) := split_at 4%nat in Some (team_pair_key team1 team2)
    else if (n =? 8)%nat then
      let '(team1, team2) := split_at 4%nat in Some (team_pair_key team1 team2)
    else
      let mid := (n / 2)%nat in
      let '(team1, team2) := split_at mid in
      if negb (String.eqb team1 "") && negb (String.eqb team2 "")
      then Some (team_pair_key team1 team2)
      else None
  else None.

(** [extract_kalshi_game_key(event_ticker, title)] *)
Definition extract_kalshi_game_key (event_ticker title : string) : option string :=
  if String.eqb event_ticker "" && String.eqb title "" then None
  else if negb (String.eqb event_ticker "") then
    let parts := Str.split "-" (Str.upper event_ticker) in
    if (2 <=? length parts)%nat then
      let date_teams := List.last parts EmptyString in
      let teams_only := strip_date date_teams in
      split_teams teams_only
    else None
  else None.

(** ** [get_kalshi_games] *)

(** One entry of the [markets] array of a Kalshi response.  An absent or null
    text field is the empty string, an absent or null [yes_ask] is [None], an
    absent count is 0. *)
Record kalshi_json := {
  kj_event_ticker : string;
  kj_title : string;
  kj_ticker : string;
  kj_yes_ask : option Q;
  kj_open_interest : Q;
  kj_volume_24h : Q;
  kj_liquidity : Q }.

Definition series_configs : list (string * string) :=
  [ ("KXNFLGAME", "nfl"); ("KXNFLSPREAD", "nfl"); ("KXNFLTOTAL", "nfl");
    ("KXCFBGAME", "cfb"); ("KXCFBSPREAD", "cfb"); ("KXCFBTOTAL", "cfb");
    ("KXNCAAMBGAME", "cbb"); ("KXNCAAMBSPREAD", "cbb"); ("KXNCAAMBTOTAL", "cbb");
    ("KXNBAGAME", "nba"); ("KXNBASPREAD", "nba"); ("KXNBATOTAL", "nba") ].

(** the words of a first-half or quarter market *)
Definition partial_game_words : list string :=
  [ "1h "; " 1h"; "1st half"; "first half"; "2h "; " 2h"; "2nd half"; "second half";
    "1q "; " 1q"; "1st quarter"; "first quarter";
    "2q "; " 2q"; "2nd quarter"; "second quarter";
    "3q "; " 3q"; "3rd quarter"; "third quarter";
    "4q "; " 4q"; "4th quarter"; "fourth quarter" ].

(** the words of a prop or player market *)
Definition prop_words : list string :=
  [ "touchdown"; "reception"; "yard"; "passing"; "rushing"; "sack";
    "interception"; "completion"; "attempt"; "team total"; "mvp";
    "player"; "score"; "field goal"; "punt"; "turnover" ].

(** [x or 50] on a number that may be absent *)
Definition or_50 (x : option Q) : Q :=
  match x with
  | Some q => if Qeq_bool q 0 then 50 else q
  | None => 50
  end.

(** the body of the loop over one response's markets: the entry it stores
    and the key it stores it under, or [None] where it continues *)
Definition kalshi_entry (sport_type : string) (m : kalshi_json)
    : option (string * ks_market) :=
  let event_ticker := kj_event_ticker m in
  let title := Str.lower (kj_title m) in
  let ticker := kj_ticker m in
  if String.eqb event_ticker "" || String.eqb title "" then None
  else
    match extract_kalshi_game_key event_ticker title with
    | None => None
    | Some game_key =>
        if String.eqb game_key "" then None
        else
          let tagged_key := sport_type +:+ ":" +:+ game_key in
          if Str.contains "," title then None
          else if existsb (fun x => Str.contains x title
                                    || Str.contains x (Str.lower ticker))
                    partial_game_words then None
          else if existsb (fun x => Str.contains x title) prop_words then None
          else
            let has_spread :=
              Str.contains " wins by" title || Str.contains "spread" title in
            let has_total :=
              (Str.contains "over" title || Str.contains "under" title)
              && Str.contains "point" title in
            let has_winner :=
              Str.contains "winner" title
              || (Str.contains " wins" title && negb (Str.contains " by" title)) in
            if negb (has_spread || has_total || has_winner) then None
            else
              let yes_ask := (or_50 (kj_yes_ask m) / 100.0)%Q in
              let no_ask := ((100.0 - or_50 (kj_yes_ask m)) / 100.0)%Q in
              let liquidity_cents := kj_liquidity m in
              Some (tagged_key,
                    {| k_title := title;
                       k_yes := yes_ask;
                       k_no := no_ask;
                       k_id := ticker;
                       k_event_ticker := event_ticker;
                       k_open_interest := kj_open_interest m;
                       k_volume_24h := kj_volume_24h m;
                       k_liquidity := if Qeq_bool liquidity_cents 0 then 0
                                      else (liquidity_cents / 100.0)%Q |})
    end.

(** [if key not in games: games[key] = []] followed by
    [games[key].append(v)] *)
Fixpoint games_append {M} (key : string) (v : M) (g : games M) : games M :=
  match g with
  | [] => [(key, [v])]
  | (k, l) :: rest =>
      if decide (k = key) then (k, l ++ [v]) :: rest
      else (k, l) :: games_append key v rest
  end.

(** [get_kalshi_games()].  [credentials] tells whether both Kalshi secrets
    are set; [responses] gives, for a series ticker, the markets of the
    response, or [None] where the request or its decoding failed. *)
Definition get_kalshi_games (credentials : bool)
    (responses : string -> option (list kalshi_json)) : games ks_market :=
  if negb credentials then []
  else
    fold_left
      (fun games '(series_ticker, sport_type) =>
         match responses series_ticker with
         | None => games
         | Some markets =>
             fold_left
               (fun games m =>
                  match kalshi_entry sport_type m with
                  | None => games
                  | Some (tagged_key, entry) => games_append tagged_key entry games
                  end)
               markets games
         end)
      series_configs [].

(** ** [place_kalshi_order] *)

(** the keyword arguments of [create_order]; [None] is an absent keyword *)
Record kalshi_order := {
  ko_ticker : string;
  ko_side : string;
  ko_action : string;
  ko_count : Z;
  ko_type : option string;
  ko_yes_price : option Z;
  ko_no_price : option Z }.

(** the [order_id] and [status] attributes of the answer *)
Record kalshi_answer := {
  ka_order_id : option string;
  ka_status : option string }.

(** The Kalshi client: whether key file and client could be set up, and what
    [create_order] answers ([None]: it raises). *)
Record kalshi_api := {
  api_ready : bool;
  api_create_order : kalshi_order -> option kalshi_answer }.

(** [place_kalshi_order(market_ticker, side, quantity, price)]: the result
    and the orders handed to [create_order], in order.  Error texts are
    shortened. *)
Definition place_kalshi_order (api : kalshi_api) (market_ticker side : string)
    (quantity : Q) (price : Z) : order_result * list kalshi_order :=
  if negb (api_ready api) then (Rejected "setup failed", [])
  else
    let is_yes := String.eqb (Str.lower side) "yes" in
    let order_kwargs :=
      {| ko_ticker := market_ticker;
         ko_side := Str.lower side;
         ko_action := "buy";
         ko_count := int_of quantity;
         ko_type := Some "market";
         ko_yes_price := if is_yes then Some 99%Z else None;
         ko_no_price := if is_yes then None else Some 99%Z |} in
    match api_create_order api order_kwargs with
    | None => (Rejected "create_order raised", [order_kwargs])
    | Some response =>
        match ka_order_id response with
        | None | Some EmptyString =>
            (Rejected "No order_id in response", [order_kwargs])
        | Some order_id =>
            if decide (ka_status response = Some "resting") then
              let sell_kwargs :=
                {| ko_ticker := market_ticker;
                   ko_side := Str.lower side;
                   ko_action := "sell";
                   ko_count := int_of quantity;
                   ko_type := None;
                   ko_yes_price := if is_yes then Some 1%Z else None;
                   ko_no_price := if is_yes then None else Some 1%Z |} in
              (Rejected "BUG: Order rested despite 99c price - emergency flattened",
               [order_kwargs; sell_kwargs])
            else (Filled order_id, [order_kwargs])
        end
    end.

(** ** [place_polymarket_order] *)

(** [round(x)] on a rational: to the nearest integer, a tie to the even one *)
Definition round_half_even (x : Q) : Z :=
  let n := Qnum x in
  let d := Zpos (Qden x) in
  let q := (n / d)%Z in
  match (2 * (n mod d) ?= d)%Z with
  | Lt => q
  | Gt => (q + 1)%Z
  | Eq => if Z.even q then q else (q + 1)%Z
  end.

(** [round(x, ndigits)] *)
Definition round_to (ndigits : nat) (x : Q) : Q :=
  let scale := inject_Z (10 ^ Z.of_nat ndigits) in
  (inject_Z (round_half_even (x * scale)) / scale)%Q.

(** one level of an order book *)
Record level := { l_price : Q; l_size : Q }.

Record order_book := { ob_bids : list level; ob_asks : list level }.

Inductive order_side := BUY | SELL.

(** [OrderArgs(token_id, price, size, side)] *)
Record order_args := {
  oa_token_id : string;
  oa_price : Q;
  oa_size : Q;
  oa_side : order_side }.

(** The CLOB client: whether [get_polymarket_client()] returns one, the book
    it reports for a token and the order id of a fill-or-kill post ([None]:
    the call raises). *)
Record clob := {
  cl_client : bool;
  cl_get_order_book : string -> option order_book;
  cl_post_order : order_args -> option string }.

(** [market_id[side]] for a list, [market_id] otherwise *)
Definition token_of (market_id : pm_id_val) (side : nat) : result string :=
  match market_id with
  | IdPair ids => index [fst ids; snd ids] side
  | IdToken t => Ok t
  end.

(** the price, size and side the book allows, or the error returned *)
Definition taker_terms (orderbook : order_book) (quantity : Q) (is_sell : bool)
    : string + (Q * Q * order_side) :=
  if is_sell then
    match ob_bids orderbook with
    | [] => inl "No bids available - cannot sell"
    | best :: _ =>
        let best_bid_price := l_price best in
        let best_bid_size := l_size best in
        let taker_price := round_to 2 (max2 (best_bid_price - 0.01) 0.01) in
        let size := quantity in
        if Qltb best_bid_size size then inl "Insufficient buy-side liquidity"
        else inr (taker_price, size, SELL)
    end
  else
    match ob_asks orderbook with
    | [] => inl "No asks available - cannot buy"
    | best :: _ =>
        let best_ask_price := l_price best in
        let best_ask_size := l_size best in
        let taker_price := round_to 2 (min2 (best_ask_price + 0.01) 0.99) in
        let size := quantity in
        let total_value := (taker_price * size)%Q in
        if Qltb total_value 1.0 then inl "Order value < $1.00 minimum"
        else if Qltb best_ask_size size then inl "Insufficient liquidity"
        else inr (taker_price, size, BUY)
    end.

(** [place_polymarket_order(market_id, side, quantity, price, is_sell)]: the
    result and the orders handed to [post_order].  Error texts are
    shortened. *)
Definition place_polymarket_order (c : clob) (market_id : pm_id_val) (side : nat)
    (quantity price : Q) (is_sell : bool) : order_result * list order_args :=
  if negb (cl_client c) then (Rejected "Failed to initialize Polymarket client", [])
  else
    match token_of market_id side with
    | Raise _ => (Rejected "list index out of range", [])
    | Ok token_id =>
        match cl_get_order_book c token_id with
        | None => (Rejected "Cannot get orderbook", [])
        | Some orderbook =>
            match taker_terms orderbook quantity is_sell with
            | inl error => (Rejected error, [])
            | inr (taker_price, size, order_side) =>
                let order :=
                  {| oa_token_id := token_id;
                     oa_price := taker_price;
                     oa_size := round_to 4 size;
                     oa_side := order_side |} in
                match cl_post_order c order with
                | Some order_id => (Filled order_id, [order])
                | None => (Rejected "post_order raised", [order])
                end
            end
        end
    end.

(** ** [get_polymarket_games] *)

(** a price field of a Gamma market: absent or null, a number, or a text
    with what [float] makes of it ([None]: [ValueError]) *)
Inductive price_json := PAbsent | PNumber (q : Q) | PText (parsed : option Q).

(** One entry of an event's [markets] array.  An absent or null text field
    is the empty string, an absent number is 0; [pj_clob_token_ids] is the
    decoded [clobTokenIds], empty where decoding fails. *)
Record polymarket_json := {
  pj_closed : bool;
  pj_best_bid : price_json;
  pj_best_ask : price_json;
  pj_question : string;
  pj_title : string;
  pj_slug : string;
  pj_clob_token_ids : list string;
  pj_outcomes : list string;
  pj_volume_num : Q;
  pj_volume : Q;
  pj_volume24hr : Q }.

Record event_json := { ej_slug : string; ej_markets : list polymarket_json }.

Record sport_json := { sj_sport : string; sj_series : string }.

Definition award_words : list string :=
  [ "award"; "rookie"; "comeback"; "coach"; "mvp"; "dpoy"; "opoy" ].

Definition game_words : list string :=
  [ " vs "; " vs. "; "winner"; "spread"; "total"; " by " ].

(** [float(x) if isinstance(x, str) else x], with the default 0.5 for an
    absent price; [None] where [float] raises *)
Definition price_of (x : price_json) : option Q :=
  match x with
  | PAbsent => Some 0.5%Q
  | PNumber q => Some q
  | PText parsed => parsed
  end.

Definition is_absent (x : price_json) : bool :=
  match x with PAbsent => true | _ => false end.

(** [a or b] on numbers *)
Definition or_num (a b : Q) : Q := if Qeq_bool a 0 then b else a.

(** [a or b] on texts *)
Definition or_text (a b : string) : string := if String.eqb a "" then b else a.

(** what the body of the loop over an event's markets does to [games] *)
Inductive market_step :=
  | Skipped                       (* [continue] before the key is created *)
  | KeyOnly                       (* the key is created, nothing is stored *)
  | Kept (entry : pm_market).

Definition polymarket_entry (m : polymarket_json) : market_step :=
  if pj_closed m then Skipped
  else
    match price_of (pj_best_bid m), price_of (pj_best_ask m) with
    | Some bid, Some ask =>
        if (negb (is_absent (pj_best_bid m)) || negb (is_absent (pj_best_ask m)))
           && (Qle_bool ask 0 || Qltb bid 0 || Qltb 1 bid || Qltb 1 ask)
        then Skipped
        else
          let market_title := Str.lower (or_text (pj_question m) (pj_title m)) in
          let market_slug := Str.lower (pj_slug m) in
          let is_bundle :=
            Str.contains "," market_title || Str.contains " and " market_title in
          if is_bundle then Skipped
          else if existsb (fun x => Str.contains x market_title
                                    || Str.contains x market_slug)
                    partial_game_words then Skipped
          else if existsb (fun x => Str.contains x market_title) prop_words
          then Skipped
          else if negb (existsb (fun x => Str.contains x market_title) game_words)
          then Skipped
          else
            match pj_clob_token_ids m with
            | id0 :: id1 :: _ =>
                if String.eqb id0 "" || String.eqb id1 "" then KeyOnly
                else
                  let outcomes :=
                    if (length (pj_outcomes m) <? 2)%nat then ["Yes"; "No"]
                    else pj_outcomes m in
                  let yes_cost := ask in
                  let no_cost := (1.0 - bid)%Q in
                  let volume_total :=
                    or_num (or_num (pj_volume_num m) (pj_volume m)) 0 in
                  let volume_24h :=
                    or_num (pj_volume24hr m) (volume_total * 0.1)%Q in
                  Kept {| p_title := Str.take 100 market_title;
                          p_yes := yes_cost;
                          p_no := no_cost;
                          p_bid := bid;
                          p_ask := ask;
                          p_id := (id0, id1);
                          p_outcomes := outcomes;
                          p_volume := volume_total;
                          p_volume_24h := volume_24h |}
            | _ => KeyOnly
            end
    | _, _ => Skipped
    end.

(** [if key not in games: games[key] = []] *)
Fixpoint games_touch {M} (key : string) (g : games M) : games M :=
  match g with
  | [] => [(key, [])]
  | (k, l) :: rest =>
      if decide (k = key) then g else (k, l) :: games_touch key rest
  end.

(** [d[k] = v] *)
Fixpoint dict_set {V} (k : string) (v : V) (d : list (string * V))
    : list (string * V) :=
  match d with
  | [] => [(k, v)]
  | (k', v') :: d' =>
      if decide (k' = k) then (k', v) :: d' else (k', v') :: dict_set k v d'
  end.

(** the sports whose series are fetched, each with its series ids *)
Definition series_map_of (sports : list sport_json) : list (string * list string) :=
  fold_left
    (fun series_map sport =>
       let sport_name := Str.lower (sj_sport sport) in
       let series_id := sj_series sport in
       if String.eqb sport_name "nfl" then dict_set "nfl" [series_id] series_map
       else if String.eqb sport_name "cfb" then dict_set "cfb" [series_id] series_map
       else if String.eqb sport_name "cbb" then games_append "cbb" series_id series_map
       else if String.eqb sport_name "ncaab" then games_append "cbb" series_id series_map
       else if String.eqb sport_name "nba" then dict_set "nba" [series_id] series_map
       else series_map)
    sports [].

(** the body of the loop over a series' events *)
Definition polymarket_event (sport_type : string) (event : event_json)
    (g : games pm_market) : games pm_market :=
  let event_slug := Str.lower (ej_slug event) in
  if existsb (fun x => Str.contains x event_slug) award_words then g
  else
    match extract_polymarket_game_key event_slug with
    | None => g
    | Some game_key =>
        if String.eqb game_key "" then g
        else
          let tagged_key := sport_type +:+ ":" +:+ game_key in
          fold_left
            (fun games m =>
               match polymarket_entry m with
               | Skipped => games
               | KeyOnly => games_touch tagged_key games
               | Kept entry =>
                   games_append tagged_key entry (games_touch tagged_key games)
               end)
            (ej_markets event) g
    end.

(** [get_polymarket_games()].  [sports] is the decoded sports list ([None]:
    the request failed or gave no list); [events] gives, for a series id,
    the decoded events ([None]: that request failed or gave no list). *)
Definition get_polymarket_games (sports : option (list sport_json))
    (events : string -> option (list event_json)) : games pm_market :=
  match sports with
  | None => []
  | Some sports =>
      fold_left
        (fun games '(sport_type, series_ids) =>
           fold_left
             (fun games series_id =>
                match events series_id with
                | None => games
                | Some events =>
                    fold_left (fun games event => polymarket_event sport_type event games)
                      events games
                end)
             series_ids games)
        (series_map_of sports) []
  end.

(** ** [team_mappings.py] *)

Module TeamMappings.

(** canonical team name and its known aliases, in the order of the source *)
Definition TEAM_ALIASES : list (string * list string) :=
  [
    ("utah jazz", ["utah"; "uta"; "jazz"]);
    ("boston celtics", ["boston"; "bos"; "celtics"]);
    ("brooklyn nets", ["brooklyn"; "bkn"; "nets"]);
    ("charlotte hornets", ["charlotte"; "cha"; "hornets"]);
    ("chicago bulls", ["chicago"; "chi"; "bulls"]);
    ("cleveland cavaliers", ["cleveland"; "cle"; "cavaliers"; "cavs"]);
    ("dallas mavericks", ["dallas"; "dal"; "mavericks"; "mavs"]);
    ("denver nuggets", ["denver"; "den"; "nuggets"]);
    ("detroit pistons", ["detroit"; "det"; "pistons"]);
    ("golden state warriors", ["golden state"; "gsw"; "warriors"]);
    ("houston rockets", ["houston"; "hou"; "rockets"]);
    ("indiana pacers", ["indiana"; "ind"; "pacers"]);
    ("la clippers", ["la clippers"; "lac"; "clippers"]);
    ("la lakers", ["la lakers"; "lal"; "lakers"]);
    ("memphis grizzlies", ["memphis"; "mem"; "grizzlies"]);
    ("miami heat", ["miami"; "mia"; "heat"]);
    ("milwaukee bucks", ["milwaukee"; "mil"; "bucks"]);
    ("minnesota timberwolves", ["minnesota"; "min"; "timberwolves"; "twolves"]);
    ("new orleans pelicans", ["new orleans"; "nop"; "pelicans"]);
    ("new york knicks", ["new york"; "nyk"; "knicks"]);
    ("oklahoma city thunder", ["oklahoma city"; "okc"; "thunder"]);
    ("orlando magic", ["orlando"; "orl"; "magic"]);
    ("philadelphia 76ers", ["philadelphia"; "phi"; "76ers"; "sixers"]);
    ("phoenix suns", ["phoenix"; "phx"; "suns"]);
    ("portland trail blazers", ["portland"; "por"; "trail blazers"; "blazers"]);
    ("sacramento kings", ["sacramento"; "sac"; "kings"]);
    ("san antonio spurs", ["san antonio"; "sas"; "spurs"]);
    ("toronto raptors", ["toronto"; "tor"; "raptors"]);
    ("washington wizards", ["washington"; "wsh"; "wizards"]);
    ("arizona cardinals", ["arizona"; "ari"; "cardinals"]);
    ("atlanta falcons", ["atlanta"; "atl"; "falcons"]);
    ("baltimore ravens", ["baltimore"; "bal"; "ravens"]);
    ("buffalo bills", ["buffalo"; "buf"; "bills"]);
    ("carolina panthers", ["carolina"; "car"; "panthers"]);
    ("chicago bears", ["chicago"; "chi"; "bears"]);
    ("cincinnati bengals", ["cincinnati"; "cin"; "bengals"]);
    ("cleveland browns", ["cleveland"; "cle"; "browns"]);
    ("dallas cowboys", ["dallas"; "dal"; "cowboys"]);
    ("denver broncos", ["denver"; "den"; "broncos"]);
    ("detroit lions", ["detroit"; "det"; "lions"]);
    ("green bay packers", ["green bay"; "gb"; "packers"]);
    ("houston texans", ["houston"; "hou"; "texans"]);
    ("indianapolis colts", ["indianapolis"; "ind"; "colts"]);
    ("jacksonville jaguars", ["jacksonville"; "jax"; "jaguars"]);
    ("kansas city chiefs", ["kansas city"; "kc"; "chiefs"]);
    ("las vegas raiders", ["las vegas"; "lv"; "raiders"]);
    ("la chargers", ["la chargers"; "lac"; "chargers"]);
    ("la rams", ["la rams"; "lar"; "rams"]);
    ("miami dolphins", ["miami"; "mia"; "dolphins"]);
    ("minnesota vikings", ["minnesota"; "min"; "vikings"]);
    ("new england patriots", ["new england"; "ne"; "patriots"]);
    ("new orleans saints", ["new orleans"; "no"; "saints"]);
    ("new york giants", ["new york giants"; "nyg"; "giants"]);
    ("new york jets", ["new york jets"; "nyj"; "jets"]);
    ("philadelphia eagles", ["philadelphia"; "phi"; "eagles"]);
    ("pittsburgh steelers", ["pittsburgh"; "pit"; "steelers"]);
    ("san francisco 49ers", ["san francisco"; "sf"; "49ers"]);
    ("seattle seahawks", ["seattle"; "sea"; "seahawks"]);
    ("tampa bay buccaneers", ["tampa bay"; "tb"; "buccaneers"]);
    ("tennessee titans", ["tennessee"; "ten"; "titans"]);
    ("washington commanders", ["washington"; "wsh"; "commanders"]);
    ("uconn", ["uconn"; "connecticut"]);
    ("houston", ["houston"; "hou"]);
    ("purdue", ["purdue"]);
    ("tennessee", ["tennessee"; "ten"]);
    ("arizona", ["arizona"; "ari"]);
    ("gonzaga", ["gonzaga"]);
    ("duke", ["duke"]);
    ("kansas", ["kansas"]);
    ("baylor", ["baylor"]);
    ("villanova", ["villanova"]);
    ("texas", ["texas"]);
    ("kentucky", ["kentucky"])
  ].

(** the reverse lookup built when the module is loaded: a later team takes
    over an alias of an earlier one *)
Definition CANONICAL_FROM_ALIAS : list (string * string) :=
  fold_left
    (fun d '(canonical, aliases) =>
       fold_left (fun d alias => dict_set (Str.lower alias) canonical d) aliases d)
    TEAM_ALIASES [].

(** the characters [str.strip()] removes *)
Definition is_space (c : ascii) : bool :=
  let n := N_of_ascii c in
  ((9 <=? n)%N && (n <=? 13)%N) || ((28 <=? n)%N && (n <=? 32)%N).

Fixpoint lstrip (s : string) : string :=
  match s with
  | String c s' => if is_space c then lstrip s' else s
  | EmptyString => EmptyString
  end.

Fixpoint rstrip (s : string) : string :=
  match s with
  | String c s' =>
      match rstrip s' with
      | EmptyString => if is_space c then EmptyString else String c EmptyString
      | r => String c r
      end
  | EmptyString => EmptyString
  end.

(** [s.strip()] *)
Definition strip (s : string) : string := rstrip (lstrip s).

(** [re.sub(r'[^a-z0-9]', '', s)] *)
Fixpoint keep_alnum (s : string) : string :=
  match s with
  | String c s' =>
      if Str.is_lower c || Str.is_digit c then String c (keep_alnum s')
      else keep_alnum s'
  | EmptyString => EmptyString
  end.

(** [normalize(name)] *)
Definition normalize (name : string) : string :=
  keep_alnum (strip (Str.lower name)).

(** [get_canonical(name)] *)
Definition get_canonical (name : string) : option string :=
  if String.eqb name "" then None
  else dict_get CANONICAL_FROM_ALIAS (normalize name).

(** the truth value of an optional text *)
Definition truthy (x : option string) : bool :=
  match x with
  | Some s => negb (String.eqb s "")
  | None => false
  end.

(** [is_same_team(name1, name2)] *)
Definition is_same_team (name1 name2 : string) : bool :=
  if String.eqb name1 "" || String.eqb name2 "" then false
  else
    let c1 := get_canonical name1 in
    let c2 := get_canonical name2 in
    if truthy c1 && truthy c2 then
      match c1, c2 with
      | Some a, Some b => String.eqb a b
      | None, None => true
      | _, _ => false
      end
    else String.eqb (normalize name1) (normalize name2).

End TeamMappings.

(** ** Further sample data *)

Module Sample2.

(** a moneyline on each venue for the game buf-den *)
Definition ks_winner : ks_market :=
  {| k_title := "buffalo bills winner?";
     k_yes := 0.70; k_no := 0.30;
     k_id := "KXNFLGAME-26JAN17BUFDEN-BUF";
     k_event_ticker := "KXNFLGAME-26JAN17BUFDEN";
     k_open_interest := 1000; k_volume_24h := 500; k_liquidity := 0 |}.

Definition pm_winner : pm_market :=
  {| p_title := "buffalo bills vs. denver broncos";
     p_yes := 0.77; p_no := 0.25; p_bid := 0.75; p_ask := 0.77;
     p_id := ("tok-buf", "tok-den");
     p_outcomes := ["Buffalo Bills"; "Denver Broncos"];
     p_volume := 10000; p_volume_24h := 1000 |}.

Definition ks_games : games ks_market := [("nfl:buf-den", [ks_winner])].
Definition pm_games : games pm_market := [("nfl:buf-den", [pm_winner])].

(** the candidate [find_arbs] emits for them: Kalshi YES on Buffalo,
    Polymarket token of Denver *)
Definition winner_arb : arb :=
  {| a_game := "nfl:buf-den";
     a_type := "KS:YES(BUF) + PM:DEN";
     a_market_type := Winner;
     a_ks := "buffalo bills winner?";
     a_pm := "buffalo bills vs. denver broncos";
     a_ks_id := "KXNFLGAME-26JAN17BUFDEN-BUF";
     a_pm_id := IdToken "tok-den";
     a_ks_side := Yes;
     a_pm_side := PmSide No;
     a_pm_team := Some "den";
     a_ks_team := Some "buf";
     a_cost := (0.70 + 0.70 * KALSHI_TAKER_FEE + 0.25)%Q;
     a_profit := (1 - (0.70 + 0.70 * KALSHI_TAKER_FEE + 0.25))%Q;
     a_roi := ((1 - (0.70 + 0.70 * KALSHI_TAKER_FEE + 0.25))
               / (0.70 + 0.70 * KALSHI_TAKER_FEE + 0.25))%Q;
     a_fee := (0.70 * KALSHI_TAKER_FEE)%Q;
     a_ks_ask := 0.70;
     a_pm_best_ask := 0.25;
     a_hedge_check := Some "Kalshi bets buf wins, PM bets den wins" |}.

(** a Kalshi response for the series of NFL moneylines *)
Definition kalshi_winner_json : kalshi_json :=
  {| kj_event_ticker := "KXNFLGAME-26JAN17BUFDEN";
     kj_title := "Buffalo Bills winner?";
     kj_ticker := "KXNFLGAME-26JAN17BUFDEN-BUF";
     kj_yes_ask := Some 70%Q;
     kj_open_interest := 1000; kj_volume_24h := 500; kj_liquidity := 0 |}.

Definition kalshi_responses (series_ticker : string) : option (list kalshi_json) :=
  if String.eqb series_ticker "KXNFLGAME" then Some [kalshi_winner_json] else None.

(** a book with 50 shares asked at 0.60 and 40 bid at 0.58, and a client
    that fills what it is given *)
Definition book : order_book :=
  {| ob_bids := [ {| l_price := 0.58; l_size := 40 |} ];
     ob_asks := [ {| l_price := 0.60; l_size := 50 |} ] |}.

Definition filling_clob : clob :=
  {| cl_client := true;
     cl_get_order_book := fun _ => Some book;
     cl_post_order := fun _ => Some "order-1" |}.

(** a Kalshi client whose orders rest on the book *)
Definition resting_api : kalshi_api :=
  {| api_ready := true;
     api_create_order := fun _ =>
       Some {| ka_order_id := Some "k-1"; ka_status := Some "resting" |} |}.

(** and one whose orders execute *)
Definition executing_api : kalshi_api :=
  {| api_ready := true;
     api_create_order := fun _ =>
       Some {| ka_order_id := Some "k-1"; ka_status := Some "executed" |} |}.




End Sample2.

(** ** Shapes used by the further properties *)

(** what [is_same_team] compares: the canonical name of a known team, the
    normalised text of any other name *)
Definition team_key (name : string) : string + string :=
  match TeamMappings.get_canonical name with
  | Some c => if String.eqb c "" then inr (TeamMappings.normalize name) else inl c
  | None => inr (TeamMappings.normalize name)
  end.


(** a dict whose every entry satisfies [Q] *)
Definition games_all {M} (Q : string -> M -> Prop) (g : games M) : Prop :=
  List.NoDup (map fst g)
  /\ forall k l, In (k, l) g -> forall m, In m l -> Q k m.

(** the four sports the bot follows *)
Definition sport_tags : list string := ["nfl"; "cfb"; "cbb"; "nba"].

(** what the Polymarket fetch guarantees of an entry it stores under [key] *)
Definition polymarket_entry_ok (key : string) (m : pm_market) : Prop :=
  (0 < p_yes m /\ p_yes m <= 1)%Q
  /\ (0 <= p_no m /\ p_no m <= 1)%Q
  /\ p_yes m = p_ask m
  /\ (p_no m == 1 - p_bid m)%Q
  /\ (String.length (p_title m) <= 100)%nat
  /\ Str.lower (p_title m) = p_title m
  /\ fst (p_id m) <> "" /\ snd (p_id m) <> ""
  /\ (2 <= length (p_outcomes m))%nat
  /\ exists sport_type game, key = sport_type +:+ ":" +:+ game /\ In sport_type sport_tags.

(** a dict of non-empty lists whose every entry satisfies [Q] *)
Definition games_inv {M} (Q : string -> M -> Prop) (g : games M) : Prop :=
  List.NoDup (map fst g)
  /\ forall k l, In (k, l) g -> l <> [] /\ forall m, In m l -> Q k m.

(** [c] is the dict of some pricing block for the pair *)
Definition from_block (game_key : string) (market_type : market_type)
    (ks_market : ks_market) (pm_market : pm_market) (c : arb) : Prop :=
  exists type_label pm_id ks_side pm_side pm_team ks_team ks_cost pm_cost hedge,
    In c (price_block game_key type_label market_type ks_market pm_market pm_id
            ks_side pm_side pm_team ks_team ks_cost pm_cost hedge).

(** [GAME_POSITION_COUNT.get(game_key, 0)] *)
Definition position_count (st : risk_state) (game_key : string) : nat :=
  default 0%nat (GAME_POSITION_COUNT st !! game_key).

(** descending by ROI *)
Definition roi_ge (x y : arb) : Prop := (a_roi y <= a_roi x)%Q.

(** no game above [MAX_POSITIONS_PER_GAME] *)
Definition within_cap (st : risk_state) : Prop :=
  forall game_key, (position_count st game_key <= MAX_POSITIONS_PER_GAME)%nat.

Definition process_within_cap (s : process) : Prop :=
  match s with
  | Running st _ _ => within_cap st
  | _ => True
  end.

(** * Properties *)

(** ** Market classification *)

Example emt_spread : extract_market_type "Steelers wins by over 6.5 points" = Some Spread.
Proof. reflexivity. Qed.

Example emt_total : extract_market_type "Bills vs Broncos: O/U 45.5" = Some Total.
Proof. reflexivity. Qed.

Example emt_winner : extract_market_type "Buffalo Bills Winner?" = Some Winner.
Proof. reflexivity. Qed.

Example emt_vs_over : extract_market_type "Bills vs Broncos over 45.5" = Some Winner.
Proof. reflexivity. Qed.

(** C8, as stated, fails: a title whose only keyword is "over" is not
    classified as a total; it is unclassifiable. *)
Lemma over_alone_unclassified :
  has_kw "over" "Bills over 45.5 points" = true /\
  has_kw "spread" "Bills over 45.5 points" = false /\
  has_kw "wins by" "Bills over 45.5 points" = false /\
  extract_market_type "Bills over 45.5 points" = None.
Proof. repeat split; reflexivity. Qed.

(** case analysis on the keyword tests still in the goal *)
Ltac kw_cases :=
  repeat match goal with
         | |- context [Str.contains ?kw ?t] =>
             destruct (Str.contains kw t); cbn in *; try congruence
         end.

(** C8, amended: the keyword rules of [extract_market_type], in priority
    order.  Spread: "spread" or "wins by".  Total: "o/u", "over/under",
    "over" together with "under", or "team total".  Winner: "winner", or
    " wins" without "by", or " vs" without "total".  Otherwise [None]. *)
Theorem extract_market_type_rules (title : string) :
  let spread_kw := has_kw "spread" title || has_kw "wins by" title in
  let total_kw := has_kw "o/u" title || has_kw "over/under" title
                  || (has_kw "over" title && has_kw "under" title)
                  || has_kw "team total" title in
  let winner_kw := has_kw "winner" title
                   || (has_kw " wins" title && negb (has_kw "by" title)) in
  let vs_kw := has_kw " vs" title && negb (has_kw "total" title) in
  (spread_kw = true -> extract_market_type title = Some Spread) /\
  (spread_kw = false -> total_kw = true -> extract_market_type title = Some Total) /\
  (spread_kw = false -> total_kw = false -> winner_kw = true ->
     extract_market_type title = Some Winner) /\
  (spread_kw = false -> total_kw = false -> winner_kw = false -> vs_kw = true ->
     extract_market_type title = Some Winner) /\
  (spread_kw = false -> total_kw = false -> winner_kw = false -> vs_kw = false ->
     extract_market_type title = None).
Proof.
  unfold extract_market_type, has_kw.
  repeat split; intros; kw_cases; congruence.
Qed.

Lemma extract_market_type_rules_witness :
  extract_market_type "Steelers spread -6.5" = Some Spread /\
  extract_market_type "Over/Under 45.5" = Some Total /\
  extract_market_type "Buffalo Bills Winner?" = Some Winner /\
  extract_market_type "Bills vs. Broncos" = Some Winner /\
  extract_market_type "Bills over 45.5" = None.
Proof.
  pose proof (extract_market_type_rules "Steelers spread -6.5") as (H1 & _).
  pose proof (extract_market_type_rules "Over/Under 45.5") as (_ & H2 & _).
  pose proof (extract_market_type_rules "Buffalo Bills Winner?") as (_ & _ & H3 & _).
  pose proof (extract_market_type_rules "Bills vs. Broncos") as (_ & _ & _ & H4 & _).
  pose proof (extract_market_type_rules "Bills over 45.5") as (_ & _ & _ & _ & H5).
  split; [apply H1; reflexivity|].
  split; [apply H2; reflexivity|].
  split; [apply H3; reflexivity|].
  split; [apply H4; reflexivity|].
  apply H5; reflexivity.
Defined.

(** ** Comparisons on [Q] *)

Lemma Qltb_true (x y : Q) : Qltb x y = true <-> (x < y)%Q.
Proof.
  unfold Qltb. rewrite negb_true_iff, <- not_true_iff_false, Qle_bool_iff.
  split; [apply Qnot_le_lt | apply Qlt_not_le].
Qed.

Lemma Qltb_false (x y : Q) : Qltb x y = false <-> (y <= x)%Q.
Proof. unfold Qltb. rewrite negb_false_iff. apply Qle_bool_iff. Qed.

Lemma Qle_bool_false (x y : Q) : Qle_bool x y = false <-> (y < x)%Q.
Proof.
  rewrite <- not_true_iff_false, Qle_bool_iff.
  split; [apply Qnot_le_lt | apply Qlt_not_le].
Qed.

(** turn every boolean comparison in sight into its order fact *)
Ltac q_cases :=
  repeat match goal with
         | |- context [Qltb ?x ?y] =>
             let E := fresh "E" in
             destruct (Qltb x y) eqn:E;
             [apply Qltb_true in E | apply Qltb_false in E]
         | _ : context [Qltb ?x ?y] |- _ =>
             let E := fresh "E" in
             destruct (Qltb x y) eqn:E;
             [apply Qltb_true in E | apply Qltb_false in E]
         | |- context [Qle_bool ?x ?y] =>
             let E := fresh "E" in
             destruct (Qle_bool x y) eqn:E;
             [apply Qle_bool_iff in E | apply Qle_bool_false in E]
         | _ : context [Qle_bool ?x ?y] |- _ =>
             let E := fresh "E" in
             destruct (Qle_bool x y) eqn:E;
             [apply Qle_bool_iff in E | apply Qle_bool_false in E]
         end.

Lemma min2_spec (a b : Q) :
  (min2 a b <= a /\ min2 a b <= b /\ (min2 a b = a \/ min2 a b = b))%Q.
Proof. unfold min2. q_cases; repeat split; auto; lra. Qed.

Lemma max2_spec (a b : Q) :
  (a <= max2 a b /\ b <= max2 a b /\ (max2 a b = a \/ max2 a b = b))%Q.
Proof. unfold max2. q_cases; repeat split; auto; lra. Qed.

Lemma clamp_range (lo hi x : Q) :
  (lo <= hi -> lo <= clamp lo hi x /\ clamp lo hi x <= hi)%Q.
Proof. unfold clamp, max2, min2. intros. q_cases; split; lra. Qed.

Lemma clamp_inside (lo hi x : Q) :
  (lo <= x -> x <= hi -> clamp lo hi x == x)%Q.
Proof. unfold clamp, max2, min2. intros. q_cases; lra. Qed.

(** ** The journal *)

(** C10: when the journal file is missing, holds an empty list, or cannot be
    read or parsed, both [check_loss_threshold] and [check_naked_positions]
    answer [True]. *)
Theorem checks_fail_open (j : journal_file) :
  j = Absent \/ j = Stored [] \/ (exists held, j = Damaged held) ->
  check_loss_threshold j = true /\ check_naked_positions j = true.
Proof.
  intros [-> | [-> | [held ->]]]; split; reflexivity.
Qed.

Lemma checks_fail_open_witness :
  (check_loss_threshold Absent = true /\ check_naked_positions Absent = true) /\
  (check_loss_threshold (Stored []) = true /\ check_naked_positions (Stored []) = true) /\
  (check_loss_threshold (Damaged [Sample.old_trade]) = true /\
   check_naked_positions (Damaged [Sample.old_trade]) = true).
Proof.
  split; [apply (checks_fail_open Absent); left; reflexivity|].
  split; [apply (checks_fail_open (Stored [])); right; left; reflexivity|].
  apply (checks_fail_open (Damaged [Sample.old_trade])).
  right; right; exists [Sample.old_trade]; reflexivity.
Defined.

(** C9, as stated, fails: from a journal file that exists but cannot be
    loaded (say, its text is the list of records followed by stray bytes, or
    the process may write the file but not read it), [log_trade] writes a
    list holding the new record only; the record the file carried is gone. *)
Lemma log_trade_resets_unreadable_journal :
  let before := Damaged [Sample.old_trade] in
  let after := log_trade 2000 Sample.total_arb 2 true true before in
  records before = [Sample.old_trade] /\
  records after = [new_trade 2000 Sample.total_arb 2 true true] /\
  ~ In Sample.old_trade (records after).
Proof.
  cbn. repeat split. intros [H | []]. discriminate H.
Qed.

(** C9, amended: when the journal file is absent or loads as a list, the
    journal after [log_trade] is the previous records, unchanged and in
    order, followed by exactly one new record carrying the arguments of the
    call.  (From a file that cannot be loaded the journal restarts with the
    new record alone.) *)
Theorem log_trade_appends (now : Q) (a : arb) (position_size : Q)
    (ok both : bool) (j : journal_file) :
  j = Absent \/ (exists trades, j = Stored trades) ->
  log_trade now a position_size ok both j
  = Stored (records j ++ [new_trade now a position_size ok both]).
Proof.
  intros [-> | [trades ->]]; reflexivity.
Qed.

Lemma log_trade_appends_witness :
  log_trade 2000 Sample.total_arb 2 true true (Stored [Sample.old_trade])
  = Stored [Sample.old_trade; new_trade 2000 Sample.total_arb 2 true true].
Proof.
  apply (log_trade_appends 2000 Sample.total_arb 2 true true (Stored [Sample.old_trade])).
  right. exists [Sample.old_trade]. reflexivity.
Defined.

(** ** Position sizing *)

Example sample_total_arb_emitted :
  find_arbs Sample.ks_games Sample.pm_games = Ok [Sample.total_arb].
Proof. reflexivity. Qed.




(** ** Candidate detection *)

Lemma collect_In {A B} (body : A -> result (list B)) (l : list A) (r : list B) (y : B) :
  collect body l = Ok r -> In y r ->
  exists x ys, In x l /\ body x = Ok ys /\ In y ys.
Proof.
  revert r. induction l as [|x l IH]; intros r; cbn.
  - intros [= <-] [].
  - destruct (body x) as [ys|e] eqn:Ex; cbn; [|discriminate].
    destruct (collect body l) as [zs|e] eqn:El; cbn; [|discriminate].
    intros [= <-] Hin. apply in_app_or in Hin as [Hin | Hin].
    + exists x, ys. auto.
    + destruct (IH zs eq_refl Hin) as (x' & ys' & ? & ? & ?).
      exists x', ys'. auto.
Qed.

Lemma dict_get_In {K V} `{EqDecision K} (d : list (K * V)) (k : K) (v : V) :
  dict_get d k = Some v -> In (k, v) d.
Proof.
  induction d as [|[k' v'] d IH]; cbn; [discriminate|].
  destruct (decide (k' = k)) as [-> | _].
  - intros [= ->]. now left.
  - intros H1. right. auto.
Qed.

Lemma group_add_In {M} (P : market_type -> M -> Prop) (mtype : market_type) (m : M)
    (d : list (market_type * list M)) :
  P mtype m ->
  (forall k ms x, In (k, ms) d -> In x ms -> P k x) ->
  forall k ms x, In (k, ms) (group_add mtype m d) -> In x ms -> P k x.
Proof.
  intros Hm. induction d as [|[k0 ms0] d IH]; cbn; intros Hd k ms x.
  - intros [[= <- <-] | []] [<- | []]. exact Hm.
  - destruct (decide (k0 = mtype)) as [-> | _].
    + intros [[= <- <-] | Hin] Hx.
      * apply in_app_or in Hx as [Hx | [<- | []]]; [|exact Hm].
        apply (Hd mtype ms0); [now left | exact Hx].
      * apply (Hd k ms); [now right | exact Hx].
    + intros [[= <- <-] | Hin] Hx.
      * apply (Hd k0 ms0); [now left | exact Hx].
      * apply (IH (fun k' ms' x' H1 => Hd k' ms' x' (or_intror H1)) k ms x Hin Hx).
Qed.

Lemma by_type_In {M} (title : M -> string) (markets : list M) k ms x :
  In (k, ms) (by_type title markets) -> In x ms ->
  In x markets /\ extract_market_type (title x) = Some k.
Proof.
  unfold by_type.
  set (P := fun (k : market_type) (x : M) =>
              In x markets /\ extract_market_type (title x) = Some k).
  assert (G : forall l d,
             (forall y, In y l -> In y markets) ->
             (forall k ms x, In (k, ms) d -> In x ms -> P k x) ->
             forall k ms x,
               In (k, ms)
                  (fold_left
                     (fun d m => match extract_market_type (title m) with
                                 | Some mtype => group_add mtype m d
                                 | None => d
                                 end) l d) ->
               In x ms -> P k x).
  { induction l as [|m l IH]; cbn; intros d Hl Hd; [exact Hd|].
    apply IH; [intros y Hy; apply Hl; now right|].
    destruct (extract_market_type (title m)) as [mtype|] eqn:E; [|exact Hd].
    apply group_add_In; [|exact Hd].
    split; [apply Hl; now left | exact E]. }
  apply (G markets []); [auto | intros ? ? ? []].
Qed.

Lemma price_block_In game_key type_label market_type ks_market pm_market pm_id
    ks_side pm_side pm_team ks_team ks_cost pm_cost hedge c :
  In c (price_block game_key type_label market_type ks_market pm_market pm_id
          ks_side pm_side pm_team ks_team ks_cost pm_cost hedge) ->
  a_game c = game_key /\ a_market_type c = market_type /\
  a_ks_id c = k_id ks_market /\ a_pm_id c = pm_id /\
  a_ks_side c = ks_side /\ a_ks_ask c = ks_cost /\ a_pm_best_ask c = pm_cost /\
  a_fee c = (a_ks_ask c * KALSHI_TAKER_FEE)%Q /\
  a_cost c = (a_ks_ask c + a_fee c + a_pm_best_ask c)%Q /\
  a_profit c = (1 - a_cost c)%Q /\
  (MIN_PROFIT * a_cost c <= a_profit c)%Q /\ (0 < a_cost c)%Q.
Proof.
  unfold price_block.
  destruct (Qle_bool _ _ && Qltb 0 _) eqn:E; [|intros []].
  apply andb_true_iff in E as [E1 E2].
  apply Qle_bool_iff in E1. apply Qltb_true in E2.
  intros [<- | []]. cbn. repeat split; assumption.
Qed.

(** from the facts about one pricing block to [priced_from] *)
Ltac block_facts H :=
  apply price_block_In in H
    as (Hgame & Htype & Hksid & Hpmid & Hside & Hks & Hpm & Hfee & Hcost & Hprofit & Hmin & Hpos).

Lemma spread_pair_priced game_key ks_market pm_market r c :
  spread_pair game_key ks_market pm_market = Ok r -> In c r ->
  priced_from game_key ks_market pm_market c /\ a_market_type c = Spread.
Proof.
  unfold spread_pair.
  destruct (extract_spread_info (k_title ks_market) game_key) as [[kt kl]|] eqn:Ek;
    [|intros [= <-] []].
  destruct (extract_spread_info (p_title pm_market) game_key) as [[pt pl]|] eqn:Ep;
    [|intros [= <-] []].
  destruct (spread_eqb (kt, kl) (pt, pl)) eqn:Eq; cbn [negb]; [|intros [= <-] []].
  apply andb_true_iff in Eq as [Et El]. cbn in Et, El.
  apply String.eqb_eq in Et as <-. apply Qeq_bool_iff in El.
  destruct (game_teams game_key) as [teams|]; cbn [bind]; [|discriminate].
  destruct (opponent_of teams kt) as [opponent|]; cbn [bind]; [|discriminate].
  rewrite String.eqb_refl.
  intros [= <-] Hin.
  apply in_app_or in Hin as [Hin | Hin]; block_facts Hin;
    (split; [|assumption]);
    (constructor; try assumption; auto;
     [rewrite Hside; assumption | intros _; exists kt, kl, pl; auto]).
Qed.

Lemma total_pair_priced game_key ks_market pm_market r c :
  total_pair game_key Total ks_market pm_market = Ok r -> In c r ->
  priced_from game_key ks_market pm_market c /\ a_market_type c = Total.
Proof.
  unfold total_pair.
  destruct (line_eqb _ _); cbn [negb]; [|intros [= <-] []].
  intros [= <-] Hin.
  apply in_app_or in Hin as [Hin | Hin]; block_facts Hin;
    (split; [|assumption]);
    (constructor; try assumption; auto;
     rewrite ?Hside, ?Hpmid, ?Htype; auto; discriminate).
Qed.

Lemma token_cases (ids : string * string) (i : nat) :
  token ids i = fst ids \/ token ids i = snd ids.
Proof. destruct i; cbn; auto. Qed.

Lemma winner_pair_priced game_key ks_market pm_market r c :
  winner_pair game_key ks_market pm_market = Ok r -> In c r ->
  priced_from game_key ks_market pm_market c /\ a_market_type c = Winner.
Proof.
  unfold winner_pair.
  destruct (line_eqb _ _); cbn [negb]; [|intros [= <-] []].
  destruct (game_teams game_key) as [teams|]; cbn [bind]; [|discriminate].
  destruct (Nat.eqb (length teams) 2); cbn [negb]; [|intros [= <-] []].
  destruct (List.find _ teams) as [ks_team|]; [|intros [= <-] []].
  destruct (opponent_of teams ks_team) as [opponent|]; cbn [bind]; [|discriminate].
  destruct (Nat.ltb _ 2); [intros [= <-] []|].
  destruct (outcome_idx ks_team _) as [ki|]; [|intros [= <-] []].
  destruct (outcome_idx opponent _) as [oi|]; [|intros [= <-] []].
  destruct (Nat.eqb oi 0), (Nat.eqb ki 0); intros [= <-] Hin;
    apply in_app_or in Hin as [Hin | Hin]; block_facts Hin;
    (split; [|assumption]);
    (constructor; try assumption; auto;
     rewrite ?Hside, ?Hpmid, ?Htype; cbn; auto; discriminate).
Qed.

Lemma pair_arbs_priced game_key market_type ks_market pm_market r c :
  pair_arbs game_key market_type ks_market pm_market = Ok r -> In c r ->
  priced_from game_key ks_market pm_market c /\ a_market_type c = market_type.
Proof.
  destruct market_type; cbn.
  - apply spread_pair_priced.
  - apply total_pair_priced.
  - apply winner_pair_priced.
Qed.

(** Every candidate of [find_arbs] is priced from one Kalshi market and one
    Polymarket market filed under the same game key. *)
Lemma find_arbs_provenance ks_games pm_games arbs c :
  find_arbs ks_games pm_games = Ok arbs -> In c arbs ->
  exists game_key ks_market pm_market,
    emitted_from ks_games pm_games game_key ks_market pm_market c.
Proof.
  unfold find_arbs. intros Hrun Hin.
  destruct (collect_In _ _ _ _ Hrun Hin) as ([game_key ks_markets] & r1 & Hg & Hbody & Hin1).
  destruct (dict_get pm_games game_key) as [pm_markets|] eqn:Epm;
    [|injection Hbody as <-; destruct Hin1].
  unfold game_arbs in Hbody.
  destruct (collect_In _ _ _ _ Hbody Hin1) as ([mt kms] & r2 & Hk & Hbody2 & Hin2).
  destruct (dict_get (by_type p_title pm_markets) mt) as [pms|] eqn:Ept;
    [|injection Hbody2 as <-; destruct Hin2].
  destruct (collect_In _ _ _ _ Hbody2 Hin2) as (km & r3 & Hkm & Hbody3 & Hin3).
  destruct (collect_In _ _ _ _ Hbody3 Hin3) as (pmk & r4 & Hpmk & Hbody4 & Hin4).
  destruct (pair_arbs_priced _ _ _ _ _ _ Hbody4 Hin4) as [Hpriced Hmt].
  destruct (by_type_In _ _ _ _ _ Hk Hkm) as [Hkin Hktype].
  apply dict_get_In in Ept.
  destruct (by_type_In _ _ _ _ _ Ept Hpmk) as [Hpin Hptype].
  exists game_key, km, pmk. constructor.
  - exists ks_markets. auto.
  - exists pm_markets. auto.
  - now rewrite Hmt.
  - now rewrite Hmt.
  - exact Hpriced.
Qed.

(** [find_arbs] raises only on a game key without a colon. *)
Lemma collect_total {A B} (body : A -> result (list B)) (l : list A) :
  (forall x, In x l -> exists r, body x = Ok r) -> exists r, collect body l = Ok r.
Proof.
  induction l as [|x l IH]; intros H; cbn; [eauto|].
  destruct (H x (or_introl eq_refl)) as [ys ->].
  destruct IH as [zs ->]; [intros; apply H; now right|].
  cbn. eauto.
Qed.

Lemma opponent_of_total (teams : list string) (ks_team : string) :
  length teams = 2%nat -> exists o, opponent_of teams ks_team = Ok o.
Proof.
  destruct teams as [|t0 [|t1 [|]]]; try discriminate. intros _.
  unfold opponent_of, index; cbn. destruct (String.eqb t0 ks_team); eauto.
Qed.

Lemma pair_arbs_total game_key market_type ks_market pm_market teams :
  game_teams game_key = Ok teams ->
  exists r, pair_arbs game_key market_type ks_market pm_market = Ok r.
Proof.
  intros Hgt. destruct market_type; cbn.
  - unfold spread_pair.
    destruct (extract_spread_info (k_title ks_market) game_key) as [[kt kl]|] eqn:Ek;
      [|eauto].
    destruct (extract_spread_info (p_title pm_market) game_key) as [[pt pl]|]; [|eauto].
    destruct (spread_eqb _ _); cbn [negb]; [|eauto].
    rewrite Hgt; cbn [bind].
    unfold extract_spread_info in Ek. rewrite Hgt in Ek.
    destruct (Str.contains ":" game_key); [|discriminate].
    destruct (Nat.eqb (length teams) 2) eqn:El; [|discriminate].
    apply Nat.eqb_eq in El.
    destruct (opponent_of_total teams kt El) as [o ->]; cbn [bind].
    destruct (String.eqb pt kt); eauto.
  - unfold total_pair. destruct (line_eqb _ _); cbn [negb]; eauto.
  - unfold winner_pair. destruct (line_eqb _ _); cbn [negb]; [|eauto].
    rewrite Hgt; cbn [bind].
    destruct (Nat.eqb (length teams) 2) eqn:El; cbn [negb]; [|eauto].
    apply Nat.eqb_eq in El.
    destruct (List.find _ teams) as [ks_team|]; [|eauto].
    destruct (opponent_of_total teams ks_team El) as [o ->]; cbn [bind].
    destruct (Nat.ltb _ 2); [eauto|].
    destruct (outcome_idx ks_team _) as [ki|]; [|eauto].
    destruct (outcome_idx o _) as [oi|]; [|eauto].
    destruct (Nat.eqb oi 0), (Nat.eqb ki 0); eauto.
Qed.

Lemma find_arbs_total ks_games pm_games :
  (forall game_key ks_markets, In (game_key, ks_markets) ks_games ->
     exists teams, game_teams game_key = Ok teams) ->
  exists arbs, find_arbs ks_games pm_games = Ok arbs.
Proof.
  intros Hkeys. unfold find_arbs. apply collect_total.
  intros [game_key ks_markets] Hin.
  destruct (Hkeys _ _ Hin) as [teams Hgt].
  destruct (dict_get pm_games game_key) as [pm_markets|]; [|eauto].
  unfold game_arbs. apply collect_total. intros [mt kms] _.
  destruct (dict_get _ mt) as [pms|]; [|eauto].
  apply collect_total. intros km _. apply collect_total. intros pmk _.
  eapply pair_arbs_total, Hgt.
Qed.

(** C3: every candidate of [find_arbs] records as cost the Kalshi leg cost
    (the paired Kalshi market's ask on the side bought) times one plus the 2%
    taker fee, plus the Polymarket leg cost (an ask of the paired Polymarket
    market); its profit is 1.0 minus that cost, so cost + profit is 1.0;
    profit is at least [MIN_PROFIT] times cost, profit is positive, and the
    cost lies in (0, 1]. *)
Theorem candidate_pricing ks_games pm_games arbs c :
  find_arbs ks_games pm_games = Ok arbs -> In c arbs ->
  (exists game_key ks_market pm_market,
     emitted_from ks_games pm_games game_key ks_market pm_market c /\
     a_ks_ask c = (match a_ks_side c with
                   | Yes => k_yes ks_market
                   | No => k_no ks_market
                   end) /\
     (a_pm_best_ask c = p_yes pm_market \/ a_pm_best_ask c = p_no pm_market)) /\
  KALSHI_TAKER_FEE = 0.02%Q /\
  (a_cost c == a_ks_ask c * (1 + KALSHI_TAKER_FEE) + a_pm_best_ask c)%Q /\
  (a_profit c == 1 - a_cost c)%Q /\
  (a_cost c + a_profit c == 1)%Q /\
  (MIN_PROFIT * a_cost c <= a_profit c)%Q /\
  (0 < a_profit c)%Q /\
  (0 < a_cost c)%Q /\ (a_cost c <= 1)%Q.
Proof.
  intros Hrun Hin.
  destruct (find_arbs_provenance _ _ _ _ Hrun Hin) as (gk & km & pmk & Hfrom).
  pose proof (ef_priced _ _ _ _ _ _ Hfrom) as P.
  split; [exists gk, km, pmk; split; [exact Hfrom | split; apply P]|].
  split; [reflexivity|].
  destruct P as [_ _ _ _ _ Hfee Hcost Hprofit [Hmin Hpos] _].
  rewrite Hprofit in *. rewrite Hcost in *. rewrite Hfee in *.
  unfold MIN_PROFIT, KALSHI_TAKER_FEE in *.
  repeat split; lra.
Qed.

Lemma candidate_pricing_witness :
  (a_cost Sample.total_arb == 0.5 * (1 + KALSHI_TAKER_FEE) + 0.4775)%Q /\
  (a_cost Sample.total_arb + a_profit Sample.total_arb == 1)%Q /\
  (0 < a_profit Sample.total_arb)%Q.
Proof.
  assert (Hrun : find_arbs Sample.ks_games Sample.pm_games = Ok [Sample.total_arb])
    by reflexivity.
  assert (Hin : In Sample.total_arb [Sample.total_arb]) by (left; reflexivity).
  destruct (candidate_pricing _ _ _ _ Hrun Hin)
    as (_ & _ & Hcost & _ & Hsum & _ & Hprofit & _).
  split; [exact Hcost|]. split; [exact Hsum | exact Hprofit].
Defined.

(** C5: every candidate of [find_arbs] pairs one Kalshi market and one
    Polymarket market stored under the same sport-tagged game key, which is
    the candidate's game; when the two venues share no game key, nothing is
    emitted. *)
Theorem candidates_pair_same_game ks_games pm_games :
  (forall arbs c,
     find_arbs ks_games pm_games = Ok arbs -> In c arbs ->
     exists game_key ks_markets pm_markets ks_market pm_market,
       In (game_key, ks_markets) ks_games /\
       dict_get pm_games game_key = Some pm_markets /\
       In ks_market ks_markets /\ In pm_market pm_markets /\
       a_game c = game_key /\
       a_ks_id c = k_id ks_market /\
       (a_pm_id c = IdPair (p_id pm_market)
        \/ a_pm_id c = IdToken (fst (p_id pm_market))
        \/ a_pm_id c = IdToken (snd (p_id pm_market)))) /\
  ((forall game_key ks_markets,
      In (game_key, ks_markets) ks_games -> dict_get pm_games game_key = None) ->
   find_arbs ks_games pm_games = Ok []).
Proof.
  split.
  - intros arbs c Hrun Hin.
    destruct (find_arbs_provenance _ _ _ _ Hrun Hin) as (gk & km & pmk & Hfrom).
    destruct Hfrom as [(kms & Hk1 & Hk2) (pms & Hp1 & Hp2) _ _ P].
    exists gk, kms, pms, km, pmk.
    repeat split; try assumption; apply P.
  - unfold find_arbs. induction ks_games as [|[gk kms] rest IH]; intros Hno; [reflexivity|].
    cbn. rewrite (Hno gk kms (or_introl eq_refl)). cbn.
    rewrite IH; [reflexivity|]. intros gk' kms' Hin. apply (Hno gk' kms'). now right.
Qed.

Lemma candidates_pair_same_game_witness :
  (exists game_key ks_markets pm_markets ks_market pm_market,
     In (game_key, ks_markets) Sample.ks_games /\
     dict_get Sample.pm_games game_key = Some pm_markets /\
     In ks_market ks_markets /\ In pm_market pm_markets /\
     a_game Sample.total_arb = game_key /\
     a_ks_id Sample.total_arb = k_id ks_market /\
     (a_pm_id Sample.total_arb = IdPair (p_id pm_market)
      \/ a_pm_id Sample.total_arb = IdToken (fst (p_id pm_market))
      \/ a_pm_id Sample.total_arb = IdToken (snd (p_id pm_market)))) /\
  find_arbs Sample.ks_games [("nfl:hou-pit", [Sample.pm_total])] = Ok [].
Proof.
  split.
  - apply (proj1 (candidates_pair_same_game Sample.ks_games Sample.pm_games)
             [Sample.total_arb] Sample.total_arb); [reflexivity | left; reflexivity].
  - apply (proj2 (candidates_pair_same_game Sample.ks_games
                    [("nfl:hou-pit", [Sample.pm_total])])).
    intros gk kms [[= <- <-] | []]. reflexivity.
Defined.

(** ** Spreads *)

Example spread_info_steelers :
  extract_spread_info "Steelers (-6.5)" "nfl:hou-pit" = Some ("pit", 6.5%Q).
Proof. reflexivity. Qed.

Example spread_info_bills :
  extract_spread_info "Bills win by over 3.5" "nfl:buf-den" = Some ("buf", 3.5%Q).
Proof. reflexivity. Qed.

(** "hou" appears twice in the search-term table; the later entry (Rockets)
    replaces the earlier one (Texans), so "texans" resolves to no team. *)
Example spread_info_texans :
  extract_spread_info "Texans -6.5" "nfl:hou-pit" = None.
Proof. reflexivity. Qed.

Example same_team_spreads_pair :
  exists c1, find_arbs [("nfl:hou-pit", [Sample.ks_spread_pit])]
                       [("nfl:hou-pit", [Sample.pm_spread_pit])] = Ok [c1]
             /\ a_market_type c1 = Spread.
Proof. eexists. split; reflexivity. Qed.

(** one game with one market on each venue *)
Ltac decide_keys :=
  repeat match goal with
         | |- context [decide (?a = ?b)] => destruct (decide (a = b)); try congruence
         end.

Ltac single_game :=
  unfold find_arbs, game_arbs, by_type; cbn [collect fold_left dict_get bind];
  decide_keys.

Ltac run_groups := cbn -[spread_pair]; decide_keys; cbn -[spread_pair].

(** C4: a spread candidate comes from two markets whose titles resolve, by
    [extract_spread_info], to the same team and the same absolute line; two
    spread markets of one game on the same line but for different teams give
    no candidate; and a spread market whose title resolves to no team gives
    no candidate. *)
Theorem spread_candidates_same_team_and_line :
  (forall ks_games pm_games arbs c,
     find_arbs ks_games pm_games = Ok arbs -> In c arbs -> a_market_type c = Spread ->
     exists game_key ks_market pm_market team ks_line pm_line,
       emitted_from ks_games pm_games game_key ks_market pm_market c /\
       extract_spread_info (k_title ks_market) game_key = Some (team, ks_line) /\
       extract_spread_info (p_title pm_market) game_key = Some (team, pm_line) /\
       (ks_line == pm_line)%Q) /\
  (forall game_key ks_market pm_market ks_team pm_team ks_line pm_line,
     extract_market_type (k_title ks_market) = Some Spread ->
     extract_market_type (p_title pm_market) = Some Spread ->
     extract_spread_info (k_title ks_market) game_key = Some (ks_team, ks_line) ->
     extract_spread_info (p_title pm_market) game_key = Some (pm_team, pm_line) ->
     (ks_line == pm_line)%Q -> ks_team <> pm_team ->
     find_arbs [(game_key, [ks_market])] [(game_key, [pm_market])] = Ok []) /\
  (forall game_key ks_market pm_market,
     (extract_market_type (k_title ks_market) = Some Spread /\
      extract_spread_info (k_title ks_market) game_key = None)
     \/ (extract_market_type (p_title pm_market) = Some Spread /\
         extract_spread_info (p_title pm_market) game_key = None) ->
     find_arbs [(game_key, [ks_market])] [(game_key, [pm_market])] = Ok []).
Proof.
  split; [|split].
  - intros ks_games pm_games arbs c Hrun Hin Hspread.
    destruct (find_arbs_provenance _ _ _ _ Hrun Hin) as (gk & km & pmk & Hfrom).
    destruct (pf_spread _ _ _ _ (ef_priced _ _ _ _ _ _ Hfrom) Hspread)
      as (team & kl & pl & Hk & Hp & Hl).
    exists gk, km, pmk, team, kl, pl. auto.
  - intros gk km pmk kt pt kl pl Hkt Hpt Hk Hp _ Hne.
    single_game. rewrite Hkt. run_groups. rewrite Hpt. run_groups.
    unfold spread_pair. rewrite Hk, Hp.
    unfold spread_eqb; cbn [fst snd].
    destruct (String.eqb_spec kt pt) as [|_]; [contradiction|]. reflexivity.
  - intros gk km pmk [[Ht He] | [Ht He]]; single_game.
    + rewrite Ht. run_groups.
      destruct (extract_market_type (p_title pmk)) as [[]|]; run_groups;
        try reflexivity.
      unfold spread_pair. rewrite He. reflexivity.
    + destruct (extract_market_type (k_title km)) as [[]|]; run_groups;
        rewrite ?Ht; run_groups; try reflexivity.
      unfold spread_pair. rewrite He.
      destruct (extract_spread_info (k_title km) gk) as [[? ?]|]; reflexivity.
Qed.

Lemma spread_candidates_same_team_and_line_witness :
  find_arbs [("nfl:hou-pit", [Sample.ks_spread_pit])]
            [("nfl:hou-pit", [Sample.pm_spread_hou])] = Ok [] /\
  find_arbs [("nfl:hou-pit", [Sample.ks_spread_pit])]
            [("nfl:hou-pit", [Sample.pm_spread_texans])] = Ok [].
Proof.
  destruct spread_candidates_same_team_and_line as (_ & Hteams & Hnone).
  split.
  - apply (Hteams "nfl:hou-pit" Sample.ks_spread_pit Sample.pm_spread_hou
             "pit" "hou" 6.5%Q 6.5%Q); try reflexivity. discriminate.
  - apply (Hnone "nfl:hou-pit" Sample.ks_spread_pit Sample.pm_spread_texans).
    right. split; reflexivity.
Defined.

(** ** Execution *)

Example scenario_d_close_succeeds :
  execute_arb (Sample.kalshi_rejects (Filled "pm-2")) 50 Sample.total_arb
    Sample.ks_games Sample.pm_games Absent
  = (false,
     [ PmOrder (IdPair ("tok-over", "tok-under")) 1 2 0.4775 false (Filled "pm-1");
       KsOrder "KXNFLTOTAL-26JAN17BUFDEN-45" Yes 2 50 (Rejected "insufficient balance");
       PmOrder (IdPair ("tok-over", "tok-under")) 1 2 0 true (Filled "pm-2");
       LogTrade Sample.total_arb 2 false true ],
     Stored [new_trade 50 Sample.total_arb 2 false true]).
Proof. reflexivity. Qed.

(** case analysis along the branches of [execute_arb] *)
Ltac exec_cases H :=
  unfold execute_arb in H; cbv zeta in H;
  repeat match type of H with
         | (if ?b then _ else _) = _ => destruct b eqn:?
         | match ?x with _ => _ end = _ => destruct x eqn:?
         end;
  injection H as <- <- <-.

(** no event of the given shape in a short trace *)
Ltac no_such_event H :=
  cbn in H;
  repeat match type of H with
         | _ \/ _ => destruct H as [H | H]
         | False => destruct H
         | _ = _ => try discriminate H
         end.



(** C2: a Kalshi order is only ever placed directly after a Polymarket buy
    that filled, which is the first call of the execution; and when the
    Polymarket order fails, [execute_arb] returns [False] having placed no
    Kalshi order, no closing order and written no trade record: the journal
    is untouched. *)
Theorem polymarket_leg_first (v : venue) (now : Q) (a : arb)
    (ks_games : games ks_market) (pm_games : games pm_market) (j : journal_file)
    (ok : bool) (trace : list event) (j' : journal_file) :
  execute_arb v now a ks_games pm_games j = (ok, trace, j') ->
  (forall e, In e trace -> is_ks_order e = true ->
     exists side_index size price order_id rest,
       v_pm_buy v = Filled order_id /\
       trace = PmOrder (a_pm_id a) side_index size price false (Filled order_id)
                 :: e :: rest /\
       forall e', In e' rest -> is_ks_order e' = false) /\
  (success (v_pm_buy v) = false ->
     ok = false /\ j' = j /\
     (forall e, In e trace -> is_ks_order e = false /\ is_close e = false /\ is_log e = false) /\
     (trace = [] \/
      exists side_index size price,
        trace = [PmOrder (a_pm_id a) side_index size price false (v_pm_buy v)])).
Proof.
  intros H. exec_cases H.
  all: try (unfold DRY_RUN in *; discriminate).
  all: split;
    [ intros e He Hk; no_such_event He; subst e; try discriminate Hk
    | intros Hfail; try (rewrite Hfail in *; discriminate) ].
  all: try (split; [reflexivity|]; split; [reflexivity|]; split;
            [ intros e He; no_such_event He; subst e; repeat split
            | first [ left; reflexivity | right; do 3 eexists; reflexivity ] ]).
  all: destruct (v_pm_buy v) as [oid|] eqn:Ebuy; [|discriminate];
    do 5 eexists; split; [reflexivity|]; split; [reflexivity|];
    intros e' He'; no_such_event He'; subst e'; reflexivity.
Qed.

Lemma polymarket_leg_first_witness :
  let r := execute_arb Sample.polymarket_rejects 50 Sample.total_arb
             Sample.ks_games Sample.pm_games (Stored [Sample.old_trade]) in
  let r' := execute_arb Sample.all_fill 50 Sample.total_arb
              Sample.ks_games Sample.pm_games (Stored [Sample.old_trade]) in
  (r.1.1 = false /\ r.2 = Stored [Sample.old_trade] /\
   forall e, In e r.1.2 -> is_ks_order e = false /\ is_close e = false /\ is_log e = false) /\
  (exists side_index size price order_id rest,
     v_pm_buy Sample.all_fill = Filled order_id /\
     r'.1.2 = PmOrder (a_pm_id Sample.total_arb) side_index size price false (Filled order_id)
                :: KsOrder "KXNFLTOTAL-26JAN17BUFDEN-45" Yes 2 50 (Filled "ks-1") :: rest /\
     forall e', In e' rest -> is_ks_order e' = false).
Proof.
  intros r r'. split.
  - destruct (proj2 (polymarket_leg_first Sample.polymarket_rejects 50 Sample.total_arb
                       Sample.ks_games Sample.pm_games (Stored [Sample.old_trade])
                       r.1.1 r.1.2 r.2 eq_refl) eq_refl) as (Hok & Hj & Hnone & _).
    split; [exact Hok|]. split; [exact Hj | exact Hnone].
  - apply (proj1 (polymarket_leg_first Sample.all_fill 50 Sample.total_arb
                    Sample.ks_games Sample.pm_games (Stored [Sample.old_trade])
                    r'.1.1 r'.1.2 r'.2 eq_refl)
             (KsOrder "KXNFLTOTAL-26JAN17BUFDEN-45" Yes 2 50 (Filled "ks-1"))).
    + right. left. reflexivity.
    + reflexivity.
Defined.

(** ** Duplicate suppression *)

Example arb_key_total :
  get_arb_key Sample.total_arb = "nfl:buf-den:total:yes:1".
Proof. reflexivity. Qed.

(** C6, as stated, fails: the entry never expires.  The process polls 300
    times, 15 seconds apart, and both venues offer the same markets at every
    poll: the candidate is executed at the first poll and at no later one,
    although the clock has passed [ARB_COOLDOWN_SECONDS]; a further scan at
    that time skips it again. *)
Lemma dedup_entry_outlives_cooldown :
  exists st w st' w',
    main_loop (fun _ => Sample.all_fill) (fun _ => (Sample.ks_games, Sample.pm_games))
      300 0 (Running initial_risk_state Sample.start [])
      = Running st w [Sample.total_arb] /\
    (ARB_COOLDOWN_SECONDS < w_now w - w_now Sample.start)%Q /\
    scan Sample.exec Sample.ks_games Sample.pm_games st w = Ok (st', w', []).
Proof.
  do 4 eexists. split; [|split].
  - vm_compute. reflexivity.
  - vm_compute. reflexivity.
  - vm_compute. reflexivity.
Qed.

Lemma scan_step_grows {W} (execute : arb -> W -> bool * W) acc a :
  EXECUTED_ARBS (scan_step execute acc a).1.1 ⊆ {[ get_arb_key a ]} ∪ EXECUTED_ARBS acc.1.1
  /\ EXECUTED_ARBS acc.1.1 ⊆ EXECUTED_ARBS (scan_step execute acc a).1.1.
Proof.
  destruct acc as [[st w] att]. unfold scan_step.
  destruct (Qle_bool _ _); [|cbn; set_solver].
  destruct (is_duplicate_arb st a); [cbn; set_solver|].
  destruct (_ <=? _)%nat; [cbn; set_solver|].
  destruct (execute a w) as [[] w']; cbn; set_solver.
Qed.

Lemma scan_loop_grows {W} (execute : arb -> W -> bool * W) (l : list arb) acc :
  EXECUTED_ARBS acc.1.1 ⊆ EXECUTED_ARBS (fold_left (scan_step execute) l acc).1.1.
Proof.
  revert acc. induction l as [|a l IH]; intros acc; cbn; [set_solver|].
  etransitivity; [apply (scan_step_grows execute acc a)|apply IH].
Qed.

(** C6, amended: a candidate whose identity key (game, market type, Kalshi
    side, Polymarket side) is in [EXECUTED_ARBS] is skipped: no execution
    attempt is made and nothing changes; a successful execution puts the key
    in the set, so the same identity offered twice in a scan is attempted
    once (an attempt that fails leaves the set as it was); and no scan ever
    removes a key: the entry lasts for the life of the process, whatever the
    clock shows. *)
Theorem duplicate_suppression {W} (execute : arb -> W -> bool * W) :
  (forall st w attempts a,
     get_arb_key a ∈ EXECUTED_ARBS st ->
     scan_step execute (st, w, attempts) a = (st, w, attempts)) /\
  (forall st w a b,
     get_arb_key a = get_arb_key b ->
     (MIN_PROFIT <= a_roi a)%Q ->
     get_arb_key a ∉ EXECUTED_ARBS st ->
     (default 0 (GAME_POSITION_COUNT st !! a_game a) < MAX_POSITIONS_PER_GAME)%nat ->
     (execute a w).1 = true ->
     (scan_execute execute [a; b] st w).2 = [a] /\
     get_arb_key a ∈ EXECUTED_ARBS (scan_execute execute [a; b] st w).1.1) /\
  (forall st w attempts a,
     (MIN_PROFIT <= a_roi a)%Q ->
     get_arb_key a ∉ EXECUTED_ARBS st ->
     (default 0 (GAME_POSITION_COUNT st !! a_game a) < MAX_POSITIONS_PER_GAME)%nat ->
     (execute a w).1 = false ->
     scan_step execute (st, w, attempts) a = (st, (execute a w).2, attempts ++ [a])) /\
  (forall arbs st w,
     EXECUTED_ARBS st ⊆ EXECUTED_ARBS (scan_execute execute arbs st w).1.1).
Proof.
  split; [|split; [|split]].
  - intros st w attempts a Hin. unfold scan_step, is_duplicate_arb.
    rewrite (bool_decide_eq_true_2 _ Hin). destruct (Qle_bool _ _); reflexivity.
  - intros st w a b Hkey Hroi Hnew Hcount Hexec.
    unfold scan_execute. cbn [firstn fold_left].
    assert (Hfirst : exists st1 w1,
               scan_step execute (st, w, []) a = (st1, w1, [a])
               /\ get_arb_key a ∈ EXECUTED_ARBS st1).
    { unfold scan_step, is_duplicate_arb.
      apply Qle_bool_iff in Hroi. rewrite Hroi.
      rewrite (bool_decide_eq_false_2 _ Hnew).
      apply Nat.leb_gt in Hcount. rewrite Hcount.
      destruct (execute a w) as [ok w1]. cbn in Hexec. subst ok.
      do 2 eexists. split; [reflexivity|]. cbn. set_solver. }
    destruct Hfirst as (st1 & w1 & -> & Hin).
    assert (Hsecond : scan_step execute (st1, w1, [a]) b = (st1, w1, [a])).
    { unfold scan_step, is_duplicate_arb. rewrite <- Hkey.
      rewrite (bool_decide_eq_true_2 _ Hin). destruct (Qle_bool _ _); reflexivity. }
    rewrite Hsecond. split; [reflexivity | exact Hin].
  - intros st w attempts a Hroi Hnew Hcount Hexec.
    unfold scan_step, is_duplicate_arb.
    apply Qle_bool_iff in Hroi. rewrite Hroi.
    rewrite (bool_decide_eq_false_2 _ Hnew).
    apply Nat.leb_gt in Hcount. rewrite Hcount.
    destruct (execute a w) as [ok w1]. cbn in Hexec. subst ok. reflexivity.
  - intros arbs st w. unfold scan_execute.
    apply (scan_loop_grows execute (firstn 2 arbs) (st, w, [])).
Qed.

Lemma duplicate_suppression_witness :
  (scan_execute Sample.exec [Sample.total_arb; Sample.total_arb]
     initial_risk_state Sample.start).2 = [Sample.total_arb] /\
  get_arb_key Sample.total_arb
    ∈ EXECUTED_ARBS (scan_execute Sample.exec [Sample.total_arb; Sample.total_arb]
                       initial_risk_state Sample.start).1.1.
Proof.
  apply (proj1 (proj2 (duplicate_suppression Sample.exec))
           initial_risk_state Sample.start Sample.total_arb Sample.total_arb).
  - reflexivity.
  - vm_compute. discriminate.
  - cbn. apply not_elem_of_empty.
  - cbn. rewrite lookup_empty. cbn. unfold MAX_POSITIONS_PER_GAME. lia.
  - reflexivity.
Defined.

(** * Further properties of the code *)

(** ** Detection *)

(** Every candidate of [find_arbs] is appended by the loop body run on a
    pair of markets filed under one game key. *)
Lemma find_arbs_pair ks_games pm_games arbs c :
  find_arbs ks_games pm_games = Ok arbs -> In c arbs ->
  exists game_key market_type ks_markets pm_markets ks_market pm_market r,
    In (game_key, ks_markets) ks_games /\
    dict_get pm_games game_key = Some pm_markets /\
    In ks_market ks_markets /\ In pm_market pm_markets /\
    pair_arbs game_key market_type ks_market pm_market = Ok r /\ In c r.
Proof.
  unfold find_arbs. intros Hrun Hin.
  destruct (collect_In _ _ _ _ Hrun Hin) as ([gk kms] & r1 & Hg & Hbody & Hin1).
  destruct (dict_get pm_games gk) as [pms|] eqn:Epm;
    [|injection Hbody as <-; destruct Hin1].
  unfold game_arbs in Hbody.
  destruct (collect_In _ _ _ _ Hbody Hin1) as ([mt kgroup] & r2 & Hk & Hbody2 & Hin2).
  destruct (dict_get (by_type p_title pms) mt) as [pgroup|] eqn:Ept;
    [|injection Hbody2 as <-; destruct Hin2].
  destruct (collect_In _ _ _ _ Hbody2 Hin2) as (km & r3 & Hkm & Hbody3 & Hin3).
  destruct (collect_In _ _ _ _ Hbody3 Hin3) as (pmk & r4 & Hpmk & Hbody4 & Hin4).
  destruct (by_type_In _ _ _ _ _ Hk Hkm) as [Hkin _].
  apply dict_get_In in Ept.
  destruct (by_type_In _ _ _ _ _ Ept Hpmk) as [Hpin _].
  exists gk, mt, kms, pms, km, pmk, r4. auto 10.
Qed.

Lemma pair_arbs_block game_key market_type ks_market pm_market r c :
  pair_arbs game_key market_type ks_market pm_market = Ok r -> In c r ->
  from_block game_key market_type ks_market pm_market c.
Proof.
  unfold from_block. destruct market_type; cbn.
  - unfold spread_pair.
    destruct (extract_spread_info _ _) as [[kt kl]|]; [|intros [= <-] []].
    destruct (extract_spread_info _ _) as [[pt pl]|]; [|intros [= <-] []].
    destruct (spread_eqb _ _); cbn [negb]; [|intros [= <-] []].
    destruct (game_teams game_key) as [teams|]; cbn [bind]; [|discriminate].
    destruct (opponent_of teams kt) as [opponent|]; cbn [bind]; [|discriminate].
    destruct (String.eqb pt kt); intros [= <-] Hin;
      apply in_app_or in Hin as [Hin | Hin]; do 9 eexists; exact Hin.
  - unfold total_pair. destruct (line_eqb _ _); cbn [negb]; [|intros [= <-] []].
    intros [= <-] Hin. apply in_app_or in Hin as [Hin | Hin]; do 9 eexists; exact Hin.
  - unfold winner_pair. destruct (line_eqb _ _); cbn [negb]; [|intros [= <-] []].
    destruct (game_teams game_key) as [teams|]; cbn [bind]; [|discriminate].
    destruct (Nat.eqb (length teams) 2); cbn [negb]; [|intros [= <-] []].
    destruct (List.find _ teams) as [ks_team|]; [|intros [= <-] []].
    destruct (opponent_of teams ks_team) as [opponent|]; cbn [bind]; [|discriminate].
    destruct (Nat.ltb _ 2); [intros [= <-] []|].
    destruct (outcome_idx ks_team _) as [ki|]; [|intros [= <-] []].
    destruct (outcome_idx opponent _) as [oi|]; [|intros [= <-] []].
    destruct (Nat.eqb oi 0), (Nat.eqb ki 0); intros [= <-] Hin;
      apply in_app_or in Hin as [Hin | Hin]; do 9 eexists; exact Hin.
Qed.

(** X1: every candidate [find_arbs] returns carries [roi = profit / cost],
    and that ROI is at least [MIN_PROFIT]: the ROI test at the head of the
    execution loop of [scan] never turns a detected candidate away. *)
Theorem candidate_roi_passes_scan_filter ks_games pm_games arbs c :
  find_arbs ks_games pm_games = Ok arbs -> In c arbs ->
  a_roi c = (a_profit c / a_cost c)%Q /\
  (MIN_PROFIT <= a_roi c)%Q /\
  Qle_bool MIN_PROFIT (a_roi c) = true.
Proof.
  intros Hrun Hin.
  destruct (find_arbs_pair _ _ _ _ Hrun Hin)
    as (gk & mt & kms & pms & km & pmk & r & _ & _ & _ & _ & Hpair & Hr).
  destruct (pair_arbs_block _ _ _ _ _ _ Hpair Hr)
    as (lbl & pid & ks & ps & pt & kt & kc & pc & h & Hb).
  unfold price_block in Hb.
  destruct (Qle_bool _ _ && Qltb 0 _) eqn:E; [|destruct Hb].
  apply andb_true_iff in E as [E1 E2].
  destruct Hb as [<- | []]. cbn [a_roi a_profit a_cost]. rewrite E2.
  apply Qle_bool_iff in E1. apply Qltb_true in E2.
  assert (H : (MIN_PROFIT <= (1 - (kc + kc * KALSHI_TAKER_FEE + pc))
                             / (kc + kc * KALSHI_TAKER_FEE + pc))%Q)
    by (apply Qle_shift_div_l; assumption).
  split; [reflexivity|]. split; [exact H | apply Qle_bool_iff, H].
Qed.

Lemma candidate_roi_passes_scan_filter_witness :
  a_roi Sample.total_arb = (a_profit Sample.total_arb / a_cost Sample.total_arb)%Q /\
  (MIN_PROFIT <= a_roi Sample.total_arb)%Q /\
  Qle_bool MIN_PROFIT (a_roi Sample.total_arb) = true.
Proof.
  apply (candidate_roi_passes_scan_filter Sample.ks_games Sample.pm_games
           [Sample.total_arb] Sample.total_arb); [reflexivity | left; reflexivity].
Defined.

Lemma outcome_idx_sound (team : string) (outcomes : list string) (i : nat) :
  outcome_idx team outcomes = Some i ->
  exists o, nth_error outcomes i = Some o /\ mentions team (Str.lower o) = true.
Proof.
  unfold outcome_idx.
  set (f := fun (acc : option nat) (io : nat * string) =>
              if mentions team (Str.lower io.2) then Some io.1 else acc).
  set (Q := fun i => exists o, nth_error outcomes i = Some o
                               /\ mentions team (Str.lower o) = true).
  assert (G : forall l pre acc,
             outcomes = pre ++ l ->
             (forall k, acc = Some k -> Q k) ->
             forall k, fold_left f (combine (seq (length pre) (length l)) l) acc = Some k ->
                       Q k).
  { induction l as [|x l IH]; intros pre acc Hout Hacc k; cbn; [apply Hacc|].
    intros Hk.
    apply (IH (pre ++ [x]) (f acc (length pre, x))).
    - rewrite <- app_assoc. exact Hout.
    - unfold f; cbn. destruct (mentions team (Str.lower x)) eqn:Em; [|exact Hacc].
      intros k' [= <-]. exists x. split; [|exact Em].
      rewrite Hout, nth_error_app2, Nat.sub_diag by lia. reflexivity.
    - rewrite length_app. cbn. rewrite Nat.add_1_r. exact Hk. }
  intros H. apply (G outcomes [] None eq_refl); [discriminate | exact H].
Qed.

(** what the winner branch settles before pricing *)
Lemma winner_pair_tokens game_key ks_market pm_market r c :
  winner_pair game_key ks_market pm_market = Ok r -> In c r ->
  exists teams ks_team opponent i o team,
    game_teams game_key = Ok teams /\
    In ks_team teams /\
    mentions ks_team (Str.lower (k_title ks_market)) = true /\
    opponent_of teams ks_team = Ok opponent /\
    a_ks_team c = Some ks_team /\
    a_pm_team c = Some team /\
    team = (match a_ks_side c with Yes => opponent | No => ks_team end) /\
    nth_error (p_outcomes pm_market) i = Some o /\
    mentions team (Str.lower o) = true /\
    a_pm_id c = IdToken (token (p_id pm_market) (if Nat.eqb i 0 then 0 else 1)) /\
    a_pm_side c = PmSide (if Nat.eqb i 0 then Yes else No) /\
    a_pm_best_ask c = (if Nat.eqb i 0 then p_yes pm_market else p_no pm_market).
Proof.
  unfold winner_pair.
  destruct (line_eqb _ _); cbn [negb]; [|intros [= <-] []].
  destruct (game_teams game_key) as [teams|]; cbn [bind]; [|discriminate].
  destruct (Nat.eqb (length teams) 2); cbn [negb]; [|intros [= <-] []].
  destruct (List.find _ teams) as [ks_team|] eqn:Ef; [|intros [= <-] []].
  apply find_some in Ef as [Hteam Hm]. apply andb_true_iff in Hm as [Hm _].
  destruct (opponent_of teams ks_team) as [opponent|] eqn:Eo; cbn [bind]; [|discriminate].
  destruct (Nat.ltb _ 2); [intros [= <-] []|].
  destruct (outcome_idx ks_team _) as [ki|] eqn:Eki; [|intros [= <-] []].
  destruct (outcome_idx opponent _) as [oi|] eqn:Eoi; [|intros [= <-] []].
  destruct (outcome_idx_sound _ _ _ Eki) as (ok & Hok & Hmk).
  destruct (outcome_idx_sound _ _ _ Eoi) as (oo & Hoo & Hmo).
  intros Hr Hin.
  assert (Hcases :
    In c (price_block game_key
            ("KS:YES(" +:+ Str.upper ks_team +:+ ") + PM:" +:+ Str.upper opponent)
            Winner ks_market pm_market
            (IdToken (token (p_id pm_market) (if Nat.eqb oi 0 then 0 else 1)))
            Yes (PmSide (if Nat.eqb oi 0 then Yes else No))
            (Some opponent) (Some ks_team) (k_yes ks_market)
            (if Nat.eqb oi 0 then p_yes pm_market else p_no pm_market)
            (Some ("Kalshi bets " +:+ ks_team +:+ " wins, PM bets "
                     +:+ opponent +:+ " wins")))
    \/ In c (price_block game_key
            ("KS:NO(" +:+ Str.upper ks_team +:+ ") + PM:" +:+ Str.upper ks_team)
            Winner ks_market pm_market
            (IdToken (token (p_id pm_market) (if Nat.eqb ki 0 then 0 else 1)))
            No (PmSide (if Nat.eqb ki 0 then Yes else No))
            (Some ks_team) (Some ks_team) (k_no ks_market)
            (if Nat.eqb ki 0 then p_yes pm_market else p_no pm_market)
            (Some ("Kalshi bets " +:+ opponent +:+ " wins (NO on "
                     +:+ ks_team +:+ "), PM bets " +:+ ks_team +:+ " wins")))).
  { destruct (Nat.eqb oi 0), (Nat.eqb ki 0); injection Hr as <-;
      apply in_app_or in Hin as [Hin | Hin]; auto. }
  clear Hr Hin. unfold price_block in Hcases.
  destruct Hcases as [Hb | Hb];
    (match type of Hb with In _ (if ?g then _ else _) => destruct g end;
     [destruct Hb as [<- | []] | destruct Hb]); cbn.
  - exists teams, ks_team, opponent, oi, oo, opponent. repeat split; auto.
  - exists teams, ks_team, opponent, ki, ok, ks_team. repeat split; auto.
Qed.

(** X2: a moneyline candidate buys, on Polymarket, the token of an outcome
    whose text names the team it bets on: token 0 at the price ['yes'] when
    that outcome is the first, token 1 at the price ['no'] otherwise (so, with
    two outcomes, the token at the outcome's own index).  The Kalshi title
    names [ks_team]; the Polymarket team is [ks_team] for a Kalshi NO and the
    other team of the game key for a Kalshi YES. *)
Theorem winner_candidate_buys_named_outcome ks_games pm_games arbs c :
  find_arbs ks_games pm_games = Ok arbs -> In c arbs -> a_market_type c = Winner ->
  exists ks_markets pm_markets ks_market pm_market teams ks_team opponent i o team,
    In (a_game c, ks_markets) ks_games /\
    dict_get pm_games (a_game c) = Some pm_markets /\
    In ks_market ks_markets /\ In pm_market pm_markets /\
    game_teams (a_game c) = Ok teams /\ In ks_team teams /\
    mentions ks_team (Str.lower (k_title ks_market)) = true /\
    opponent_of teams ks_team = Ok opponent /\
    a_ks_team c = Some ks_team /\ a_pm_team c = Some team /\
    team = (match a_ks_side c with Yes => opponent | No => ks_team end) /\
    nth_error (p_outcomes pm_market) i = Some o /\
    mentions team (Str.lower o) = true /\
    a_pm_id c = IdToken (token (p_id pm_market) (if Nat.eqb i 0 then 0 else 1)) /\
    a_pm_side c = PmSide (if Nat.eqb i 0 then Yes else No) /\
    a_pm_best_ask c = (if Nat.eqb i 0 then p_yes pm_market else p_no pm_market) /\
    (length (p_outcomes pm_market) = 2%nat -> (if Nat.eqb i 0 then 0 else 1)%nat = i).
Proof.
  intros Hrun Hin Hw.
  destruct (find_arbs_pair _ _ _ _ Hrun Hin)
    as (gk & mt & kms & pms & km & pmk & r & Hk & Hp & Hkm & Hpmk & Hpair & Hr).
  destruct (pair_arbs_priced _ _ _ _ _ _ Hpair Hr) as [P Hmt].
  rewrite Hw in Hmt. subst mt. cbn in Hpair.
  rewrite (pf_game _ _ _ _ P).
  destruct (winner_pair_tokens _ _ _ _ _ Hpair Hr)
    as (teams & kt & opp & i & o & team & H1 & H2 & H3 & H4 & H5 & H6 & H7 & H8 & H9
        & H10 & H11 & H12).
  exists kms, pms, km, pmk, teams, kt, opp, i, o, team.
  repeat (split; [assumption|]).
  intros Hlen.
  assert (i < 2)%nat by (rewrite <- Hlen; apply nth_error_Some; congruence).
  destruct i as [|[|]]; cbn; lia.
Qed.

Example sample_winner_arb_emitted :
  find_arbs Sample2.ks_games Sample2.pm_games = Ok [Sample2.winner_arb].
Proof. reflexivity. Qed.

Lemma winner_candidate_buys_named_outcome_witness :
  exists pm_market i o team,
    a_pm_team Sample2.winner_arb = Some team /\
    nth_error (p_outcomes pm_market) i = Some o /\
    mentions team (Str.lower o) = true /\
    a_pm_id Sample2.winner_arb
      = IdToken (token (p_id pm_market) (if Nat.eqb i 0 then 0 else 1)).
Proof.
  destruct (winner_candidate_buys_named_outcome Sample2.ks_games Sample2.pm_games
              [Sample2.winner_arb] Sample2.winner_arb eq_refl (or_introl eq_refl) eq_refl)
    as (kms & pms & km & pmk & teams & kt & opp & i & o & team & H).
  exists pmk, i, o, team. tauto.
Defined.

(** ** Execution *)

Lemma no_market_has_a_token_as_id (t : string) (pm_markets : list pm_market) :
  List.find (fun m => pm_id_eqb (IdPair (p_id m)) (IdToken t)) pm_markets = None.
Proof. induction pm_markets as [|m l IH]; cbn; auto. Qed.

(** X3: a moneyline candidate of [find_arbs] is never executed.  Its
    ['pm_id'] is one token, the market's ['id'] is the list of both, so the
    second market lookup of [execute_arb] finds nothing: whatever the venues
    would answer and whatever markets are passed, no order is placed, nothing
    is logged and the result is [False]. *)
Theorem winner_candidates_are_never_executed ks_games pm_games arbs c :
  find_arbs ks_games pm_games = Ok arbs -> In c arbs -> a_market_type c = Winner ->
  forall v now ks_games' pm_games' j,
    execute_arb v now c ks_games' pm_games' j = (false, [], j).
Proof.
  intros Hrun Hin Hw v now ks' pm' j.
  destruct (find_arbs_pair _ _ _ _ Hrun Hin)
    as (gk & mt & kms & pms & km & pmk & r & _ & _ & _ & _ & Hpair & Hr).
  destruct (pair_arbs_priced _ _ _ _ _ _ Hpair Hr) as [_ Hmt].
  rewrite Hw in Hmt. subst mt. cbn in Hpair.
  destruct (winner_pair_tokens _ _ _ _ _ Hpair Hr)
    as (teams & kt & opp & i & o & team & _ & _ & _ & _ & _ & _ & _ & _ & _ & Hid & _).
  destruct (execute_arb v now c ks' pm' j) as [[ok trace] j'] eqn:H.
  unfold execute_arb in H; cbv zeta in H. rewrite Hid in H.
  rewrite no_market_has_a_token_as_id in H.
  repeat match type of H with
         | (if ?b then _ else _) = _ => destruct b eqn:?
         | match ?x with _ => _ end = _ => destruct x eqn:?
         end;
    try (unfold DRY_RUN in *; discriminate);
    injection H as <- <- <-; reflexivity.
Qed.

Lemma winner_candidates_are_never_executed_witness :
  execute_arb Sample.all_fill 50 Sample2.winner_arb Sample2.ks_games Sample2.pm_games Absent
  = (false, [], Absent).
Proof.
  apply (winner_candidates_are_never_executed Sample2.ks_games Sample2.pm_games
           [Sample2.winner_arb] Sample2.winner_arb eq_refl (or_introl eq_refl) eq_refl).
Defined.

(** X4: [execute_arb] returns [True] only when both orders filled.  The
    calls are then the Polymarket buy, the Kalshi buy for the same number of
    units (2 shares, 2 contracts), the position check and one [log_trade] with
    [success = True], with no closing order. *)
Theorem success_means_both_legs_filled (v : venue) (now : Q) (a : arb)
    (ks_games : games ks_market) (pm_games : games pm_market) (j : journal_file)
    (trace : list event) (j' : journal_file) :
  execute_arb v now a ks_games pm_games j = (true, trace, j') ->
  exists pm_order_id ks_order_id side_index ks_price,
    v_pm_buy v = Filled pm_order_id /\
    v_ks_buy v = Filled ks_order_id /\
    trace = [ PmOrder (a_pm_id a) side_index 2 (a_pm_best_ask a) false (Filled pm_order_id);
              KsOrder (a_ks_id a) (a_ks_side a) 2 ks_price (Filled ks_order_id);
              Verify (a_ks_id a) (a_pm_id a) 2 (v_verification_ok v);
              LogTrade a 2 true true ] /\
    List.filter is_close trace = [] /\
    j' = log_trade now a 2 true true j.
Proof.
  intros H. remember true as ok eqn:Hok.
  exec_cases H; try discriminate Hok; try (unfold DRY_RUN in *; discriminate).
  destruct (v_pm_buy v) as [oid1|]; [|discriminate].
  destruct (v_ks_buy v) as [oid2|]; [|discriminate].
  do 4 eexists. repeat split; reflexivity.
Qed.

Lemma success_means_both_legs_filled_witness :
  exists pm_order_id ks_order_id side_index ks_price,
    v_pm_buy Sample.all_fill = Filled pm_order_id /\
    v_ks_buy Sample.all_fill = Filled ks_order_id /\
    (execute_arb Sample.all_fill 50 Sample.total_arb Sample.ks_games Sample.pm_games Absent).1.2
    = [ PmOrder (a_pm_id Sample.total_arb) side_index 2 (a_pm_best_ask Sample.total_arb)
          false (Filled pm_order_id);
        KsOrder (a_ks_id Sample.total_arb) (a_ks_side Sample.total_arb) 2 ks_price
          (Filled ks_order_id);
        Verify (a_ks_id Sample.total_arb) (a_pm_id Sample.total_arb) 2
          (v_verification_ok Sample.all_fill);
        LogTrade Sample.total_arb 2 true true ].
Proof.
  destruct (success_means_both_legs_filled Sample.all_fill 50 Sample.total_arb
              Sample.ks_games Sample.pm_games Absent
              (execute_arb Sample.all_fill 50 Sample.total_arb
                 Sample.ks_games Sample.pm_games Absent).1.2
              (execute_arb Sample.all_fill 50 Sample.total_arb
                 Sample.ks_games Sample.pm_games Absent).2 eq_refl)
    as (o1 & o2 & si & kp & H1 & H2 & H3 & _).
  exists o1, o2, si, kp. auto.
Defined.

(** X5: [execute_arb] makes a call to a venue only after its checks have
    passed: the cost is in (0, 1], the profit is positive, each balance
    covers the cost of two units, and the game's market lists hold a Kalshi
    market with the candidate's ticker and a Polymarket market whose token
    list is the candidate's ['pm_id']. *)
Theorem orders_only_after_checks (v : venue) (now : Q) (a : arb)
    (ks_games : games ks_market) (pm_games : games pm_market) (j : journal_file)
    (ok : bool) (trace : list event) (j' : journal_file) :
  execute_arb v now a ks_games pm_games j = (ok, trace, j') ->
  trace <> [] ->
  (0 < a_cost a /\ a_cost a <= 1 /\ 0 < a_profit a)%Q /\
  (a_cost a * 2 <= v_ks_balance v /\ a_cost a * 2 <= v_pm_balance v)%Q /\
  (exists m, In m (games_get ks_games (a_game a)) /\ k_id m = a_ks_id a) /\
  (exists m, In m (games_get pm_games (a_game a)) /\ a_pm_id a = IdPair (p_id m)).
Proof.
  intros H Hne. exec_cases H; try congruence.
  all: repeat match goal with
              | E : Qle_bool _ _ = false |- _ => apply Qle_bool_false in E
              | E : Qltb _ _ = false |- _ => apply Qltb_false in E
              | E : List.find _ _ = Some _ |- _ => apply find_some in E as [? ?]
              end.
  all: assert (Hsize : (inject_Z (int_of (if TEST_TINY_ORDER then TEST_ORDER_SIZE
                                          else live_position_size (a_cost a) (v_ks_balance v)
                                                 (v_pm_balance v) (Some k) 
                                                 (List.find (fun m => pm_id_matches m (a_pm_id a))
                                                    (games_get pm_games (a_game a)))))
                          == 2)%Q) by reflexivity.
  all: repeat match goal with E : (_ * inject_Z _ <= _)%Q |- _ => rewrite Hsize in E end.
  all: split; [repeat split; lra|]; split; [split; lra|]; split.
  all: try (eexists; split; [eassumption|]; apply String.eqb_eq; assumption).
  all: eexists; split; [eassumption|];
    destruct (a_pm_id a) as [[x y]|t]; cbn in *; try discriminate;
    match goal with E : _ && _ = true |- _ => apply andb_true_iff in E as [E1 E2] end;
    apply String.eqb_eq in E1, E2;
    match goal with p : pm_market |- _ => destruct (p_id p) end; cbn in *; congruence.
Qed.

Lemma orders_only_after_checks_witness :
  (0 < a_cost Sample.total_arb /\ a_cost Sample.total_arb <= 1
   /\ 0 < a_profit Sample.total_arb)%Q /\
  (a_cost Sample.total_arb * 2 <= v_ks_balance Sample.polymarket_rejects /\
   a_cost Sample.total_arb * 2 <= v_pm_balance Sample.polymarket_rejects)%Q.
Proof.
  destruct (orders_only_after_checks Sample.polymarket_rejects 50 Sample.total_arb
              Sample.ks_games Sample.pm_games Absent
              (execute_arb Sample.polymarket_rejects 50 Sample.total_arb
                 Sample.ks_games Sample.pm_games Absent).1.1
              (execute_arb Sample.polymarket_rejects 50 Sample.total_arb
                 Sample.ks_games Sample.pm_games Absent).1.2
              (execute_arb Sample.polymarket_rejects 50 Sample.total_arb
                 Sample.ks_games Sample.pm_games Absent).2 eq_refl)
    as (H1 & H2 & _).
  - discriminate.
  - split; assumption.
Defined.



(** ** The two safety checks *)

Lemma qsum_acc (f : trade -> Q) (l : list trade) (a : Q) :
  (fold_left (fun acc t => acc + f t) l a == a + qsum f l)%Q.
Proof.
  unfold qsum. revert a. induction l as [|t l IH]; intros a; cbn.
  - ring.
  - rewrite (IH (a + f t)%Q), (IH (0 + f t)%Q). ring.
Qed.

Lemma qsum_cons (f : trade -> Q) (t : trade) (l : list trade) :
  (qsum f (t :: l) == f t + qsum f l)%Q.
Proof. unfold qsum at 1. cbn. rewrite qsum_acc. ring. Qed.

Lemma qsum_nonneg (f : trade -> Q) (l : list trade) :
  Forall (fun t => 0 <= f t)%Q l -> (0 <= qsum f l)%Q.
Proof.
  induction 1 as [|t l Ht _ IH]; [unfold qsum; cbn; lra|].
  rewrite qsum_cons. lra.
Qed.

Lemma qsum_ext (f g : trade -> Q) (l : list trade) :
  Forall (fun t => f t == g t)%Q l -> (qsum f l == qsum g l)%Q.
Proof.
  induction 1 as [|t l Ht _ IH]; [reflexivity|].
  rewrite !qsum_cons, Ht, IH. reflexivity.
Qed.

Lemma qsum_opp (f : trade -> Q) (l : list trade) :
  (qsum (fun t => - f t) l == - qsum f l)%Q.
Proof.
  induction l as [|t l IH]; [reflexivity|].
  rewrite !qsum_cons, IH. ring.
Qed.

(** the loss check on a list that loads and is not empty *)
Lemma loss_check_unfold (t : trade) (l : list trade) :
  check_loss_threshold (Stored (t :: l))
  = if Qeq_bool (qsum t_trade_cost (t :: l)) 0 then true
    else negb (Qle_bool LOSS_KILL_THRESHOLD
                 (Qabs (min2 0 (qsum (fun t => if t_success t then t_locked_profit t
                                               else (- t_trade_cost t)%Q) (t :: l)))
                  / qsum t_trade_cost (t :: l))).
Proof.
  unfold check_loss_threshold. cbn [exists_file negb load].
  destruct (Qeq_bool _ 0); [reflexivity|]. destruct (Qle_bool _ _); reflexivity.
Qed.

(** a journal of failed trades: the whole outlay counts as lost *)
Lemma failed_trades_trip_the_switch (trades : list trade) :
  trades <> [] ->
  Forall (fun t => t_success t = false /\ (0 < t_trade_cost t)%Q) trades ->
  check_loss_threshold (Stored trades) = false.
Proof.
  intros Hne Hall. destruct trades as [|t l]; [congruence|].
  rewrite loss_check_unfold.
  set (total := qsum t_trade_cost (t :: l)).
  set (net := qsum _ (t :: l)).
  assert (Hnet : (net == - total)%Q).
  { unfold net, total. rewrite <- qsum_opp. apply qsum_ext.
    eapply Forall_impl; [exact Hall|]. intros x [-> _]. reflexivity. }
  assert (Hpos : (0 < total)%Q).
  { unfold total. inversion Hall as [|? ? [_ Ht] Hl]; subst.
    rewrite qsum_cons.
    assert (0 <= qsum t_trade_cost l)%Q; [|lra].
    apply qsum_nonneg. eapply Forall_impl; [exact Hl|]. intros x [_ Hx]. lra. }
  destruct (Qeq_bool total 0) eqn:E0.
  { apply Qeq_bool_iff in E0. lra. }
  apply negb_false_iff, Qle_bool_iff.
  assert (Hmin : min2 0 net = net).
  { unfold min2. destruct (Qltb net 0) eqn:E; [reflexivity|].
    apply Qltb_false in E. lra. }
  rewrite Hmin. apply Qle_shift_div_l; [exact Hpos|].
  rewrite Qabs_neg by lra. unfold LOSS_KILL_THRESHOLD. lra.
Qed.

(** X7: a journal that loads, is not empty and holds only failed trades of
    positive cost trips the loss kill-switch: every failed trade counts its
    whole cost as lost, so the loss is 100% of the capital deployed. *)
Theorem failed_only_journal_stops_the_bot (trades : list trade) :
  trades <> [] ->
  Forall (fun t => t_success t = false /\ (0 < t_trade_cost t)%Q) trades ->
  check_loss_threshold (Stored trades) = false /\
  forall answers snapshot st w attempts,
    w_journal w = Stored trades ->
    poll answers snapshot (Running st w attempts) = Exited 1.
Proof.
  intros Hne Hall.
  pose proof (failed_trades_trip_the_switch trades Hne Hall) as H.
  split; [exact H|].
  intros answers snapshot st w attempts Hw. unfold poll. rewrite Hw, H. reflexivity.
Qed.

Lemma failed_only_journal_stops_the_bot_witness :
  check_loss_threshold
    (Stored [new_trade 50 Sample.total_arb 2 false true]) = false /\
  poll (fun _ => Sample.all_fill) (Sample.ks_games, Sample.pm_games)
    (Running initial_risk_state
       {| w_now := 65; w_journal := Stored [new_trade 50 Sample.total_arb 2 false true];
          w_calls := 1 |} [])
  = Exited 1.
Proof.
  destruct (failed_only_journal_stops_the_bot
              [new_trade 50 Sample.total_arb 2 false true]) as [H1 H2].
  - discriminate.
  - constructor; [|constructor]. split; [reflexivity | vm_compute; reflexivity].
  - split; [exact H1|]. apply H2. reflexivity.
Defined.

(** X8: a journal whose trades all succeeded, with no negative locked
    profit, never trips the loss kill-switch, however many trades it holds. *)
Theorem successful_journal_keeps_running (trades : list trade) :
  Forall (fun t => t_success t = true /\ (0 <= t_locked_profit t)%Q) trades ->
  check_loss_threshold (Stored trades) = true.
Proof.
  intros Hall. destruct trades as [|t l]; [reflexivity|].
  rewrite loss_check_unfold.
  set (total := qsum t_trade_cost (t :: l)).
  set (net := qsum _ (t :: l)).
  assert (Hnet : (0 <= net)%Q).
  { unfold net. rewrite (qsum_ext _ t_locked_profit).
    - apply qsum_nonneg. eapply Forall_impl; [exact Hall|]. intros x [_ Hx]. exact Hx.
    - eapply Forall_impl; [exact Hall|]. intros x [-> _]. reflexivity. }
  destruct (Qeq_bool total 0); [reflexivity|].
  assert (Hmin : min2 0 net = 0%Q).
  { unfold min2. destruct (Qltb net 0) eqn:E; [|reflexivity].
    apply Qltb_true in E. lra. }
  rewrite Hmin. apply negb_true_iff, Qle_bool_false.
  assert (E : (Qabs 0 / total == 0)%Q) by (unfold Qdiv; apply Qmult_0_l).
  rewrite E. reflexivity.
Qed.

Lemma successful_journal_keeps_running_witness :
  check_loss_threshold
    (Stored [Sample.old_trade; new_trade 50 Sample.total_arb 2 true true]) = true.
Proof.
  apply successful_journal_keeps_running.
  constructor; [|constructor; [|constructor]];
    (split; [reflexivity | vm_compute; discriminate]).
Defined.

Lemma naked_check_spec (trades : list trade) :
  check_naked_positions (Stored trades)
  = forallb t_both_legs_filled (last_n 10 trades).
Proof.
  assert (G : forall l,
             match List.filter (fun t => negb (t_both_legs_filled t)) l with
             | [] => true
             | _ => false
             end = forallb t_both_legs_filled l).
  { induction l as [|x l IH]; cbn; [reflexivity|].
    destruct (t_both_legs_filled x); cbn; [exact IH | reflexivity]. }
  unfold check_naked_positions. cbn [exists_file negb load].
  destruct trades as [|t l]; [reflexivity|]. apply G.
Qed.


Lemma log_trade_shape (now : Q) (a : arb) (size : Q) (ok both : bool) (j : journal_file) :
  exists earlier,
    log_trade now a size ok both j = Stored (earlier ++ [new_trade now a size ok both]) /\
    (load j = None \/ load j = Some [] -> earlier = []).
Proof.
  destruct j as [|held|trades]; cbn.
  - exists []. split; [reflexivity | auto].
  - exists []. split; [reflexivity | auto].
  - exists trades. split; [reflexivity|]. intros [H | H]; congruence.
Qed.

(** what a run with leg 1 filled and leg 2 failed leaves behind *)
Lemma leg2_failure_run (v : venue) (now : Q) (a : arb)
    (ks_games : games ks_market) (pm_games : games pm_market) (j : journal_file)
    (ok : bool) (trace : list event) (j' : journal_file) :
  execute_arb v now a ks_games pm_games j = (ok, trace, j') ->
  leg1_filled trace -> leg2_failed trace ->
  (0 < a_cost a)%Q /\
  j' = log_trade now a 2 false (success (v_pm_close v)) j.
Proof.
  intros H (mid & si & q & p & oid & H1) (tk & sd & q2 & p2 & err & H2).
  exec_cases H; try (now no_such_event H1); try (now no_such_event H2).
  - split; [|reflexivity].
    match goal with E : Qle_bool (a_cost a) 0 = false |- _ =>
      apply Qle_bool_false in E; exact E end.
  - split; [|reflexivity].
    match goal with E : Qle_bool (a_cost a) 0 = false |- _ =>
      apply Qle_bool_false in E; exact E end.
  - exfalso. no_such_event H2. injection H2 as _ _ _ _ E.
    match goal with S : negb (success (v_ks_buy v)) = false |- _ =>
      rewrite E in S; discriminate S end.
Qed.



(** X10: when the journal is absent, unreadable or empty and an execution
    ends with the first leg filled and the Kalshi order failed, the record it
    writes trips the loss kill-switch even if the closing sell succeeded: the
    next pass of the polling loop exits with status 1. *)
Theorem first_failed_trade_stops_the_bot (v : venue) (now : Q) (a : arb)
    (ks_games : games ks_market) (pm_games : games pm_market) (j : journal_file)
    (ok : bool) (trace : list event) (j' : journal_file) :
  execute_arb v now a ks_games pm_games j = (ok, trace, j') ->
  leg1_filled trace -> leg2_failed trace ->
  load j = None \/ load j = Some [] ->
  check_loss_threshold j' = false /\
  forall answers snapshot st w attempts,
    w_journal w = j' ->
    poll answers snapshot (Running st w attempts) = Exited 1.
Proof.
  intros H H1 H2 Hfresh.
  destruct (leg2_failure_run _ _ _ _ _ _ _ _ _ H H1 H2) as [Hcost ->].
  destruct (log_trade_shape now a 2 false (success (v_pm_close v)) j)
    as (earlier & -> & Hnil).
  rewrite (Hnil Hfresh). cbn [app].
  assert (Hl : check_loss_threshold
                 (Stored [new_trade now a 2 false (success (v_pm_close v))]) = false).
  { apply failed_trades_trip_the_switch; [discriminate|].
    constructor; [|constructor]. split; [reflexivity|]. cbn. lra. }
  split; [exact Hl|].
  intros answers snapshot st w attempts Hw. unfold poll. rewrite Hw, Hl. reflexivity.
Qed.

Lemma first_failed_trade_stops_the_bot_witness :
  check_loss_threshold
    (execute_arb (Sample.kalshi_rejects (Filled "pm-2")) 50
       Sample.total_arb Sample.ks_games Sample.pm_games Absent).2
  = false.
Proof.
  apply (first_failed_trade_stops_the_bot
           (Sample.kalshi_rejects (Filled "pm-2")) 50
           Sample.total_arb Sample.ks_games Sample.pm_games Absent
           (execute_arb (Sample.kalshi_rejects (Filled "pm-2"))
              50 Sample.total_arb Sample.ks_games Sample.pm_games Absent).1.1
           (execute_arb (Sample.kalshi_rejects (Filled "pm-2"))
              50 Sample.total_arb Sample.ks_games Sample.pm_games Absent).1.2).
  - reflexivity.
  - exists (IdPair ("tok-over", "tok-under")), 1%nat, 2%Q, 0.4775%Q, "pm-1".
    left. reflexivity.
  - exists "KXNFLTOTAL-26JAN17BUFDEN-45", Yes, 2%Z, 50%Z, "insufficient balance".
    right. left. reflexivity.
  - left. reflexivity.
Defined.

Lemma forallb_skipn {A} (f : A -> bool) (n : nat) (l : list A) :
  forallb f l = true -> forallb f (skipn n l) = true.
Proof.
  revert n. induction l as [|x l IH]; intros [|n]; cbn; auto.
  intros H. apply andb_true_iff in H as [_ H]. auto.
Qed.

(** X11: [check_naked_positions] looks at the last ten records only.  Once
    ten or more records with both legs filled follow it, an earlier record
    of a naked position no longer stops the bot. *)
Theorem naked_record_ages_out (earlier recent : list trade) :
  (10 <= length recent)%nat ->
  Forall (fun t => t_both_legs_filled t = true) recent ->
  check_naked_positions (Stored (earlier ++ recent)) = true.
Proof.
  intros Hlen Hall. rewrite naked_check_spec. unfold last_n.
  rewrite length_app, skipn_app.
  rewrite skipn_all2 by lia. cbn [app].
  apply forallb_skipn. apply forallb_forall.
  intros x Hx. rewrite Forall_forall in Hall. apply Hall.
  apply list_elem_of_In. exact Hx.
Qed.

Lemma naked_record_ages_out_witness :
  check_naked_positions
    (Stored ([new_trade 50 Sample.total_arb 2 false false] ++ repeat Sample.old_trade 10))
  = true.
Proof.
  apply naked_record_ages_out.
  - cbn. lia.
  - repeat constructor.
Defined.

(** ** The execution loop *)

(** one iteration: what it may add to the attempts and to the risk state *)
Lemma scan_step_effect {W} (execute : arb -> W -> bool * W) st w attempts a :
  let r := scan_step execute (st, w, attempts) a in
  (r.2 = attempts \/
   (r.2 = attempts ++ [a] /\ (MIN_PROFIT <= a_roi a)%Q /\
    (get_arb_key a ∉ EXECUTED_ARBS st) /\
    (position_count st (a_game a) < MAX_POSITIONS_PER_GAME)%nat)) /\
  (forall g, (position_count st g <= position_count r.1.1 g)%nat) /\
  (forall g, (position_count st g <= MAX_POSITIONS_PER_GAME)%nat ->
             (position_count r.1.1 g <= MAX_POSITIONS_PER_GAME)%nat).
Proof.
  cbv zeta. unfold scan_step, is_duplicate_arb.
  destruct (Qle_bool _ _) eqn:Er; [|cbn; auto].
  destruct (bool_decide _) eqn:Ed; [cbn; auto|].
  destruct (_ <=? _)%nat eqn:Ec; [cbn; auto|].
  apply Qle_bool_iff in Er. apply bool_decide_eq_false_1 in Ed.
  apply Nat.leb_gt in Ec. fold (position_count st (a_game a)) in Ec.
  destruct (execute a w) as [[] w']; cbn [fst snd]; (split; [right; auto|]).
  - unfold position_count in *. cbn [GAME_POSITION_COUNT mark_arb_executed].
    split; intros g; destruct (decide (a_game a = g)) as [<- | Hne];
      rewrite ?lookup_insert_eq, ?lookup_insert_ne by exact Hne; cbn; lia.
  - split; auto.
Qed.

Lemma scan_loop_effect {W} (execute : arb -> W -> bool * W) (l : list arb) st w attempts :
  let r := fold_left (scan_step execute) l (st, w, attempts) in
  (exists new, r.2 = attempts ++ new /\ (length new <= length l)%nat /\
     forall a, In a new ->
       In a l /\ (MIN_PROFIT <= a_roi a)%Q /\
       (get_arb_key a ∉ EXECUTED_ARBS st) /\
       (position_count st (a_game a) < MAX_POSITIONS_PER_GAME)%nat) /\
  (forall g, (position_count st g <= position_count r.1.1 g)%nat) /\
  (forall g, (position_count st g <= MAX_POSITIONS_PER_GAME)%nat ->
             (position_count r.1.1 g <= MAX_POSITIONS_PER_GAME)%nat).
Proof.
  cbv zeta. revert st w attempts. induction l as [|a l IH]; intros st w attempts.
  - cbn. split; [|auto]. exists []. rewrite app_nil_r. split; [reflexivity|].
    split; [cbn; lia | intros ? []].
  - cbn [fold_left].
    pose proof (scan_step_effect execute st w attempts a) as Hstep. cbv zeta in Hstep.
    pose proof (scan_step_grows execute (st, w, attempts) a) as [_ Hgrow].
    destruct (scan_step execute (st, w, attempts) a) as [[st1 w1] att1] eqn:E1.
    cbn [fst snd] in Hstep, Hgrow.
    destruct Hstep as (Hatt & Hmono & Hcap).
    destruct (IH st1 w1 att1) as ((new & Hnew & Hlen & Hall) & Hmono' & Hcap').
    split; [|split].
    + assert (Hlift : forall x, In x new ->
                 In x (a :: l) /\ (MIN_PROFIT <= a_roi x)%Q /\
                 (get_arb_key x ∉ EXECUTED_ARBS st) /\
                 (position_count st (a_game x) < MAX_POSITIONS_PER_GAME)%nat).
      { intros x Hx. destruct (Hall x Hx) as (H1 & H2 & H3 & H4).
        split; [now right|]. split; [exact H2|]. split.
        - intros Hin. apply H3. apply Hgrow. exact Hin.
        - specialize (Hmono (a_game x)). lia. }
      destruct Hatt as [-> | (-> & Hr & Hk & Hc)].
      * exists new. split; [exact Hnew|]. split; [cbn; lia | exact Hlift].
      * exists (a :: new). split; [rewrite Hnew, <- app_assoc; reflexivity|].
        split; [cbn; lia|]. intros x [<- | Hx]; [|auto].
        split; [now left | auto].
    + intros g. specialize (Hmono g). specialize (Hmono' g). lia.
    + intros g Hg. apply Hcap', Hcap, Hg.
Qed.

(** X12: one scan hands at most two candidates to [execute_arb], taken
    from the first two of the list; each has ROI at least [MIN_PROFIT], an
    identity key that was not in [EXECUTED_ARBS] when the scan began, and a
    game with fewer than three positions when the scan began. *)
Theorem scan_attempts_at_most_two {W} (execute : arb -> W -> bool * W)
    (arbs : list arb) (st : risk_state) (w : W) :
  let attempts := (scan_execute execute arbs st w).2 in
  (length attempts <= 2)%nat /\
  forall a, In a attempts ->
    In a (firstn 2 arbs) /\ (MIN_PROFIT <= a_roi a)%Q /\
    (get_arb_key a ∉ EXECUTED_ARBS st) /\
    (position_count st (a_game a) < MAX_POSITIONS_PER_GAME)%nat.
Proof.
  cbv zeta. unfold scan_execute.
  destruct (scan_loop_effect execute (firstn 2 arbs) st w [])
    as ((new & -> & Hlen & Hall) & _).
  cbn [app]. split; [|exact Hall].
  rewrite length_firstn in Hlen. lia.
Qed.

Lemma scan_attempts_at_most_two_witness :
  In Sample.total_arb (firstn 2 [Sample.total_arb; Sample.total_arb]) /\
  (MIN_PROFIT <= a_roi Sample.total_arb)%Q /\
  (get_arb_key Sample.total_arb ∉ EXECUTED_ARBS initial_risk_state) /\
  (position_count initial_risk_state (a_game Sample.total_arb) < MAX_POSITIONS_PER_GAME)%nat.
Proof.
  apply (proj2 (scan_attempts_at_most_two Sample.exec
                  [Sample.total_arb; Sample.total_arb] initial_risk_state Sample.start)
           Sample.total_arb).
  replace (scan_execute Sample.exec [Sample.total_arb; Sample.total_arb]
             initial_risk_state Sample.start).2
    with [Sample.total_arb] by (vm_compute; reflexivity).
  left. reflexivity.
Defined.

Lemma scan_within_cap {W} (execute : arb -> W -> bool * W) ks_games pm_games st w r :
  scan execute ks_games pm_games st w = Ok r -> within_cap st -> within_cap r.1.1.
Proof.
  unfold scan. intros H Hcap.
  destruct ks_games as [|kg ks]; [injection H as <-; exact Hcap|].
  destruct pm_games as [|pg ps]; [injection H as <-; exact Hcap|].
  destruct (find_arbs _ _) as [arbs|]; cbn [bind] in H; [|discriminate].
  destruct arbs as [|x arbs]; injection H as <-; [exact Hcap|].
  unfold scan_execute. intros g.
  apply (scan_loop_effect execute (firstn 2 (sort_by_roi (x :: arbs))) st w []).
  apply Hcap.
Qed.

Lemma poll_within_cap answers snapshot s :
  process_within_cap s -> process_within_cap (poll answers snapshot s).
Proof.
  destruct s as [st w att| |]; cbn; auto. intros Hcap.
  destruct (negb (check_loss_threshold _)); [exact I|].
  destruct (negb (check_naked_positions _)); [exact I|].
  destruct snapshot as [ks pm].
  destruct (scan _ ks pm st w) as [[[st' w'] att']|] eqn:E; [|exact I].
  apply (scan_within_cap _ _ _ _ _ _ E Hcap).
Qed.

(** X13: the per-game exposure cap holds for the life of the process: a
    scan that starts with every game at no more than three positions ends so,
    and however many passes the polling loop makes from a fresh process, no
    game ever counts more than [MAX_POSITIONS_PER_GAME] executed positions. *)
Theorem exposure_cap_is_kept :
  (forall W (execute : arb -> W -> bool * W) arbs st w,
     within_cap st -> within_cap (scan_execute execute arbs st w).1.1) /\
  (forall answers snapshots n i w,
     process_within_cap
       (main_loop answers snapshots n i (Running initial_risk_state w []))).
Proof.
  split.
  - intros W execute arbs st w Hcap g. unfold scan_execute.
    apply (scan_loop_effect execute (firstn 2 arbs) st w []). apply Hcap.
  - intros answers snapshots n i w.
    assert (G : forall n i s, process_within_cap s ->
                  process_within_cap (main_loop answers snapshots n i s)).
    { clear. induction n as [|n IH]; intros i s Hs; cbn; [exact Hs|].
      apply IH, poll_within_cap, Hs. }
    apply G. intros g. unfold position_count. cbn. rewrite lookup_empty. cbn. lia.
Qed.

Lemma exposure_cap_is_kept_witness :
  within_cap (scan_execute Sample.exec [Sample.total_arb] initial_risk_state Sample.start).1.1.
Proof.
  apply (proj1 exposure_cap_is_kept).
  intros g. unfold position_count. cbn. rewrite lookup_empty. cbn. lia.
Defined.

(** ** Ranking *)

Lemma insert_by_roi_perm (x : arb) (l : list arb) :
  Permutation (insert_by_roi x l) (x :: l).
Proof.
  induction l as [|y l IH]; cbn; [reflexivity|].
  destruct (Qltb (a_roi x) (a_roi y)); [|reflexivity].
  rewrite IH. apply perm_swap.
Qed.

Lemma insert_by_roi_sorted (x : arb) (l : list arb) :
  StronglySorted roi_ge l -> StronglySorted roi_ge (insert_by_roi x l).
Proof.
  induction 1 as [|y l Hs IH Hall]; cbn.
  - constructor; constructor.
  - destruct (Qltb (a_roi x) (a_roi y)) eqn:E.
    + apply Qltb_true in E. constructor; [exact IH|].
      rewrite Forall_forall. intros z Hz.
      apply list_elem_of_In in Hz.
      apply (Permutation_in _ (insert_by_roi_perm x l)) in Hz as [<- | Hz].
      * unfold roi_ge. lra.
      * rewrite Forall_forall in Hall. apply Hall, list_elem_of_In, Hz.
    + apply Qltb_false in E. constructor; [constructor; assumption|].
      constructor; [exact E|].
      eapply Forall_impl; [exact Hall|]. intros z Hz. unfold roi_ge in *. lra.
Qed.

(** X14: the ranking of [scan] reorders the candidates without adding or
    dropping any, in descending ROI; so each of the (at most two) candidates
    it considers for execution has an ROI at least that of every candidate
    it leaves out. *)
Theorem ranking_is_a_descending_permutation (arbs : list arb) :
  Permutation (sort_by_roi arbs) arbs /\
  StronglySorted roi_ge (sort_by_roi arbs) /\
  forall x y, In x (firstn 2 (sort_by_roi arbs)) -> In y (skipn 2 (sort_by_roi arbs)) ->
              (a_roi y <= a_roi x)%Q.
Proof.
  assert (Hp : Permutation (sort_by_roi arbs) arbs).
  { induction arbs as [|a l IH]; cbn; [reflexivity|].
    rewrite insert_by_roi_perm, IH. reflexivity. }
  assert (Hs : StronglySorted roi_ge (sort_by_roi arbs)).
  { clear Hp. induction arbs as [|a l IH]; cbn; [constructor|].
    apply insert_by_roi_sorted, IH. }
  split; [exact Hp|]. split; [exact Hs|].
  generalize dependent (sort_by_roi arbs). clear. intros l _ Hs.
  assert (G : forall n x y, In x (firstn n l) -> In y (skipn n l) -> (a_roi y <= a_roi x)%Q).
  { induction Hs as [|z l Hs IH Hall]; intros [|n] x y; cbn; try tauto.
    intros [<- | Hx] Hy.
    - rewrite Forall_forall in Hall. apply Hall, list_elem_of_In.
      clear -Hy. revert n Hy. induction l as [|u l IHl]; intros [|n]; cbn; auto.
      intros H. right. eauto.
    - eauto. }
  apply G.
Qed.

Lemma ranking_is_a_descending_permutation_witness :
  (a_roi Sample.total_arb <= a_roi Sample2.winner_arb)%Q.
Proof.
  apply (proj2 (proj2 (ranking_is_a_descending_permutation
                         [Sample.total_arb; Sample2.winner_arb; Sample.total_arb]))).
  - replace (sort_by_roi [Sample.total_arb; Sample2.winner_arb; Sample.total_arb])
      with [Sample2.winner_arb; Sample.total_arb; Sample.total_arb]
      by (vm_compute; reflexivity).
    cbn [firstn]. left. reflexivity.
  - replace (sort_by_roi [Sample.total_arb; Sample2.winner_arb; Sample.total_arb])
      with [Sample2.winner_arb; Sample.total_arb; Sample.total_arb]
      by (vm_compute; reflexivity).
    cbn [skipn]. left. reflexivity.
Defined.

(** ** Sizing without capital *)

Lemma profit_floor_at_least_a_cent (arb_profit : Q) : (0.01 <= profit_floor arb_profit)%Q.
Proof.
  unfold profit_floor. destruct (Qltb 0 _); [|lra].
  destruct (max2_spec 0.01 (0.01 / (arb_profit * 0.95 + 0.001))) as (H & _). exact H.
Qed.

(** X15: with no money on one of the two venues the sizer still recommends
    a position: the smallest ceiling is then at most zero, below the
    profitability floor, so the size is the floor clamped to [0.01, 1.0] and
    never less than 0.01 share. *)
Theorem sizer_recommends_a_position_without_capital (ks_balance pm_balance : Q)
    (a : arb) (ks_markets pm_markets : list quotes) :
  (0 < a_cost a)%Q ->
  (ks_balance <= 0)%Q \/ (pm_balance <= 0)%Q ->
  let s := calculate_position_size ks_balance pm_balance a ks_markets pm_markets in
  (sz_max s <= 0)%Q /\
  (sz_size s == clamp 0.01 1.0 (sz_min s))%Q /\
  (0.01 <= sz_size s)%Q.
Proof.
  intros Hcost Hbal. cbv zeta.
  unfold calculate_position_size; cbn [sz_size sz_min sz_max].
  unfold capital_ceiling. apply Qltb_true in Hcost as Hltb. rewrite Hltb.
  set (l1 := ks_liquidity_ceiling _). set (l2 := pm_liquidity_ceiling _).
  set (c1 := (ks_balance * 0.5 / a_cost a)%Q). set (c2 := (pm_balance * 0.5 / a_cost a)%Q).
  set (fl := profit_floor _).
  pose proof (profit_floor_at_least_a_cent (a_profit a)) as Hfl. fold fl in Hfl.
  destruct (min2_spec (min2 l1 l2) c1) as (_ & B2 & _).
  destruct (min2_spec (min2 (min2 l1 l2) c1) c2) as (C1 & C2 & _).
  destruct (min2_spec (min2 (min2 (min2 l1 l2) c1) c2) MAX_POSITION) as (D1 & _ & _).
  set (m := min2 (min2 (min2 (min2 l1 l2) c1) c2) MAX_POSITION) in *.
  assert (Hm : (m <= 0)%Q).
  { destruct Hbal as [Hb | Hb].
    - assert (c1 <= 0)%Q; [|lra]. unfold c1. apply Qle_shift_div_r; [exact Hcost|]. lra.
    - assert (c2 <= 0)%Q; [|lra]. unfold c2. apply Qle_shift_div_r; [exact Hcost|]. lra. }
  split; [exact Hm|].
  assert (E : Qle_bool fl m = false) by (apply Qle_bool_false; lra).
  rewrite E. fold (clamp 0.01 1.0 fl).
  split; [reflexivity|].
  destruct (clamp_range 0.01 1.0 fl) as [L _]; [lra | exact L].
Qed.

Lemma sizer_recommends_a_position_without_capital_witness :
  (0.01 <= sz_size (calculate_position_size 0 100 Sample.total_arb
                      (map ks_quotes [Sample.ks_total]) (map pm_quotes [Sample.pm_total])))%Q.
Proof.
  apply (sizer_recommends_a_position_without_capital 0 100 Sample.total_arb
           (map ks_quotes [Sample.ks_total]) (map pm_quotes [Sample.pm_total])).
  - vm_compute. reflexivity.
  - left. vm_compute. discriminate.
Defined.

(** ** Strings: case, splitting and joining *)

Lemma lower_char_keeps_hyphen (c : ascii) :
  Ascii.eqb (Str.lower_char c) "-" = Ascii.eqb c "-".
Proof. destruct c as [[] [] [] [] [] [] [] []]; reflexivity. Qed.

Lemma upper_char_keeps_hyphen (c : ascii) :
  Ascii.eqb (Str.upper_char c) "-" = Ascii.eqb c "-".
Proof. destruct c as [[] [] [] [] [] [] [] []]; reflexivity. Qed.

Lemma lower_upper_char (c : ascii) : Str.lower_char (Str.upper_char c) = Str.lower_char c.
Proof. destruct c as [[] [] [] [] [] [] [] []]; reflexivity. Qed.

Lemma lower_lower_char (c : ascii) : Str.lower_char (Str.lower_char c) = Str.lower_char c.
Proof. destruct c as [[] [] [] [] [] [] [] []]; reflexivity. Qed.

Lemma upper_char_digit (c : ascii) :
  Str.is_digit c = true -> Str.is_digit (Str.upper_char c) = true.
Proof. destruct c as [[] [] [] [] [] [] [] []]; cbv; congruence. Qed.

Lemma upper_char_letter (c : ascii) :
  Text.is_letter c = true -> Str.is_upper (Str.upper_char c) = true.
Proof. destruct c as [[] [] [] [] [] [] [] []]; cbv; congruence. Qed.

Lemma lower_upper (s : string) : Str.lower (Str.upper s) = Str.lower s.
Proof. induction s as [|c s IH]; cbn; [reflexivity|]. now rewrite lower_upper_char, IH. Qed.

Lemma lower_lower (s : string) : Str.lower (Str.lower s) = Str.lower s.
Proof. induction s as [|c s IH]; cbn; [reflexivity|]. now rewrite lower_lower_char, IH. Qed.

Lemma upper_app (a b : string) : Str.upper (a +:+ b) = Str.upper a +:+ Str.upper b.
Proof.
  induction a as [|c a IH]; [reflexivity|].
  change (Str.upper (String c (a +:+ b))
          = String (Str.upper_char c) (Str.upper a +:+ Str.upper b)).
  cbn [Str.upper]. f_equal. exact IH.
Qed.

Lemma upper_length (s : string) : String.length (Str.upper s) = String.length s.
Proof. induction s as [|c s IH]; cbn; [reflexivity|]. now rewrite IH. Qed.

Lemma lower_length (s : string) : String.length (Str.lower s) = String.length s.
Proof. induction s as [|c s IH]; cbn; [reflexivity|]. now rewrite IH. Qed.

Lemma split_lower (s : string) :
  Str.split "-" (Str.lower s) = map Str.lower (Str.split "-" s).
Proof.
  induction s as [|c s IH]; [reflexivity|].
  cbn [Str.lower Str.split]. rewrite lower_char_keeps_hyphen, IH.
  destruct (Ascii.eqb c "-"); [reflexivity|].
  destruct (Str.split "-" s); reflexivity.
Qed.

Lemma split_upper (s : string) :
  Str.split "-" (Str.upper s) = map Str.upper (Str.split "-" s).
Proof.
  induction s as [|c s IH]; [reflexivity|].
  cbn [Str.upper Str.split]. rewrite upper_char_keeps_hyphen, IH.
  destruct (Ascii.eqb c "-"); [reflexivity|].
  destruct (Str.split "-" s); reflexivity.
Qed.

Lemma split_not_nil (sep : ascii) (s : string) : Str.split sep s <> [].
Proof.
  destruct s as [|c s]; cbn; [discriminate|].
  destruct (Ascii.eqb c sep); [discriminate|].
  destruct (Str.split sep s); discriminate.
Qed.

Lemma split_without_sep (sep : ascii) (s : string) :
  Text.lacks sep s = true -> Str.split sep s = [s].
Proof.
  unfold Text.lacks. induction s as [|c s IH]; cbn; [reflexivity|].
  intros H. apply andb_true_iff in H as [Hc Hs].
  apply negb_true_iff in Hc. rewrite Hc, (IH Hs). reflexivity.
Qed.

Lemma split_app (sep : ascii) (a b : string) :
  Text.lacks sep a = true ->
  Str.split sep (a +:+ String sep b) = a :: Str.split sep b.
Proof.
  unfold Text.lacks. induction a as [|c a IH].
  - intros _. change ("" +:+ String sep b) with (String sep b).
    cbn [Str.split]. rewrite Ascii.eqb_refl. reflexivity.
  - intros H. cbn [Text.all_chars] in H. apply andb_true_iff in H as [Hc Ha].
    apply negb_true_iff in Hc.
    change (String c a +:+ String sep b) with (String c (a +:+ String sep b)).
    cbn [Str.split]. rewrite Hc, (IH Ha). reflexivity.
Qed.

(** splitting undoes joining *)
Lemma split_join (sep : ascii) (parts : list string) :
  parts <> [] ->
  Forall (fun p => Text.lacks sep p = true) parts ->
  Str.split sep (Text.join (String sep EmptyString) parts) = parts.
Proof.
  intros Hne Hall. induction Hall as [|p rest Hp Hrest IH]; [congruence|].
  destruct rest as [|q rest].
  - cbn. apply split_without_sep, Hp.
  - change (Text.join (String sep "") (p :: q :: rest))
      with (p +:+ String sep (Text.join (String sep "") (q :: rest))).
    rewrite split_app by exact Hp. rewrite IH by discriminate. reflexivity.
Qed.

Lemma lacks_lower (s : string) :
  Text.lacks "-" s = true -> Text.lacks "-" (Str.lower s) = true.
Proof.
  unfold Text.lacks. induction s as [|c s IH]; cbn; [auto|].
  rewrite lower_char_keeps_hyphen. intros H. apply andb_true_iff in H as [-> Hs].
  cbn. auto.
Qed.

Lemma lacks_upper (s : string) :
  Text.lacks "-" s = true -> Text.lacks "-" (Str.upper s) = true.
Proof.
  unfold Text.lacks. induction s as [|c s IH]; cbn; [auto|].
  rewrite upper_char_keeps_hyphen. intros H. apply andb_true_iff in H as [-> Hs].
  cbn. auto.
Qed.

Lemma lacks_app (c : ascii) (a b : string) :
  Text.lacks c (a +:+ b) = Text.lacks c a && Text.lacks c b.
Proof.
  unfold Text.lacks. induction a as [|x a IH]; [reflexivity|].
  change (String x a +:+ b) with (String x (a +:+ b)).
  cbn [Text.all_chars]. rewrite IH. apply andb_assoc.
Qed.

Lemma sorted2_comm (a b : string) : Text.sorted2 a b = Text.sorted2 b a.
Proof.
  unfold Text.sorted2, String.ltb.
  rewrite (String.compare_antisym b a).
  destruct (String.compare a b) eqn:E; cbn; try reflexivity.
  apply String.compare_eq_iff in E. now subst.
Qed.

Lemma team_pair_key_comm (a b : string) : team_pair_key a b = team_pair_key b a.
Proof. unfold team_pair_key. now rewrite sorted2_comm. Qed.

Lemma normalize_team_abbrev_case (s : string) :
  normalize_team_abbrev (Str.upper s) = normalize_team_abbrev s
  /\ normalize_team_abbrev (Str.lower s) = normalize_team_abbrev s.
Proof. unfold normalize_team_abbrev. now rewrite lower_upper, lower_lower. Qed.

(** ** Game keys *)

Lemma string_length_app (a b : string) :
  String.length (a +:+ b) = (String.length a + String.length b)%nat.
Proof.
  induction a as [|c a IH]; [reflexivity|].
  change (String c a +:+ b) with (String c (a +:+ b)). cbn. now rewrite IH.
Qed.

Lemma take_app (a b : string) : Str.take (String.length a) (a +:+ b) = a.
Proof.
  unfold Str.take. induction a as [|c a IH].
  - destruct b; reflexivity.
  - change (String c a +:+ b) with (String c (a +:+ b)). cbn. now rewrite IH.
Qed.

Lemma drop_app (a b : string) : Text.drop (String.length a) (a +:+ b) = b.
Proof.
  induction a as [|c a IH]; [reflexivity|].
  change (String c a +:+ b) with (String c (a +:+ b)). cbn. exact IH.
Qed.

Lemma drop_length (k : nat) (s : string) :
  String.length (Text.drop k s) = (String.length s - k)%nat.
Proof.
  revert s. induction k as [|k IH]; intros s.
  - cbn. lia.
  - destruct s as [|c s]; cbn; [reflexivity|]. apply IH.
Qed.

Lemma take_nonempty (k : nat) (s : string) :
  (0 < k)%nat -> s <> "" -> Str.take k s <> "".
Proof.
  intros Hk Hs. destruct k as [|k]; [lia|]. destruct s as [|c s]; [congruence|].
  unfold Str.take. cbn. discriminate.
Qed.

Lemma nonempty_length (s : string) : s <> "" <-> (0 < String.length s)%nat.
Proof. destruct s; cbn; split; intros H; try congruence; try lia. Qed.

Lemma literal_get_In {V} (k : string) (d : list (string * V)) (v : V) :
  literal_get k d = Some v -> In v (map snd d).
Proof.
  unfold literal_get.
  assert (G : forall acc,
             fold_left (fun acc kv => if String.eqb (fst kv) k
                                      then Some (snd kv) else acc) d acc = Some v ->
             acc = Some v \/ In v (map snd d)).
  { induction d as [|kv d IH]; intros acc H; [left; exact H|].
    cbn [fold_left] in H. apply IH in H as [H | H].
    - destruct (String.eqb (fst kv) k).
      + right. left. congruence.
      + left. exact H.
    - right. right. exact H. }
  intros H. apply G in H as [H | H]; [discriminate | exact H].
Qed.

Lemma normalize_team_abbrev_nonempty (s : string) :
  s <> "" -> normalize_team_abbrev s <> "".
Proof.
  intros Hs. unfold normalize_team_abbrev.
  assert (Hl : Str.lower s <> "") by (destruct s; [congruence | discriminate]).
  destruct (literal_get (Str.lower s) ABBREV_MAP) as [v|] eqn:E; [|exact Hl].
  apply literal_get_In in E. cbn in E.
  repeat destruct E as [<- | E]; try discriminate. destruct E.
Qed.

Lemma app_sep_nonempty (x y : string) (c : ascii) :
  String.eqb (x +:+ String c y) "" = false.
Proof. destruct x; reflexivity. Qed.

Lemma digit_is_no_hyphen (c : ascii) :
  Str.is_digit c = true -> negb (Ascii.eqb c "-") = true.
Proof. destruct c as [[] [] [] [] [] [] [] []]; cbv; congruence. Qed.

Lemma letter_is_no_hyphen (c : ascii) :
  Text.is_letter c = true -> negb (Ascii.eqb c "-") = true.
Proof. destruct c as [[] [] [] [] [] [] [] []]; cbv; congruence. Qed.

Lemma is_date_lacks_hyphen (d : string) :
  Text.is_date d = true -> Text.lacks "-" d = true.
Proof.
  destruct d as [|c1 [|c2 [|c3 [|c4 [|c5 [|c6 [|c7 [|c8 d]]]]]]]];
    cbn; try discriminate.
  intros H. do 6 (apply andb_true_iff in H as [H ?]).
  unfold Text.lacks. cbn [Text.all_chars].
  rewrite (digit_is_no_hyphen c1), (digit_is_no_hyphen c2),
    (letter_is_no_hyphen c3), (letter_is_no_hyphen c4), (letter_is_no_hyphen c5),
    (digit_is_no_hyphen c6), (digit_is_no_hyphen c7) by assumption.
  reflexivity.
Qed.

(** the date prefix of a ticker's last part is removed, whatever its case *)
Lemma strip_date_app (d rest : string) :
  Text.is_date d = true -> strip_date (Str.upper d +:+ rest) = rest.
Proof.
  destruct d as [|c1 [|c2 [|c3 [|c4 [|c5 [|c6 [|c7 [|c8 d]]]]]]]];
    cbn [Text.is_date]; try discriminate.
  intros H. do 6 (apply andb_true_iff in H as [H ?]).
  cbn [Str.upper].
  change (strip_date (String (Str.upper_char c1) (String (Str.upper_char c2)
            (String (Str.upper_char c3) (String (Str.upper_char c4)
            (String (Str.upper_char c5) (String (Str.upper_char c6)
            (String (Str.upper_char c7) rest))))))) = rest).
  cbn [strip_date].
  rewrite (upper_char_digit c1), (upper_char_digit c2),
    (upper_char_letter c3), (upper_char_letter c4), (upper_char_letter c5),
    (upper_char_digit c6), (upper_char_digit c7) by assumption.
  reflexivity.
Qed.

(** a ticker [series-<date><teams>] is reduced to its team letters *)
Lemma kalshi_key_of_ticker (series date teams title : string) :
  Text.lacks "-" series = true ->
  Text.is_date date = true ->
  Text.lacks "-" teams = true ->
  extract_kalshi_game_key (series +:+ "-" +:+ date +:+ teams) title
  = split_teams (Str.upper teams).
Proof.
  intros Hs Hd Ht. unfold extract_kalshi_game_key.
  change (series +:+ "-" +:+ date +:+ teams)
    with (series +:+ String "-" (date +:+ teams)).
  rewrite app_sep_nonempty. cbn [andb negb].
  rewrite upper_app.
  change (Str.upper (String "-" (date +:+ teams)))
    with (String "-" (Str.upper (date +:+ teams))).
  rewrite split_app by (apply lacks_upper, Hs).
  rewrite split_without_sep.
  2:{ apply lacks_upper. rewrite lacks_app, Ht, (is_date_lacks_hyphen _ Hd).
      reflexivity. }
  cbn [length Nat.leb List.last]. rewrite upper_app, strip_date_app by exact Hd.
  reflexivity.
Qed.

(** the documented team shapes are cut where the two codes meet *)
Lemma split_teams_documented (a b : string) :
  (String.length a = 3 /\ String.length b = 3)%nat
  \/ (String.length a = 3 /\ String.length b = 2)%nat
  \/ (String.length a = 4 /\ String.length b = 3)%nat
  \/ (String.length a = 4 /\ String.length b = 4)%nat ->
  split_teams (a +:+ b)
  = Some (team_pair_key (normalize_team_abbrev a) (normalize_team_abbrev b)).
Proof.
  intros H. unfold split_teams. rewrite string_length_app.
  destruct H as [[Ha Hb] | [[Ha Hb] | [[Ha Hb] | [Ha Hb]]]];
    rewrite Ha, Hb; cbn [Nat.add Nat.leb Nat.eqb];
    rewrite <- Ha, take_app, drop_app; reflexivity.
Qed.

Lemma polymarket_key_of_slug (sport a b y m d : string) :
  Forall (fun p => Text.lacks "-" p = true) [sport; a; b; y; m; d] ->
  extract_polymarket_game_key (Text.join "-" [sport; a; b; y; m; d])
  = Some (team_pair_key (normalize_team_abbrev a) (normalize_team_abbrev b)).
Proof.
  intros Hall. unfold extract_polymarket_game_key.
  rewrite split_lower, (split_join "-" [sport; a; b; y; m; d]) by
    (discriminate || exact Hall).
  change (Text.join "-" [sport; a; b; y; m; d])
    with (sport +:+ String "-" (Text.join "-" [a; b; y; m; d])).
  rewrite app_sep_nonempty. cbn.
  now rewrite !(proj2 (normalize_team_abbrev_case _)).
Qed.

(** X16: a Polymarket slug yields a game key exactly when it has at least six
    hyphen-separated parts (the four the code tests for are not enough), and
    the key is then built from the second and third part only, lower-cased
    and normalised, whatever stands between them and the date. *)
Theorem polymarket_key_needs_six_parts (event_slug : string) :
  let parts := Str.split "-" event_slug in
  ((length parts < 6)%nat -> extract_polymarket_game_key event_slug = None)
  /\ ((6 <= length parts)%nat ->
      extract_polymarket_game_key event_slug
      = Some (team_pair_key (normalize_team_abbrev (nth 1 parts ""))
                            (normalize_team_abbrev (nth 2 parts "")))).
Proof.
  cbn zeta. unfold extract_polymarket_game_key.
  destruct (String.eqb_spec event_slug "") as [-> | _].
  { split; [reflexivity | cbn; lia]. }
  rewrite split_lower.
  destruct (Str.split "-" event_slug) as [|p0 [|p1 [|p2 [|p3 [|p4 [|p5 rest]]]]]];
    (split; [intros Hlt | intros Hge]); cbn in *; try reflexivity; try lia.
  now rewrite !(proj2 (normalize_team_abbrev_case _)).
Qed.

Lemma polymarket_key_needs_six_parts_witness :
  extract_polymarket_game_key "nfl-buf-den-01-17" = None
  /\ extract_polymarket_game_key "cbb-gcan-nmx-extra-2026-01-13" = Some "gcu-nm".
Proof.
  split.
  - apply (proj1 (polymarket_key_needs_six_parts "nfl-buf-den-01-17")).
    vm_compute. lia.
  - apply (proj2 (polymarket_key_needs_six_parts "cbb-gcan-nmx-extra-2026-01-13")).
    vm_compute. lia.
Defined.

(** X17: the Kalshi game key is read from the event ticker alone: the title
    never changes the result, and no key is produced exactly when the
    upper-cased ticker has no hyphen or fewer than four characters are left of
    its last part after the date.  In particular the emptiness test of the
    middle-split strategy never fails. *)
Theorem kalshi_key_from_ticker_only (event_ticker title other_title : string) :
  extract_kalshi_game_key event_ticker title
  = extract_kalshi_game_key event_ticker other_title
  /\ let parts := Str.split "-" (Str.upper event_ticker) in
     (extract_kalshi_game_key event_ticker title = None
      <-> (length parts < 2)%nat
          \/ (String.length (strip_date (List.last parts "")) < 4)%nat).
Proof.
  split.
  { unfold extract_kalshi_game_key.
    destruct (String.eqb event_ticker ""); [|reflexivity].
    cbn. destruct (String.eqb title ""), (String.eqb other_title ""); reflexivity. }
  cbn zeta. unfold extract_kalshi_game_key.
  destruct (String.eqb_spec event_ticker "") as [-> | _].
  { cbn. destruct (String.eqb title ""); split; auto; intros _; left; lia. }
  cbn [andb negb].
  set (parts := Str.split "-" (Str.upper event_ticker)).
  destruct (Nat.leb_spec 2 (length parts)) as [Hp | Hp].
  2:{ split; [intros _; left; lia | reflexivity]. }
  set (teams_only := strip_date (List.last parts "")).
  unfold split_teams.
  destruct (Nat.leb_spec 4 (String.length teams_only)) as [Hn | Hn].
  2:{ split; [intros _; right; exact Hn | reflexivity]. }
  split; [|intros [H | H]; lia].
  intros H. exfalso. revert H.
  repeat match goal with
  | |- context [if (?x =? ?y)%nat then _ else _] =>
      destruct (Nat.eqb_spec x y); [discriminate|]
  end.
  cbn zeta.
  assert (Hmid : (2 <= String.length teams_only / 2)%nat)
    by (apply Nat.div_le_lower_bound; lia).
  assert (Hlt : (String.length teams_only / 2 < String.length teams_only)%nat)
    by (apply Nat.div_lt; lia).
  assert (H1 : normalize_team_abbrev
                 (Str.take (String.length teams_only / 2) teams_only) <> "").
  { apply normalize_team_abbrev_nonempty, take_nonempty; [lia|].
    apply nonempty_length. lia. }
  assert (H2 : normalize_team_abbrev
                 (Text.drop (String.length teams_only / 2) teams_only) <> "").
  { apply normalize_team_abbrev_nonempty, nonempty_length.
    rewrite drop_length. lia. }
  apply String.eqb_neq in H1, H2. rewrite H1, H2. discriminate.
Qed.

(** X18: for the documented ticker shapes the two venues agree on the game.
    A Kalshi ticker [series-<date><A><B>] (date of two digits, three letters,
    two digits; team codes of 3+3, 3+2, 4+3 or 4+4 characters) and a
    Polymarket slug [sport-a-b-yyyy-mm-dd] naming the same two codes, in
    either order and in any letter case, yield the same game key. *)
Theorem venues_agree_on_game_key
    (series date a b title sport y m d : string) :
  Text.lacks "-" series = true ->
  Text.is_date date = true ->
  Forall (fun p => Text.lacks "-" p = true) [sport; a; b; y; m; d] ->
  (String.length a = 3 /\ String.length b = 3)%nat
  \/ (String.length a = 3 /\ String.length b = 2)%nat
  \/ (String.length a = 4 /\ String.length b = 3)%nat
  \/ (String.length a = 4 /\ String.length b = 4)%nat ->
  let key := extract_kalshi_game_key (series +:+ "-" +:+ date +:+ a +:+ b) title in
  key <> None
  /\ extract_polymarket_game_key (Text.join "-" [sport; a; b; y; m; d]) = key
  /\ extract_polymarket_game_key (Text.join "-" [sport; b; a; y; m; d]) = key.
Proof.
  intros Hs Hd Hall Hlen key. subst key.
  assert (Hparts : Text.lacks "-" sport = true /\ Text.lacks "-" a = true
                   /\ Text.lacks "-" b = true /\ Text.lacks "-" y = true
                   /\ Text.lacks "-" m = true /\ Text.lacks "-" d = true).
  { repeat (apply Forall_cons_1 in Hall as [? Hall]). tauto. }
  destruct Hparts as (? & ? & ? & ? & ? & ?).
  assert (Hall' : Forall (fun p => Text.lacks "-" p = true) [sport; a; b; y; m; d])
    by (repeat constructor; assumption).
  rewrite (kalshi_key_of_ticker series date (a +:+ b) title Hs Hd)
    by (rewrite lacks_app; apply andb_true_iff; split; assumption).
  rewrite upper_app, split_teams_documented
    by (rewrite !upper_length; exact Hlen).
  rewrite !(proj1 (normalize_team_abbrev_case _)).
  split; [discriminate|]. split.
  - apply polymarket_key_of_slug, Hall'.
  - rewrite polymarket_key_of_slug by (repeat constructor; assumption).
    now rewrite team_pair_key_comm.
Qed.

Lemma venues_agree_on_game_key_witness :
  extract_polymarket_game_key "nfl-buf-den-2026-01-17"
  = extract_kalshi_game_key "KXNFLGAME-26JAN17BUFDEN" "Buffalo at Denver"
  /\ extract_polymarket_game_key "nfl-den-buf-2026-01-17"
     = extract_kalshi_game_key "KXNFLGAME-26JAN17BUFDEN" "Buffalo at Denver".
Proof.
  pose proof (venues_agree_on_game_key "KXNFLGAME" "26JAN17" "BUF" "DEN"
                "Buffalo at Denver" "nfl" "2026" "01" "17"
                ltac:(reflexivity) ltac:(reflexivity)
                ltac:(repeat constructor)
                ltac:(left; split; reflexivity)) as [_ [H1 H2]].
  split.
  - exact H1.
  - exact H2.
Defined.

(** ** The Kalshi fetch *)

Lemma games_append_In {M} (key : string) (v : M) (g : games M) k l :
  In (k, l) (games_append key v g) ->
  In (k, l) g \/ (k = key /\ exists l0, l = l0 ++ [v] /\ (l0 = [] \/ In (key, l0) g)).
Proof.
  induction g as [|[k' l'] g IH]; cbn.
  - intros [H | []]. injection H as <- <-. right. split; [reflexivity|].
    exists []. split; [reflexivity | now left].
  - destruct (decide (k' = key)) as [-> | Hne]; cbn.
    + intros [H | H].
      * injection H as <- <-. right. split; [reflexivity|].
        exists l'. split; [reflexivity|]. right. now left.
      * left. now right.
    + intros [H | H]; [left; now left|].
      apply IH in H as [H | (-> & l0 & -> & [-> | H])].
      * left. now right.
      * right. split; [reflexivity|]. exists []. split; [reflexivity | now left].
      * right. split; [reflexivity|]. exists l0. split; [reflexivity|].
        right. now right.
Qed.

Lemma games_append_keys {M} (key : string) (v : M) (g : games M) k :
  In k (map fst (games_append key v g)) <-> k = key \/ In k (map fst g).
Proof.
  induction g as [|[k' l'] g IH]; cbn.
  - intuition congruence.
  - destruct (decide (k' = key)) as [-> | Hne]; cbn; [intuition congruence|].
    rewrite IH. intuition congruence.
Qed.

Lemma games_append_NoDup {M} (key : string) (v : M) (g : games M) :
  List.NoDup (map fst g) -> List.NoDup (map fst (games_append key v g)).
Proof.
  induction g as [|[k' l'] g IH]; cbn; intros Hnd.
  - constructor; [intros [] | constructor].
  - destruct (decide (k' = key)) as [-> | Hne]; cbn; [exact Hnd|].
    inversion Hnd as [|? ? Hnin Hnd']; subst. constructor; [|apply IH, Hnd'].
    rewrite games_append_keys. intros [-> | H]; [congruence | contradiction].
Qed.

Lemma games_append_inv {M} (Q : string -> M -> Prop) key v (g : games M) :
  games_inv Q g -> Q key v -> games_inv Q (games_append key v g).
Proof.
  intros [Hnd Hall] Hv. split.
  - apply games_append_NoDup, Hnd.
  - intros k l Hin. apply games_append_In in Hin as [Hin | (-> & l0 & -> & Hl0)].
    + exact (Hall _ _ Hin).
    + split; [destruct l0; discriminate|].
      intros m [Hm | [<- | []]]%in_app_iff; [|exact Hv].
      destruct Hl0 as [-> | Hl0]; [destruct Hm|].
      exact (proj2 (Hall _ _ Hl0) _ Hm).
Qed.

Lemma get_kalshi_games_inv (Q : string -> ks_market -> Prop) credentials responses :
  (forall series sport_type m key entry,
     In (series, sport_type) series_configs ->
     kalshi_entry sport_type m = Some (key, entry) -> Q key entry) ->
  games_inv Q (get_kalshi_games credentials responses).
Proof.
  intros HQ. unfold get_kalshi_games.
  assert (H0 : games_inv Q ([] : games ks_market)).
  { split; [constructor | intros ? ? []]. }
  destruct credentials; cbn [negb]; [|exact H0].
  revert HQ. generalize series_configs as cfg. intros cfg.
  generalize dependent ([] : games ks_market).
  induction cfg as [|[series sport_type] cfg IH]; intros g Hg HQ; cbn [fold_left].
  - exact Hg.
  - apply IH; [|intros; eapply HQ; [right|]; eassumption].
    destruct (responses series) as [markets|]; [|exact Hg].
    assert (HQ' : forall m key entry,
              kalshi_entry sport_type m = Some (key, entry) -> Q key entry).
    { intros. eapply HQ; [left; reflexivity | eassumption]. }
    clear IH HQ. revert g Hg.
    induction markets as [|m markets IHm]; intros g Hg; cbn [fold_left]; [exact Hg|].
    apply IHm. destruct (kalshi_entry sport_type m) as [[key entry]|] eqn:E;
      [|exact Hg].
    apply games_append_inv; [exact Hg | eapply HQ', E].
Qed.

Lemma kalshi_entry_facts sport_type m key entry :
  kalshi_entry sport_type m = Some (key, entry) ->
  (k_yes entry + k_no entry == 1)%Q
  /\ (exists game,
        key = sport_type +:+ ":" +:+ game
        /\ extract_kalshi_game_key (k_event_ticker entry) (k_title entry) = Some game)
  /\ Str.lower (k_title entry) = k_title entry
  /\ Str.contains "," (k_title entry) = false
  /\ k_title entry <> "".
Proof.
  unfold kalshi_entry. intros H.
  destruct (String.eqb (kj_event_ticker m) "" || String.eqb (Str.lower (kj_title m)) "")
    eqn:E0; [discriminate|].
  apply orb_false_iff in E0 as [_ Et].
  destruct (extract_kalshi_game_key _ _) as [game|] eqn:Ek; [|discriminate].
  destruct (String.eqb game ""); [discriminate|].
  destruct (Str.contains "," _) eqn:Ec; [discriminate|].
  destruct (existsb _ partial_game_words); [discriminate|].
  destruct (existsb _ prop_words); [discriminate|].
  destruct (negb _); [discriminate|].
  injection H as <- <-. cbn [k_yes k_no k_title k_event_ticker].
  repeat split.
  - field.
  - exists game. split; [reflexivity | exact Ek].
  - apply lower_lower.
  - exact Ec.
  - apply String.eqb_neq, Et.
Qed.

Lemma tagged_key_has_teams (sport_type game : string) :
  In sport_type ["nfl"; "cfb"; "cbb"; "nba"] ->
  exists teams, game_teams (sport_type +:+ ":" +:+ game) = Ok teams.
Proof.
  intros Hs. unfold game_teams.
  change (sport_type +:+ ":" +:+ game) with (sport_type +:+ String ":" game).
  rewrite split_app
    by (cbn in Hs; repeat destruct Hs as [<- | Hs]; (reflexivity || destruct Hs)).
  pose proof (split_not_nil ":" game) as Hne.
  destruct (Str.split ":" game) as [|w ws]; [congruence|].
  cbn. eauto.
Qed.

Lemma series_configs_sports series sport_type :
  In (series, sport_type) series_configs ->
  In sport_type ["nfl"; "cfb"; "cbb"; "nba"].
Proof.
  unfold series_configs. cbn. intros H.
  repeat destruct H as [H | H]; try (injection H as <- <-); cbn; tauto.
Qed.

(** X19: every market the Kalshi fetch stores has prices that add up to one
    (the NO price is derived from the YES ask, never read), a lower-case,
    non-empty title without a comma, and sits under the key
    [sport:game] of the game its event ticker encodes, for one of the four
    sports. *)
Theorem kalshi_fetch_entries credentials responses key markets m :
  In (key, markets) (get_kalshi_games credentials responses) ->
  In m markets ->
  (k_yes m + k_no m == 1)%Q
  /\ (exists sport_type game,
        key = sport_type +:+ ":" +:+ game
        /\ In sport_type ["nfl"; "cfb"; "cbb"; "nba"]
        /\ extract_kalshi_game_key (k_event_ticker m) (k_title m) = Some game)
  /\ Str.lower (k_title m) = k_title m
  /\ Str.contains "," (k_title m) = false
  /\ k_title m <> "".
Proof.
  intros Hin Hm.
  pose proof (get_kalshi_games_inv
    (fun key m =>
       (k_yes m + k_no m == 1)%Q
       /\ (exists sport_type game,
             key = sport_type +:+ ":" +:+ game
             /\ In sport_type ["nfl"; "cfb"; "cbb"; "nba"]
             /\ extract_kalshi_game_key (k_event_ticker m) (k_title m) = Some game)
       /\ Str.lower (k_title m) = k_title m
       /\ Str.contains "," (k_title m) = false
       /\ k_title m <> "") credentials responses) as [_ Hall].
  - intros series sport_type m' key' entry Hcfg He.
    apply kalshi_entry_facts in He as (Hsum & (game & Hk & Hg) & Hl & Hc & Hne).
    repeat split; try assumption.
    exists sport_type, game. repeat split; try assumption.
    eapply series_configs_sports, Hcfg.
  - exact (proj2 (Hall _ _ Hin) _ Hm).
Qed.

Lemma kalshi_fetch_entries_witness :
  exists m,
    In ("nfl:buf-den", [m]) (get_kalshi_games true Sample2.kalshi_responses)
    /\ k_title m = "buffalo bills winner?"
    /\ (k_yes m + k_no m == 1)%Q.
Proof.
  eexists. split; [vm_compute; left; reflexivity|]. split; [reflexivity|].
  eapply (kalshi_fetch_entries true Sample2.kalshi_responses "nfl:buf-den").
  - vm_compute. left. reflexivity.
  - left. reflexivity.
Defined.

(** X20: whatever the Kalshi responses hold, the fetch returns a dict in
    which no key is repeated and no game has an empty market list, and
    [find_arbs] runs to completion on it against any Polymarket games: the
    key lookup [game_key.split(':')[1]] cannot fail on a fetched key. *)
Theorem find_arbs_accepts_fetched_games credentials responses pm_games :
  let ks_games := get_kalshi_games credentials responses in
  List.NoDup (map fst ks_games)
  /\ (forall key markets, In (key, markets) ks_games -> markets <> [])
  /\ exists arbs, find_arbs ks_games pm_games = Ok arbs.
Proof.
  cbn zeta.
  pose proof (get_kalshi_games_inv
    (fun key _ => exists teams, game_teams key = Ok teams)
    credentials responses) as [Hnd Hall].
  - intros series sport_type m key entry Hcfg He.
    apply kalshi_entry_facts in He as (_ & (game & -> & _) & _).
    eapply tagged_key_has_teams, series_configs_sports, Hcfg.
  - split; [exact Hnd|]. split.
    + intros key markets Hin. exact (proj1 (Hall _ _ Hin)).
    + apply find_arbs_total. intros key markets Hin.
      destruct (Hall _ _ Hin) as [Hne Hm].
      destruct markets as [|m0 markets]; [congruence|].
      apply (Hm m0). now left.
Qed.

(** ** Rounding *)

Lemma round_half_even_bounds (n : Z) (d : positive) :
  let z := round_half_even (n # d) in
  (2 * (z * Zpos d - n) <= Zpos d /\ 2 * (n - z * Zpos d) <= Zpos d)%Z.
Proof.
  cbn zeta. unfold round_half_even. cbn [Qnum Qden].
  pose proof (Z.div_mod n (Zpos d) ltac:(discriminate)) as Hdm.
  pose proof (Z.mod_pos_bound n (Zpos d) ltac:(reflexivity)) as Hr.
  destruct (Z.compare_spec (2 * (n mod Zpos d)) (Zpos d));
    [destruct (Z.even (n / Zpos d))| |]; nia.
Qed.

Lemma round_half_even_le (x : Q) (k : Z) :
  (x <= inject_Z k)%Q -> (round_half_even x <= k)%Z.
Proof.
  destruct x as [n d]. unfold Qle, inject_Z, round_half_even. cbn [Qnum Qden].
  rewrite Z.mul_1_r. intros Hle.
  pose proof (Z.div_mod n (Zpos d) ltac:(discriminate)) as Hdm.
  pose proof (Z.mod_pos_bound n (Zpos d) ltac:(reflexivity)) as Hr.
  destruct (Z.compare_spec (2 * (n mod Zpos d)) (Zpos d));
    [destruct (Z.even (n / Zpos d))| |]; nia.
Qed.

Lemma round_half_even_ge (x : Q) (k : Z) :
  (inject_Z k <= x)%Q -> (k <= round_half_even x)%Z.
Proof.
  destruct x as [n d]. unfold Qle, inject_Z, round_half_even. cbn [Qnum Qden].
  rewrite Z.mul_1_r. intros Hle.
  pose proof (Z.div_mod n (Zpos d) ltac:(discriminate)) as Hdm.
  pose proof (Z.mod_pos_bound n (Zpos d) ltac:(reflexivity)) as Hr.
  destruct (Z.compare_spec (2 * (n mod Zpos d)) (Zpos d));
    [destruct (Z.even (n / Zpos d))| |]; nia.
Qed.

Lemma round_half_even_near (x : Q) :
  (inject_Z (round_half_even x) - x <= 1 # 2
   /\ x - inject_Z (round_half_even x) <= 1 # 2)%Q.
Proof.
  destruct x as [n d].
  pose proof (round_half_even_bounds n d) as [H1 H2]. cbn zeta in H1, H2.
  set (z := round_half_even (n # d)) in *.
  unfold Qle, Qminus, Qplus, Qopp, inject_Z. cbn [Qnum Qden].
  rewrite ?Pos.mul_1_l, ?Pos.mul_1_r, ?Z.mul_1_r, ?Z.mul_1_l. split; nia.
Qed.

Lemma round_to_2_scaled (x : Q) :
  (round_to 2 x * 100 == inject_Z (round_half_even (x * 100)))%Q.
Proof.
  unfold round_to. change (inject_Z (10 ^ Z.of_nat 2)) with 100%Q. field.
Qed.

(** rounding to cents does not cross a whole number of cents and moves a
    price by half a cent at most *)
Lemma round_to_2_spec (x : Q) :
  (forall k : Z, (x * 100 <= inject_Z k -> round_to 2 x * 100 <= inject_Z k)%Q)
  /\ (forall k : Z, (inject_Z k <= x * 100 -> inject_Z k <= round_to 2 x * 100)%Q)
  /\ (x - 0.005 <= round_to 2 x /\ round_to 2 x <= x + 0.005)%Q.
Proof.
  pose proof (round_to_2_scaled x) as E.
  pose proof (round_half_even_near (x * 100)) as [N1 N2].
  repeat split.
  - intros k Hk. rewrite E, <- Zle_Qle. apply round_half_even_le, Hk.
  - intros k Hk. rewrite E, <- Zle_Qle. apply round_half_even_ge, Hk.
  - lra.
  - lra.
Qed.

(** ** Order placement *)

Lemma taker_terms_buy (orderbook : order_book) (quantity taker_price size : Q)
    (order_side : order_side) :
  taker_terms orderbook quantity false = inr (taker_price, size, order_side) ->
  exists best,
    hd_error (ob_asks orderbook) = Some best
    /\ order_side = BUY /\ size = quantity
    /\ (taker_price <= 0.99)%Q
    /\ (1 <= taker_price * quantity)%Q
    /\ (quantity <= l_size best)%Q
    /\ (taker_price <= l_price best + 0.015)%Q
    /\ ((l_price best <= 0.99)%Q -> (l_price best <= taker_price)%Q).
Proof.
  unfold taker_terms. destruct (ob_asks orderbook) as [|best rest]; [discriminate|].
  set (x := min2 (l_price best + 0.01) 0.99).
  destruct (Qltb (round_to 2 x * quantity) 1.0) eqn:Ev; [discriminate|].
  destruct (Qltb (l_size best) quantity) eqn:El; [discriminate|].
  intros H. injection H as <- <- <-.
  apply Qltb_false in Ev, El.
  destruct (round_to_2_spec x) as (Hup & Hlo & Hn1 & Hn2).
  destruct (min2_spec (l_price best + 0.01) 0.99) as (Hm1 & Hm2 & Hm3).
  fold x in Hm1, Hm2, Hm3.
  assert (Hi : (inject_Z 99 == 99)%Q) by reflexivity.
  assert (H99 : (round_to 2 x * 100 <= inject_Z 99)%Q) by (apply Hup; lra).
  exists best. repeat split; try assumption; try lra.
  intros Hb. destruct Hm3 as [Hm3 | Hm3].
  - assert (Hq : (x == l_price best + 0.01)%Q) by (rewrite Hm3; reflexivity). lra.
  - assert (Hq : (x == 0.99)%Q) by (rewrite Hm3; reflexivity).
    assert (H99' : (inject_Z 99 <= round_to 2 x * 100)%Q) by (apply Hlo; lra).
    lra.
Qed.

Lemma taker_terms_sell (orderbook : order_book) (quantity taker_price size : Q)
    (order_side : order_side) :
  taker_terms orderbook quantity true = inr (taker_price, size, order_side) ->
  exists best,
    hd_error (ob_bids orderbook) = Some best
    /\ order_side = SELL /\ size = quantity
    /\ (0.01 <= taker_price)%Q
    /\ (quantity <= l_size best)%Q
    /\ ((0.01 <= l_price best)%Q -> (taker_price <= l_price best)%Q).
Proof.
  unfold taker_terms. destruct (ob_bids orderbook) as [|best rest]; [discriminate|].
  set (x := max2 (l_price best - 0.01) 0.01).
  destruct (Qltb (l_size best) quantity) eqn:El; [discriminate|].
  intros H. injection H as <- <- <-.
  apply Qltb_false in El.
  destruct (round_to_2_spec x) as (Hup & Hlo & Hn1 & Hn2).
  destruct (max2_spec (l_price best - 0.01) 0.01) as (Hm1 & Hm2 & Hm3).
  fold x in Hm1, Hm2, Hm3.
  assert (Hi : (inject_Z 1 == 1)%Q) by reflexivity.
  assert (H1 : (inject_Z 1 <= round_to 2 x * 100)%Q) by (apply Hlo; lra).
  exists best. repeat split; try assumption; try lra.
  intros Hb. destruct Hm3 as [Hm3 | Hm3].
  - assert (Hq : (x == l_price best - 0.01)%Q) by (rewrite Hm3; reflexivity). lra.
  - assert (Hq : (x == 0.01)%Q) by (rewrite Hm3; reflexivity).
    assert (H1' : (round_to 2 x * 100 <= inject_Z 1)%Q) by (apply Hup; lra).
    lra.
Qed.

Lemma place_polymarket_order_posted c market_id side quantity price is_sell r posted o :
  place_polymarket_order c market_id side quantity price is_sell = (r, posted) ->
  In o posted ->
  exists token_id orderbook order_side,
    token_of market_id side = Ok token_id
    /\ cl_get_order_book c token_id = Some orderbook
    /\ taker_terms orderbook quantity is_sell = inr (oa_price o, quantity, order_side)
    /\ oa_token_id o = token_id
    /\ oa_side o = order_side
    /\ oa_size o = round_to 4 quantity
    /\ posted = [o].
Proof.
  unfold place_polymarket_order. intros H Hin.
  destruct (cl_client c); cbn [negb] in H; [|injection H as <- <-; destruct Hin].
  destruct (token_of market_id side) as [token_id|]; [|injection H as <- <-; destruct Hin].
  destruct (cl_get_order_book c token_id) as [orderbook|] eqn:Eb;
    [|injection H as <- <-; destruct Hin].
  destruct (taker_terms orderbook quantity is_sell) as [e | [[tp size] sd]] eqn:Et;
    [injection H as <- <-; destruct Hin|].
  assert (Hsize : size = quantity).
  { destruct is_sell.
    - apply taker_terms_sell in Et as (? & _ & _ & -> & _). reflexivity.
    - apply taker_terms_buy in Et as (? & _ & _ & -> & _). reflexivity. }
  subst size.
  destruct (cl_post_order c _); injection H as <- <-;
    destruct Hin as [<- | []]; exists token_id, orderbook, sd; cbn; auto 10.
Qed.





(** X23: with the two-contract test size the Polymarket buy is posted only at
    fifty cents or more, that is, only when the best ask of the fresh book is
    at least 0.485: cheaper legs are refused for the one-dollar minimum. *)
Theorem test_size_buy_needs_half_a_dollar c market_id side price r posted o :
  place_polymarket_order c market_id side TEST_ORDER_SIZE price false = (r, posted) ->
  In o posted ->
  (0.50 <= oa_price o)%Q
  /\ exists token_id orderbook best,
       token_of market_id side = Ok token_id
       /\ cl_get_order_book c token_id = Some orderbook
       /\ hd_error (ob_asks orderbook) = Some best
       /\ (0.485 <= l_price best)%Q.
Proof.
  intros H Hin.
  destruct (place_polymarket_order_posted _ _ _ _ _ _ _ _ _ H Hin)
    as (token_id & orderbook & sd & Ht & Hb & Hterms & _).
  unfold taker_terms in Hterms.
  destruct (ob_asks orderbook) as [|best rest] eqn:Ea; [discriminate|].
  set (x := min2 (l_price best + 0.01) 0.99) in Hterms.
  destruct (Qltb (round_to 2 x * TEST_ORDER_SIZE) 1.0) eqn:Ev; [discriminate|].
  destruct (Qltb (l_size best) TEST_ORDER_SIZE); [discriminate|].
  injection Hterms as Hprice _. apply Qltb_false in Ev.
  destruct (round_to_2_spec x) as (_ & _ & _ & Hn).
  destruct (min2_spec (l_price best + 0.01) 0.99) as (Hm & _). fold x in Hm.
  unfold TEST_ORDER_SIZE in Ev. rewrite <- Hprice.
  split; [lra|].
  exists token_id, orderbook, best. rewrite Ea. repeat split; try assumption. lra.
Qed.

Lemma test_size_buy_needs_half_a_dollar_witness :
  exists o,
    In o (snd (place_polymarket_order Sample2.filling_clob (IdPair ("tok-a", "tok-b"))
                 0 TEST_ORDER_SIZE 0.25 false))
    /\ (0.50 <= oa_price o)%Q.
Proof.
  destruct (place_polymarket_order Sample2.filling_clob (IdPair ("tok-a", "tok-b"))
              0 TEST_ORDER_SIZE 0.25 false) as [r posted] eqn:E.
  assert (Hp : exists o, In o posted).
  { vm_compute in E. injection E as _ <-. eexists. left. reflexivity. }
  destruct Hp as [o Hin]. exists o. split; [exact Hin|].
  exact (proj1 (test_size_buy_needs_half_a_dollar _ _ _ _ _ _ _ E Hin)).
Defined.

(** X24: [place_polymarket_order] never reads its [price] argument, posts at
    most one order, and reports success exactly when [post_order] returned
    for that order, whatever the exchange did with it. *)
Theorem polymarket_success_is_a_returned_post c market_id side quantity price
    other_price is_sell :
  place_polymarket_order c market_id side quantity price is_sell
  = place_polymarket_order c market_id side quantity other_price is_sell
  /\ let '(r, posted) :=
       place_polymarket_order c market_id side quantity price is_sell in
     (length posted <= 1)%nat
     /\ (success r = true
         <-> exists o order_id, posted = [o] /\ cl_post_order c o = Some order_id).
Proof.
  split; [reflexivity|].
  unfold place_polymarket_order.
  assert (N : forall e : string,
            (length ([] : list order_args) <= 1)%nat
            /\ (success (Rejected e) = true
                <-> exists o order_id, ([] : list order_args) = [o]
                                       /\ cl_post_order c o = Some order_id)).
  { intros e. split; [cbn; lia|]. split; [discriminate|].
    intros (o & i & Hnil & _). discriminate. }
  destruct (cl_client c); cbn [negb]; [|apply N].
  destruct (token_of market_id side) as [token_id|]; [|apply N].
  destruct (cl_get_order_book c token_id) as [orderbook|]; [|apply N].
  destruct (taker_terms orderbook quantity is_sell) as [e | [[tp size] sd]];
    [apply N|].
  destruct (cl_post_order c _) as [order_id|] eqn:Ep; (split; [cbn; lia|]).
  - split; [intros _; eauto|reflexivity].
  - split; [discriminate|]. intros (o & i & Ho & Hpost).
    injection Ho as <-. congruence.
Qed.


(** ** The Polymarket fetch *)

Lemma games_all_nil {M} (Q : string -> M -> Prop) : games_all Q [].
Proof. split; [constructor | intros ? ? []]. Qed.

Lemma games_touch_In {M} (key : string) (g : games M) k l :
  In (k, l) (games_touch key g) -> In (k, l) g \/ (k = key /\ l = []).
Proof.
  induction g as [|[k' l'] g IH]; cbn.
  - intros [H | []]. injection H as <- <-. now right.
  - destruct (decide (k' = key)) as [-> | Hne]; [now left|].
    intros [H | H]; [left; now left|].
    apply IH in H as [H | H]; [left; now right | now right].
Qed.

Lemma games_touch_keys {M} (key : string) (g : games M) k :
  In k (map fst (games_touch key g)) <-> k = key \/ In k (map fst g).
Proof.
  induction g as [|[k' l'] g IH]; cbn.
  - intuition congruence.
  - destruct (decide (k' = key)) as [-> | Hne]; cbn; [intuition congruence|].
    rewrite IH. intuition congruence.
Qed.

Lemma games_touch_all {M} (Q : string -> M -> Prop) key (g : games M) :
  games_all Q g -> games_all Q (games_touch key g).
Proof.
  intros [Hnd Hall]. split.
  - clear Hall. induction g as [|[k' l'] g IH]; cbn.
    + constructor; [intros [] | constructor].
    + destruct (decide (k' = key)) as [-> | Hne]; [exact Hnd|].
      cbn. inversion Hnd as [|? ? Hnin Hnd']; subst.
      constructor; [|apply IH, Hnd'].
      rewrite games_touch_keys. intros [-> | H]; [congruence | contradiction].
  - intros k l Hin m Hm. apply games_touch_In in Hin as [Hin | [_ ->]].
    + exact (Hall _ _ Hin _ Hm).
    + destruct Hm.
Qed.

Lemma games_append_all {M} (Q : string -> M -> Prop) key v (g : games M) :
  games_all Q g -> Q key v -> games_all Q (games_append key v g).
Proof.
  intros [Hnd Hall] Hv. split.
  - apply games_append_NoDup, Hnd.
  - intros k l Hin m Hm.
    apply games_append_In in Hin as [Hin | (-> & l0 & -> & Hl0)].
    + exact (Hall _ _ Hin _ Hm).
    + apply in_app_iff in Hm as [Hm | [<- | []]]; [|exact Hv].
      destruct Hl0 as [-> | Hl0]; [destruct Hm|].
      exact (Hall _ _ Hl0 _ Hm).
Qed.

Lemma take_length (n : nat) (s : string) : (String.length (Str.take n s) <= n)%nat.
Proof.
  unfold Str.take. revert s. induction n as [|n IH]; intros [|c s]; cbn; try lia.
  specialize (IH s). lia.
Qed.

Lemma take_lower (n : nat) (s : string) : Str.take n (Str.lower s) = Str.lower (Str.take n s).
Proof.
  unfold Str.take. revert s. induction n as [|n IH]; intros [|c s]; cbn;
    try reflexivity. now rewrite IH.
Qed.

Lemma polymarket_entry_facts (m : polymarket_json) (entry : pm_market) :
  polymarket_entry m = Kept entry ->
  (0 < p_yes entry /\ p_yes entry <= 1)%Q
  /\ (0 <= p_no entry /\ p_no entry <= 1)%Q
  /\ p_yes entry = p_ask entry
  /\ (p_no entry == 1 - p_bid entry)%Q
  /\ (String.length (p_title entry) <= 100)%nat
  /\ Str.lower (p_title entry) = p_title entry
  /\ fst (p_id entry) <> "" /\ snd (p_id entry) <> ""
  /\ (2 <= length (p_outcomes entry))%nat.
Proof.
  unfold polymarket_entry.
  destruct (pj_closed m); [discriminate|].
  destruct (price_of (pj_best_bid m)) as [bid|] eqn:Eb; [|discriminate].
  destruct (price_of (pj_best_ask m)) as [ask|] eqn:Ea; [|discriminate].
  destruct ((negb (is_absent (pj_best_bid m)) || negb (is_absent (pj_best_ask m)))
            && (Qle_bool ask 0 || Qltb bid 0 || Qltb 1 bid || Qltb 1 ask)) eqn:Ev;
    [discriminate|].
  destruct (Str.contains "," _ || Str.contains " and " _); [discriminate|].
  destruct (existsb _ partial_game_words); [discriminate|].
  destruct (existsb _ prop_words); [discriminate|].
  destruct (existsb _ game_words); cbn [negb]; [|discriminate].
  destruct (pj_clob_token_ids m) as [|id0 [|id1 ids]]; try discriminate.
  destruct (String.eqb id0 "" || String.eqb id1 "") eqn:Eid; [discriminate|].
  apply orb_false_iff in Eid as [E0 E1].
  intros H. injection H as <-. cbn [p_yes p_no p_ask p_bid p_title p_id p_outcomes fst snd].
  assert (Hrange : (0 < ask /\ ask <= 1 /\ 0 <= bid /\ bid <= 1)%Q).
  { destruct (pj_best_bid m) as [|qb|tb], (pj_best_ask m) as [|qa|ta];
      cbn in Eb, Ea, Ev;
      try (injection Eb as <-); try (injection Ea as <-); try subst tb; try subst ta;
      try (repeat split; lra);
      repeat (apply orb_false_iff in Ev as [Ev ?]);
      repeat match goal with
      | H : Qle_bool _ _ = false |- _ => apply Qle_bool_false in H
      | H : Qltb _ _ = false |- _ => apply Qltb_false in H
      end; repeat split; lra. }
  destruct Hrange as (? & ? & ? & ?).
  repeat split; try lra.
  - apply take_length.
  - rewrite <- take_lower, lower_lower. reflexivity.
  - apply String.eqb_neq, E0.
  - apply String.eqb_neq, E1.
  - destruct (Nat.ltb_spec (length (pj_outcomes m)) 2); [cbn; lia | lia].
Qed.

Lemma polymarket_event_all (Q : string -> pm_market -> Prop) sport_type event g :
  games_all Q g ->
  (forall m entry game,
     polymarket_entry m = Kept entry -> Q (sport_type +:+ ":" +:+ game) entry) ->
  games_all Q (polymarket_event sport_type event g).
Proof.
  intros Hg HQ. unfold polymarket_event.
  destruct (existsb _ award_words); [exact Hg|].
  destruct (extract_polymarket_game_key _) as [game|]; [|exact Hg].
  destruct (String.eqb game ""); [exact Hg|].
  revert g Hg. induction (ej_markets event) as [|m ms IH]; intros g Hg;
    cbn [fold_left]; [exact Hg|].
  apply IH. destruct (polymarket_entry m) as [| |entry] eqn:E.
  - exact Hg.
  - apply games_touch_all, Hg.
  - apply games_append_all; [apply games_touch_all, Hg | eapply HQ, E].
Qed.

Lemma dict_set_keys {V} (k0 : string) (v : V) (d : list (string * V)) k :
  In k (map fst (dict_set k0 v d)) <-> k = k0 \/ In k (map fst d).
Proof.
  induction d as [|[k' v'] d IH]; cbn.
  - intuition congruence.
  - destruct (decide (k' = k0)) as [-> | Hne]; cbn; [intuition congruence|].
    rewrite IH. intuition congruence.
Qed.

Lemma series_map_sports (sports : list sport_json) sport_type series_ids :
  In (sport_type, series_ids) (series_map_of sports) -> In sport_type sport_tags.
Proof.
  intros Hin. apply (in_map fst) in Hin. cbn [fst] in Hin. revert Hin.
  unfold series_map_of.
  assert (H0 : forall k, In k (map fst ([] : list (string * list string))) ->
               In k sport_tags) by (intros ? []).
  revert H0. generalize ([] : list (string * list string)) as sm.
  induction sports as [|sport sports IH]; intros sm Hsm; cbn [fold_left].
  - apply Hsm.
  - apply IH. intros k.
    repeat match goal with
    | |- context [if String.eqb ?a ?b then _ else _] => destruct (String.eqb a b)
    end;
    rewrite ?dict_set_keys, ?games_append_keys;
    try (intros [-> | H]; [cbn; tauto | exact (Hsm _ H)]).
    apply Hsm.
Qed.

Lemma get_polymarket_games_all (Q : string -> pm_market -> Prop) sports events :
  (forall sport_type m entry game,
     In sport_type sport_tags ->
     polymarket_entry m = Kept entry -> Q (sport_type +:+ ":" +:+ game) entry) ->
  games_all Q (get_polymarket_games sports events).
Proof.
  intros HQ. unfold get_polymarket_games.
  destruct sports as [sports|]; [|apply games_all_nil].
  pose proof (series_map_sports sports) as Hs. revert Hs.
  generalize (series_map_of sports) as sm. intros sm.
  pose proof (games_all_nil Q) as Hg. revert Hg.
  generalize ([] : games pm_market) as g. intros g Hg. revert g Hg.
  induction sm as [|[sport_type series_ids] sm IH]; intros g Hg Hs; cbn [fold_left].
  - exact Hg.
  - apply IH; [|intros; eapply Hs; right; eassumption].
    assert (Hsport : In sport_type sport_tags) by (eapply Hs; left; reflexivity).
    clear IH Hs. revert g Hg.
    induction series_ids as [|series_id ids IHi]; intros g Hg; cbn [fold_left];
      [exact Hg|].
    apply IHi. destruct (events series_id) as [evs|]; [|exact Hg].
    clear IHi. revert g Hg.
    induction evs as [|event evs IHe]; intros g Hg; cbn [fold_left]; [exact Hg|].
    apply IHe. apply polymarket_event_all; [exact Hg|].
    intros m entry game He. eapply HQ; eassumption.
Qed.



(** X27: from fetch to candidates.  Whatever the two venues answer,
    [find_arbs] completes on the fetched games, and every candidate it
    returns is for a game of one of the four sports, pays between 0 and 1
    for its Polymarket leg and less than 1 for its Kalshi leg. *)
Theorem fetched_candidates_are_priced_within_bounds credentials responses sports events :
  exists arbs,
    find_arbs (get_kalshi_games credentials responses)
              (get_polymarket_games sports events) = Ok arbs
    /\ forall c, In c arbs ->
         (0 <= a_pm_best_ask c /\ a_pm_best_ask c <= 1)%Q
         /\ (a_ks_ask c < 1)%Q
         /\ exists sport_type game,
              a_game c = sport_type +:+ ":" +:+ game /\ In sport_type sport_tags.
Proof.
  destruct (get_kalshi_games_inv
    (fun key _ => exists teams, game_teams key = Ok teams)
    credentials responses) as [_ Hks].
  { intros series sport_type m key entry Hcfg He.
    apply kalshi_entry_facts in He as (_ & (game & -> & _) & _).
    eapply tagged_key_has_teams, series_configs_sports, Hcfg. }
  destruct (find_arbs_total (get_kalshi_games credentials responses)
              (get_polymarket_games sports events)) as [arbs Hrun].
  { intros key markets Hin. destruct (Hks _ _ Hin) as [Hne Hm].
    destruct markets as [|m0 markets]; [congruence|]. apply (Hm m0). now left. }
  exists arbs. split; [exact Hrun|].
  intros c Hc.
  destruct (find_arbs_provenance _ _ _ _ Hrun Hc) as (game_key & ks & pm & Hem).
  destruct Hem as [_ (pm_markets & Hget & Hpm) _ _ Hpriced].
  apply dict_get_In in Hget.
  destruct (get_polymarket_games_all polymarket_entry_ok sports events) as [_ Hall].
  { intros sport_type m' entry game Hs He.
    pose proof (polymarket_entry_facts _ _ He) as Hf.
    unfold polymarket_entry_ok. intuition eauto. }
  destruct (Hall _ _ Hget _ Hpm)
    as ((Hy0 & Hy1) & (Hn0 & Hn1) & _ & _ & _ & _ & _ & _ & _ & sport & game & Hk & Hs).
  destruct Hpriced as [Hgame _ _ _ Hleg Hfee Hcost Hprofit [Hgate Hpos] _].
  assert (Hpmleg : (0 <= a_pm_best_ask c /\ a_pm_best_ask c <= 1)%Q).
  { destruct Hleg as [-> | ->]; split; lra. }
  split; [exact Hpmleg|]. split.
  - rewrite Hprofit, Hcost, Hfee in Hgate. rewrite Hcost, Hfee in Hpos.
    unfold MIN_PROFIT, KALSHI_TAKER_FEE in *. lra.
  - exists sport, game. split; [congruence | exact Hs].
Qed.




(** ** Nothing that passes a fetch filter is lost *)










(** ** The team matcher *)

Lemma get_canonical_normal_form (a b : string) :
  a <> "" -> b <> "" ->
  TeamMappings.normalize a = TeamMappings.normalize b ->
  TeamMappings.get_canonical a = TeamMappings.get_canonical b.
Proof.
  intros Ha Hb E. unfold TeamMappings.get_canonical.
  apply String.eqb_neq in Ha, Hb. now rewrite Ha, Hb, E.
Qed.

Lemma team_key_normal_form (a b : string) :
  a <> "" -> b <> "" ->
  TeamMappings.normalize a = TeamMappings.normalize b -> team_key a = team_key b.
Proof.
  intros Ha Hb E. unfold team_key.
  now rewrite (get_canonical_normal_form a b Ha Hb E), E.
Qed.

Lemma is_same_team_spec (a b : string) :
  TeamMappings.is_same_team a b = true
  <-> a <> "" /\ b <> "" /\ team_key a = team_key b.
Proof.
  unfold TeamMappings.is_same_team.
  destruct (String.eqb_spec a "") as [-> | Ha]; cbn [orb].
  { split; [discriminate | intros [H _]; congruence]. }
  destruct (String.eqb_spec b "") as [-> | Hb].
  { split; [discriminate | intros (_ & H & _); congruence]. }
  assert (Hnf : TeamMappings.normalize a = TeamMappings.normalize b ->
                TeamMappings.get_canonical a = TeamMappings.get_canonical b)
    by (apply get_canonical_normal_form; assumption).
  unfold team_key, TeamMappings.truthy.
  destruct (TeamMappings.get_canonical a) as [ca|],
           (TeamMappings.get_canonical b) as [cb|];
    try destruct (String.eqb_spec ca ""); try destruct (String.eqb_spec cb "");
    cbn [negb andb]; rewrite String.eqb_eq;
    (split; [intros E; repeat split; try assumption; try congruence;
             try (specialize (Hnf E); congruence)
            | intros (_ & _ & E); congruence]).
Qed.

(** X30: [is_same_team] is an equivalence on non-empty names: it holds of a
    name and itself, in both directions or in neither, and passes from a
    pair of matching names to a third; and it reads a name only through its
    normal form, so that case, blanks and punctuation never change the
    answer. *)
Theorem is_same_team_is_an_equivalence :
  (forall a, a <> "" -> TeamMappings.is_same_team a a = true)
  /\ (forall a b, TeamMappings.is_same_team a b = TeamMappings.is_same_team b a)
  /\ (forall a b c,
        TeamMappings.is_same_team a b = true ->
        TeamMappings.is_same_team b c = true ->
        TeamMappings.is_same_team a c = true)
  /\ (forall a a' b,
        a <> "" -> a' <> "" ->
        TeamMappings.normalize a = TeamMappings.normalize a' ->
        TeamMappings.is_same_team a b = TeamMappings.is_same_team a' b).
Proof.
  assert (Hiff : forall x y : bool, (x = true <-> y = true) -> x = y).
  { intros [] [] [H1 H2]; auto. symmetry. auto. }
  split; [|split; [|split]].
  - intros a Ha. apply is_same_team_spec. auto.
  - intros a b. apply Hiff. rewrite !is_same_team_spec. intuition congruence.
  - intros a b c. rewrite !is_same_team_spec. intuition congruence.
  - intros a a' b Ha Ha' E. apply Hiff. rewrite !is_same_team_spec.
    rewrite (team_key_normal_form a a' Ha Ha' E). tauto.
Qed.

(** the first case of the module's own test is answered with [False]: a full
    team name is not an alias once its blank is removed *)
Example abbreviation_and_full_name_do_not_match :
  TeamMappings.is_same_team "BUF" "Buffalo Bills" = false
  /\ TeamMappings.is_same_team "BUF" "buffalo" = true
  /\ TeamMappings.is_same_team "BUF" "Denver Broncos" = false.
Proof. vm_compute. auto. Qed.

(** a resting Kalshi buy is sold back and reported as a failure *)
Example resting_buy_is_sold_back :
  let '(r, sent) := place_kalshi_order Sample2.resting_api "KXNFLGAME-26JAN17BUFDEN-BUF"
                      "yes" 2 70 in
  success r = false /\ map ko_action sent = ["buy"; "sell"]
  /\ map ko_yes_price sent = [Some 99%Z; Some 1%Z].
Proof. vm_compute. auto. Qed.

Example executed_buy_succeeds :
  let '(r, sent) := place_kalshi_order Sample2.executing_api
                      "KXNFLGAME-26JAN17BUFDEN-BUF" "no" 2 30 in
  success r = true /\ map ko_action sent = ["buy"]
  /\ map ko_no_price sent = [Some 99%Z].
Proof. vm_compute. auto. Qed.
